(** * basilisk-core: the memory index and retrieval engine

    A shallow embedding of [computer_use_demo/memory/core.py],
    [computer_use_demo/memory/storage.py] and
    [computer_use_demo/memory/embeddings.py], and the properties of the
    index structures, of the storage round trip and of the relationship
    links that the specification states about them.

    Conventions of the embedding:
    - a Python [float] is an IEEE-754 binary64 value, [spec_float] with
      the binary64 parameters of [FloatOps];
    - a Python [dict] that the code iterates over ([semantic_index],
      [type_index]) is an insertion-ordered association list with unique
      keys ([PyDict]); a dict that is only looked up and updated
      ([relationships]) is a [gmap];
    - a method of [MemorySystem] is a function in the monad [M], which
      threads the object's state and either returns a value or raises; a
      raised exception leaves the mutations done so far in place, as in
      Python;
    - what a call reads from the outside (the uuid, the clock, the reply of
      the embedding provider, whether a statement sent to SQLite succeeds)
      is given by a [World]. *)

From Stdlib Require Import ZArith Ascii String List Sorted Permutation.
From Stdlib Require Import Floats.SpecFloat Floats.PrimFloat Floats.FloatOps.
From Stdlib Require OrderedTypeEx.
From stdpp Require Import base option list gmap strings sorting.

Local Open Scope Z_scope.

(** ** Python floats *)

Module Float.
Definition float : Type := spec_float.

Definition add : float -> float -> float := SFadd prec emax.
Definition mul : float -> float -> float := SFmul prec emax.
Definition div : float -> float -> float := SFdiv prec emax.
Definition sqrt : float -> float := SFsqrt prec emax.

(** [x < y], [x > y], [x <= y] and [x == y] on floats; every comparison
    with NaN is false. *)
Definition ltb (x y : float) : bool := SFltb x y.
Definition gtb (x y : float) : bool := SFltb y x.
Definition leb (x y : float) : bool := SFleb x y.
Definition eqb (x y : float) : bool := SFeqb x y.

Definition is_nan (x : float) : bool :=
  match x with S754_nan => true | _ => false end.

Definition is_zero (x : float) : bool :=
  match x with S754_zero _ => true | _ => false end.

Definition is_infinity (x : float) : bool :=
  match x with S754_infinity _ => true | _ => false end.

Definition nan : float := S754_nan.
Definition zero : float := S754_zero false.
Definition one : float := Eval vm_compute in Prim2SF 1%float.
Definition of_prim (x : PrimFloat.float) : float := Prim2SF x.
End Float.

Abbreviation float := Float.float.

(** ** Exceptions and results *)

Inductive exn : Type :=
| KeyError (key : string)     (* d[key] on a missing key *)
| ValueError                  (* numpy: shapes not aligned, seed out of range *)
| OverflowError               (* sqlite3: Python int too large for INTEGER *)
| JSONDecodeError             (* json.loads on a malformed cell *)
| OperationalError            (* sqlite3: the statement could not be run *)
| IntegrityError.             (* sqlite3: NOT NULL constraint failed *)

Inductive result (A : Type) : Type :=
| Ok (a : A)
| Raise (e : exn).
Arguments Ok {A} a.
Arguments Raise {A} e.

#[global] Instance result_ret : MRet result := fun A a => Ok a.
#[global] Instance result_bind : MBind result := fun A B f r =>
  match r with Ok a => f a | Raise e => Raise e end.
#[global] Instance result_fmap : FMap result := fun A B f r =>
  match r with Ok a => Ok (f a) | Raise e => Raise e end.

Definition is_ok {A} (r : result A) : bool :=
  match r with Ok _ => true | Raise _ => false end.

(** [mapM] for [result], left to right, stopping at the first exception. *)
Fixpoint for_each {A B} (f : A -> result B) (l : list A) : result (list B) :=
  match l with
  | [] => Ok []
  | a :: l' =>
      match f a with
      | Ok b => match for_each f l' with Ok bs => Ok (b :: bs) | Raise e => Raise e end
      | Raise e => Raise e
      end
  end.

(** ** Python lists and dicts *)

(** [l[:k]]: the first [k] elements, and for negative [k] all but the last
    [-k]. *)
Definition slice_to {A} (l : list A) (k : Z) : list A :=
  if 0 <=? k then take (Z.to_nat k) l
  else take (length l - Z.to_nat (- k))%nat l.

(** [x in l] for a list of strings. *)
Definition list_contains (x : string) (l : list string) : bool :=
  bool_decide (x ∈ l).

Module PyDict.
Section dict.
Context {V : Type}.

Definition t : Type := list (string * V).

Definition empty : t := [].

(** [d.get(k)] *)
Fixpoint get (k : string) (d : t) : option V :=
  match d with
  | [] => None
  | (k', v) :: d' => if decide (k = k') then Some v else get k d'
  end.

(** [d[k]] *)
Definition getitem (k : string) (d : t) : result V :=
  match get k d with Some v => Ok v | None => Raise (KeyError k) end.

(** [d[k] = v]: an existing key keeps its position, a new key goes to
    the end. *)
Fixpoint set (k : string) (v : V) (d : t) : t :=
  match d with
  | [] => [(k, v)]
  | (k', v') :: d' =>
      if decide (k = k') then (k, v) :: d' else (k', v') :: set k v d'
  end.

(** [k in d] *)
Definition contains (k : string) (d : t) : bool :=
  match get k d with Some _ => true | None => false end.

Definition keys (d : t) : list string := d.*1.
Definition values (d : t) : list V := d.*2.
End dict.
Arguments t : clear implicits.
End PyDict.

(** ** The data model ([core.py], lines 17-38) *)

Module Experience.
Record t {Payload : Type} : Type := mk {
  id : string;
  timestamp : string;
  type : string;                           (* perception, action, ... *)
  content : Payload;
  metadata : Payload;
  tags : list string;
  importance : float;
  context : Payload;
  relationships : gmap string (list string)
}.
Arguments t : clear implicits.
Arguments mk {Payload}.

Definition set_relationships {Payload} (r : gmap string (list string))
    (e : t Payload) : t Payload :=
  mk (id e) (timestamp e) (type e) (content e) (metadata e) (tags e)
     (importance e) (context e) r.
End Experience.
Abbreviation Experience := Experience.t.

Module Memory.
Record t {Payload : Type} : Type := mk {
  experience : Experience Payload;
  embedding : list float;
  last_accessed : string;
  access_count : Z;
  emotional_valence : float;
  confidence : float
}.
Arguments t : clear implicits.
Arguments mk {Payload}.

Definition set_experience {Payload} (e : Experience Payload)
    (m : t Payload) : t Payload :=
  mk e (embedding m) (last_accessed m) (access_count m)
     (emotional_valence m) (confidence m).
End Memory.
Abbreviation Memory := Memory.t.

(** ** The embedding provider ([embeddings.py]) *)

Module Embeddings.

(** [np.dot(v1, v2)]: the sum of the products, and [ValueError] when the
    shapes are not aligned. The order in which numpy adds the products is
    its own affair; nothing below depends on it. *)
Fixpoint dot (v1 v2 : list float) : result float :=
  match v1, v2 with
  | [], [] => Ok Float.zero
  | x :: v1', y :: v2' =>
      match dot v1' v2' with
      | Ok s => Ok (Float.add (Float.mul x y) s)
      | Raise e => Raise e
      end
  | _, _ => Raise ValueError
  end.

(** [np.linalg.norm(v)]: the square root of the sum of the squares. *)
Definition sum_squares (v : list float) : float :=
  foldr (fun x s => Float.add (Float.mul x x) s) Float.zero v.

Definition norm (v : list float) : float := Float.sqrt (sum_squares v).

(** [calculate_similarity], lines 42-46. The division is a division of
    numpy scalars: dividing by zero gives NaN or an infinity, it does not
    raise. *)
Definition calculate_similarity (vec1 vec2 : list float) : result float :=
  match dot vec1 vec2 with
  | Ok d => Ok (Float.div d (Float.mul (norm vec1) (norm vec2)))
  | Raise e => Raise e
  end.

(** [np.random.RandomState(seed)] accepts a seed between [0] and
    [2**32 - 1] and raises [ValueError] on any other integer. *)
Definition seed_ok (seed : Z) : bool := (0 <=? seed) && (seed <=? 2 ^ 32 - 1).

Section fallback.
(** The hash of a [str] is keyed by a secret that the interpreter draws
    when it starts (unless PYTHONHASHSEED fixes it): [str_hash secret]
    is [hash] in a process with that secret, a signed 64-bit integer.
    [randn seed n] is the list of the first [n] normal deviates of the
    Mersenne Twister seeded with [seed]. *)
Variable str_hash : Z -> string -> Z.
Variable randn : Z -> nat -> list float.

(** [_generate_simple_embedding], lines 48-53, in a process with the
    given hash secret. *)
Definition _generate_simple_embedding (secret : Z) (text : string)
    : result (list float) :=
  let hash_val := str_hash secret text in
  if seed_ok hash_val then Ok (randn hash_val 256) else Raise ValueError.

(** [get_embedding], lines 16-40. [reply] is what the [try] block
    produced: the parsed vector, or [None] when anything in it raised. *)
Definition get_embedding (secret : Z) (reply : option (list float))
    (text : string) : result (list float) :=
  match reply with
  | Some vector => Ok vector
  | None => _generate_simple_embedding secret text
  end.
End fallback.

End Embeddings.

(** ** What a call reads from the outside *)

Record World : Type := {
  (** [str(uuid4())] *)
  uuid4 : string;
  (** the successive values of [datetime.now().isoformat()] *)
  now : nat -> string;
  (** what [await self.embedding_manager.get_embedding(...)] gives: the
      vector of the provider or of the fallback, or the exception that the
      fallback raised *)
  embedding_reply : result (list float);
  (** whether the n-th use of the database of this call goes through;
      when it does not, sqlite3 raises and the transaction is rolled
      back *)
  sqlite_ok : nat -> bool
}.

(** ** The storage engine ([storage.py]) *)

(** [json.dumps] and [json.loads] at the type of a field. *)
Class Json (A : Type) : Type := {
  json_dumps : A -> string;
  json_loads : string -> result A
}.

(** The contract of the [json] module on values that JSON represents. *)
Class JsonRoundTrip (A : Type) `{Json A} : Prop :=
  json_loads_dumps : forall a : A, json_loads (json_dumps a) = Ok a.

Module Row.
(** A row of the table [memories], lines 28-45: TEXT cells are strings,
    REAL cells floats, INTEGER cells integers. *)
Record t : Type := mk {
  id : string;
  timestamp : string;
  type : string;
  content : string;
  metadata : string;
  tags : string;
  importance : float;
  context : string;
  relationships : string;
  embedding : string;
  last_accessed : string;
  access_count : Z;
  emotional_valence : float;
  confidence : float
}.

(** [SET last_accessed = ?, access_count = access_count + 1] (below
    [2**63 - 1]; there SQLite would turn the count into a REAL). *)
Definition touch (now : string) (r : t) : t :=
  mk (id r) (timestamp r) (type r) (content r) (metadata r) (tags r)
     (importance r) (context r) (relationships r) (embedding r)
     now (access_count r + 1) (emotional_valence r) (confidence r).
End Row.

Module StorageManager.
(** The database file: the rows of [memories] in the order in which
    [SELECT *] yields them. *)
Record t : Type := mk { memories : list Row.t }.
End StorageManager.

(** An INTEGER cell holds a signed 64-bit integer; sqlite3 raises
    [OverflowError] when it binds a larger Python int. *)
Definition int64_ok (n : Z) : bool := (- 2 ^ 63 <=? n) && (n <=? 2 ^ 63 - 1).

(** SQLite stores a NaN as NULL, which the NOT NULL constraint of every
    column rejects. *)
Definition not_null (r : Row.t) : bool :=
  negb (Float.is_nan (Row.importance r))
  && negb (Float.is_nan (Row.emotional_valence r))
  && negb (Float.is_nan (Row.confidence r)).

(** What a REAL cell gives back for the float it was given: SQLite
    writes a float without fractional part as an integer, which loses the
    sign of a negative zero; every other float comes back as it was. *)
Definition real_cell (x : float) : float :=
  match x with S754_zero _ => S754_zero false | _ => x end.

(** [INSERT OR REPLACE] on the primary key [id]: a row with the same id is
    deleted and the new row is added at the end. *)
Definition insert_or_replace (r : Row.t) (rows : list Row.t) : list Row.t :=
  filter (fun r' => Row.id r' <> Row.id r) rows ++ [r].

Section Storage.
Context {Payload : Type}.
Context `{!Json Payload, !Json (list string),
          !Json (gmap string (list string)), !Json (list float)}.

Definition row_of_memory (memory : Memory Payload) : Row.t :=
  let e := Memory.experience memory in
  Row.mk (Experience.id e) (Experience.timestamp e) (Experience.type e)
    (json_dumps (Experience.content e))
    (json_dumps (Experience.metadata e))
    (json_dumps (Experience.tags e))
    (real_cell (Experience.importance e))
    (json_dumps (Experience.context e))
    (json_dumps (Experience.relationships e))
    (json_dumps (Memory.embedding memory))
    (Memory.last_accessed memory) (Memory.access_count memory)
    (real_cell (Memory.emotional_valence memory))
    (real_cell (Memory.confidence memory)).

(** [store_memory], lines 48-81. *)
Definition store_memory (ok : bool) (memory : Memory Payload)
    (db : StorageManager.t) : result StorageManager.t :=
  if negb ok then Raise OperationalError
  else
    let memory_data := row_of_memory memory in
    if negb (int64_ok (Row.access_count memory_data)) then Raise OverflowError
    else if negb (not_null memory_data) then Raise IntegrityError
    else Ok (StorageManager.mk
               (insert_or_replace memory_data (StorageManager.memories db))).

Definition memory_of_row (row : Row.t) : result (Memory Payload) :=
  content ← json_loads (Row.content row);
  metadata ← json_loads (Row.metadata row);
  tags ← json_loads (Row.tags row);
  context ← json_loads (Row.context row);
  relationships ← json_loads (Row.relationships row);
  let experience :=
    Experience.mk (Row.id row) (Row.timestamp row) (Row.type row)
      content metadata tags (Row.importance row) context relationships in
  embedding ← json_loads (Row.embedding row);
  mret (Memory.mk experience embedding (Row.last_accessed row)
          (Row.access_count row) (Row.emotional_valence row)
          (Row.confidence row)).

(** [load_all_memories], lines 83-117. *)
Definition load_all_memories (ok : bool) (db : StorageManager.t)
    : result (list (Memory Payload)) :=
  if negb ok then Raise OperationalError
  else for_each memory_of_row (StorageManager.memories db).

(** [get_memory], lines 119-152. *)
Definition get_memory (ok : bool) (memory_id : string) (db : StorageManager.t)
    : result (option (Memory Payload)) :=
  if negb ok then Raise OperationalError
  else
    match filter (fun r => Row.id r = memory_id) (StorageManager.memories db) with
    | [] => Ok None
    | row :: _ => Some <$> memory_of_row row
    end.

(** [update_access], lines 154-162: an UPDATE that matches no row changes
    nothing and does not raise. *)
Definition update_access (ok : bool) (now : string) (memory_id : string)
    (db : StorageManager.t) : result StorageManager.t :=
  if negb ok then Raise OperationalError
  else Ok (StorageManager.mk
             ((fun r => if decide (Row.id r = memory_id)
                        then Row.touch now r else r)
                <$> StorageManager.memories db)).
End Storage.

(** ** The memory system ([core.py]) *)

Module MemorySystem.
(** The attributes of a [MemorySystem] object, lines 51-55, and the
    database behind [self.storage]. *)
Record t {Payload : Type} : Type := mk {
  semantic_index : PyDict.t (Memory Payload);
  temporal_index : list string;                (* most recent first *)
  importance_index : list string;              (* most important first *)
  type_index : PyDict.t (list string);         (* type -> [memory_ids] *)
  storage : StorageManager.t
}.
Arguments t : clear implicits.
Arguments mk {Payload}.

Section setters.
Context {Payload : Type}.
Implicit Types s : t Payload.

Definition set_semantic_index (d : PyDict.t (Memory Payload)) s : t Payload :=
  mk d (temporal_index s) (importance_index s) (type_index s) (storage s).
Definition set_temporal_index (l : list string) s : t Payload :=
  mk (semantic_index s) l (importance_index s) (type_index s) (storage s).
Definition set_importance_index (l : list string) s : t Payload :=
  mk (semantic_index s) (temporal_index s) l (type_index s) (storage s).
Definition set_type_index (d : PyDict.t (list string)) s : t Payload :=
  mk (semantic_index s) (temporal_index s) (importance_index s) d (storage s).
Definition set_storage (db : StorageManager.t) s : t Payload :=
  mk (semantic_index s) (temporal_index s) (importance_index s)
     (type_index s) db.
End setters.
End MemorySystem.
Abbreviation MemorySystem := MemorySystem.t.

Module Call.
(** A call of [record_experience]: the arguments, and the world in which
    the call runs. *)
Record t {Payload : Type} : Type := mk {
  world : World;
  type : string;
  content : Payload;
  metadata : option Payload;
  tags : option (list string);
  importance : float;
  context : option Payload
}.
Arguments t : clear implicits.
Arguments mk {Payload}.
End Call.
Abbreviation Call := Call.t.

Section Core.
Context {Payload : Type} `{Empty Payload}.
Context `{!Json Payload, !Json (list string),
          !Json (gmap string (list string)), !Json (list float)}.

Import MemorySystem.

(** A method body: from the state of [self] to the state it leaves and
    the value it returns or the exception it raises. *)
Definition M (A : Type) : Type :=
  MemorySystem Payload -> MemorySystem Payload * result A.

#[local] Instance M_ret : MRet M := fun A a s => (s, Ok a).
#[local] Instance M_bind : MBind M := fun A B f m s =>
  match m s with
  | (s', Ok a) => f a s'
  | (s', Raise e) => (s', Raise e)
  end.

Definition get_self : M (MemorySystem Payload) := fun s => (s, Ok s).
Definition modify (f : MemorySystem Payload -> MemorySystem Payload) : M unit :=
  fun s => (f s, Ok ()).
Definition lift {A} (r : result A) : M A := fun s => (s, r).

(** A call into [self.storage] that writes: the database changes only
    when the call returns. *)
Definition with_storage (f : StorageManager.t -> result StorageManager.t)
    : M unit :=
  fun s =>
    match f (storage s) with
    | Ok db => (set_storage db s, Ok ())
    | Raise e => (s, Raise e)
    end.

(** The loop of [_insert_sorted_by_importance], lines 229-234: the new id
    goes before the first id whose importance is strictly less, and at the
    end when there is none. *)
Fixpoint insert_before_less (sem : PyDict.t (Memory Payload))
    (importance : float) (memory_id : string) (index : list string)
    : result (list string) :=
  match index with
  | [] => Ok [memory_id]
  | mid :: rest =>
      m ← PyDict.getitem mid sem;
      if Float.gtb importance (Experience.importance (Memory.experience m))
      then Ok (memory_id :: mid :: rest)
      else (cons mid) <$> insert_before_less sem importance memory_id rest
  end.

(** [_insert_sorted_by_importance], lines 225-234. *)
Definition _insert_sorted_by_importance (memory_id : string) : M unit :=
  s ← get_self;
  m ← lift (PyDict.getitem memory_id (semantic_index s));
  let importance := Experience.importance (Memory.experience m) in
  index ← lift (insert_before_less (semantic_index s) importance memory_id
                  (importance_index s));
  modify (set_importance_index index).

(** [self.type_index[type].insert(0, id)] after the bucket was created
    when missing, lines 99-101. *)
Definition type_index_prepend (type memory_id : string) : M unit :=
  modify (fun s =>
    if PyDict.contains type (type_index s) then s
    else set_type_index (PyDict.set type [] (type_index s)) s) ;;
  s ← get_self;
  bucket ← lift (PyDict.getitem type (type_index s));
  modify (set_type_index (PyDict.set type (memory_id :: bucket) (type_index s))).

(** [Experience(type=..., ...)], lines 69-76: the id and the timestamp
    come from the default factories; [metadata or {}] is the argument, or
    the empty dict when the argument is [None] or empty. *)
Definition new_experience (w : World) (type : string) (content : Payload)
    (metadata : option Payload) (tags : option (list string))
    (importance : float) (context : option Payload) : Experience Payload :=
  Experience.mk (uuid4 w) (now w 0) type content (default ∅ metadata)
    (default [] tags) importance (default ∅ context) ∅.

(** [Memory(experience=..., embedding=...)], lines 89-92. *)
Definition new_memory (w : World) (experience : Experience Payload)
    (embedding : list float) : Memory Payload :=
  Memory.mk experience embedding (now w 1) 0 Float.zero Float.one.

(** [record_experience], lines 60-106. *)
Definition record_experience (w : World) (type : string) (content : Payload)
    (metadata : option Payload) (tags : option (list string))
    (importance : float) (context : option Payload)
    : M (Experience Payload) :=
  let experience :=
    new_experience w type content metadata tags importance context in
  (* Generate embedding *)
  embedding ← lift (embedding_reply w);
  (* Create memory *)
  let memory := new_memory w experience embedding in
  (* Update indices *)
  modify (fun s => set_semantic_index
            (PyDict.set (Experience.id experience) memory (semantic_index s)) s) ;;
  modify (fun s => set_temporal_index
            (Experience.id experience :: temporal_index s) s) ;;
  _insert_sorted_by_importance (Experience.id experience) ;;
  type_index_prepend (Experience.type experience) (Experience.id experience) ;;
  (* Persist to storage *)
  with_storage (store_memory (sqlite_ok w 0) memory) ;;
  mret experience.

(** The loops "Update access stats", lines 124-126, 139-141 and 152-154:
    one UPDATE per returned memory, each with its own reading of the
    clock. *)
Fixpoint update_access_all (w : World) (n : nat)
    (memories : list (Memory Payload)) : M unit :=
  match memories with
  | [] => mret ()
  | memory :: rest =>
      with_storage (update_access (sqlite_ok w n) (now w n)
                      (Experience.id (Memory.experience memory))) ;;
      update_access_all w (S n) rest
  end.

(** [list.sort(key=..., reverse=True)] on keys that were computed
    beforehand: a stable sort into descending order, so elements whose
    keys compare equal keep their order. [ltb] is [<] on the keys. On
    keys that [<] orders totally the stable descending arrangement is
    unique, whatever the algorithm. *)
Fixpoint insert_desc {K A} (ltb : K -> K -> bool) (x : K * A)
    (l : list (K * A)) : list (K * A) :=
  match l with
  | [] => [x]
  | y :: l' => if ltb x.1 y.1 then y :: insert_desc ltb x l' else x :: y :: l'
  end.

Definition sort_reverse {K A} (ltb : K -> K -> bool) (l : list (K * A))
    : list (K * A) :=
  foldr (insert_desc ltb) [] l.

(** [recall_similar], lines 108-128; the embedding of the query is the
    [embedding_reply] of the world. *)
Definition recall_similar (w : World) (query : string) (limit : Z)
    : M (list (Memory Payload)) :=
  query_embedding ← lift (embedding_reply w);
  (* Calculate similarities *)
  s ← get_self;
  similarities ← lift (for_each
    (fun memory =>
       similarity ← Embeddings.calculate_similarity query_embedding
                      (Memory.embedding memory);
       mret (similarity, memory))
    (PyDict.values (semantic_index s)));
  (* Sort by similarity *)
  let similarities := sort_reverse Float.ltb similarities in
  let memories := snd <$> slice_to similarities limit in
  (* Update access stats *)
  update_access_all w 0 memories ;;
  mret memories.

(** [if type:] on an [Optional[str]]: [None] and the empty string are
    both false. *)
Definition truthy (type : option string) : option string :=
  match type with
  | Some t => if decide (t = EmptyString) then None else Some t
  | None => None
  end.

(** [recall_recent], lines 130-143. *)
Definition recall_recent (w : World) (limit : Z) (type : option string)
    : M (list (Memory Payload)) :=
  s ← get_self;
  let memory_ids :=
    match truthy type with
    | Some t => slice_to (default [] (PyDict.get t (type_index s))) limit
    | None => slice_to (temporal_index s) limit
    end in
  memories ← lift (for_each (fun mid => PyDict.getitem mid (semantic_index s))
                     memory_ids);
  (* Update access stats *)
  update_access_all w 0 memories ;;
  mret memories.

(** [recall_important], lines 145-156. *)
Definition recall_important (w : World) (limit : Z)
    : M (list (Memory Payload)) :=
  s ← get_self;
  memories ← lift (for_each (fun mid => PyDict.getitem mid (semantic_index s))
                     (slice_to (importance_index s) limit));
  (* Update access stats *)
  update_access_all w 0 memories ;;
  mret memories.

(** The key of the sorts of [load_memories], lines 215 and 221: the
    timestamp of the memory that an id names. Python computes the keys of
    all the elements before it sorts. Timestamps are compared as strings;
    on UTF-8 text the order of the bytes is the order of the code
    points. *)
Definition sort_by_timestamp (sem : PyDict.t (Memory Payload))
    (ids : list string) : result (list string) :=
  keyed ← for_each
    (fun x => m ← PyDict.getitem x sem;
              mret (Experience.timestamp (Memory.experience m), x)) ids;
  mret (snd <$> sort_reverse String.ltb keyed).

(** The body of the loop "Rebuild indices", lines 204-211. *)
Definition rebuild_one (memory : Memory Payload) : M unit :=
  let e := Memory.experience memory in
  modify (fun s => set_semantic_index
            (PyDict.set (Experience.id e) memory (semantic_index s)) s) ;;
  modify (fun s => set_temporal_index (temporal_index s ++ [Experience.id e]) s) ;;
  _insert_sorted_by_importance (Experience.id e) ;;
  modify (fun s =>
    if PyDict.contains (Experience.type e) (type_index s) then s
    else set_type_index (PyDict.set (Experience.type e) [] (type_index s)) s) ;;
  s ← get_self;
  bucket ← lift (PyDict.getitem (Experience.type e) (type_index s));
  modify (set_type_index
            (PyDict.set (Experience.type e) (bucket ++ [Experience.id e])
               (type_index s))).

Fixpoint rebuild_all (memories : list (Memory Payload)) : M unit :=
  match memories with
  | [] => mret ()
  | memory :: rest => rebuild_one memory ;; rebuild_all rest
  end.

(** The loop over [self.type_index.values()], lines 219-223: each bucket
    is sorted in place, in the order of the dict. *)
Fixpoint sort_buckets (types : list string) : M unit :=
  match types with
  | [] => mret ()
  | t :: rest =>
      s ← get_self;
      type_ids ← lift (PyDict.getitem t (type_index s));
      sorted ← lift (sort_by_timestamp (semantic_index s) type_ids);
      modify (set_type_index (PyDict.set t sorted (type_index s))) ;;
      sort_buckets rest
  end.

(** [load_memories], lines 193-223. *)
Definition load_memories (w : World) : M unit :=
  s ← get_self;
  memories ← lift (load_all_memories (sqlite_ok w 0) (storage s));
  (* Reset indices *)
  modify (fun s => mk PyDict.empty [] [] PyDict.empty (storage s)) ;;
  (* Rebuild indices *)
  rebuild_all memories ;;
  (* Sort indices *)
  s ← get_self;
  sorted ← lift (sort_by_timestamp (semantic_index s) (temporal_index s));
  modify (set_temporal_index sorted) ;;
  s ← get_self;
  sort_buckets (PyDict.keys (type_index s)).

(** [__init__], lines 43-58, over the database file found at
    [base_path]. *)
Definition __init__ (w : World) (db : StorageManager.t)
    : MemorySystem Payload * result unit :=
  load_memories w (mk PyDict.empty [] [] PyDict.empty db).

(** An assignment to [source.relationships], where [source] is the
    experience of the memory that [self.semantic_index] holds under
    [source_id]: the index sees the change, the object is shared. *)
Definition update_relationships (source_id : string)
    (f : gmap string (list string) -> gmap string (list string)) : M unit :=
  s ← get_self;
  m ← lift (PyDict.getitem source_id (semantic_index s));
  let source := Memory.experience m in
  let source' := Experience.set_relationships (f (Experience.relationships source)) source in
  modify (set_semantic_index
            (PyDict.set source_id (Memory.set_experience source' m)
               (semantic_index s))).

(** [connect_memories], lines 236-248. *)
Definition connect_memories (w : World) (source_id target_id relationship : string)
    : M unit :=
  s ← get_self;
  source ← lift (Memory.experience <$> PyDict.getitem source_id (semantic_index s));
  target ← lift (Memory.experience <$> PyDict.getitem target_id (semantic_index s));
  update_relationships source_id (fun rels =>
    if decide (is_Some (rels !! relationship)) then rels
    else <[relationship := []]> rels) ;;
  update_relationships source_id (fun rels =>
    let targets := default [] (rels !! relationship) in
    if list_contains target_id targets then rels
    else <[relationship := targets ++ [target_id]]> rels) ;;
  (* Update storage *)
  s ← get_self;
  m ← lift (PyDict.getitem source_id (semantic_index s));
  with_storage (store_memory (sqlite_ok w 0) m).

(** A sequence of [record_experience] calls, each of which returns. *)
Definition record_call (c : Call Payload) : M (Experience Payload) :=
  record_experience (Call.world c) (Call.type c) (Call.content c)
    (Call.metadata c) (Call.tags c) (Call.importance c) (Call.context c).

Fixpoint record_calls (cs : list (Call Payload)) : M (list (Experience Payload)) :=
  match cs with
  | [] => mret []
  | c :: rest =>
      e ← record_call c;
      es ← record_calls rest;
      mret (e :: es)
  end.

(** The system that [__init__] builds over an empty database. *)
Definition fresh : MemorySystem Payload :=
  mk PyDict.empty [] [] PyDict.empty (StorageManager.mk []).

End Core.

(** ** A codec for the examples

    Any pair of functions with the contract [JsonRoundTrip] can stand for
    [json.dumps] and [json.loads]. The examples run with this one: the
    text of a value is its code as a countable value, written in binary. *)

Module Codec.
Fixpoint bits (p : positive) : string :=
  match p with
  | xH => EmptyString
  | xO p' => String "0"%char (bits p')
  | xI p' => String "1"%char (bits p')
  end.

Fixpoint of_bits (s : string) : option positive :=
  match s with
  | EmptyString => Some xH
  | String c s' =>
      if decide (c = "0"%char) then xO <$> of_bits s'
      else if decide (c = "1"%char) then xI <$> of_bits s'
      else None
  end.

Definition dumps `{Countable A} (a : A) : string := bits (encode a).

Definition loads `{Countable A} (s : string) : result A :=
  match of_bits s ≫= decode with
  | Some a => Ok a
  | None => Raise JSONDecodeError
  end.

Definition float_to_sum (x : float) : bool + bool + unit + bool * positive * Z :=
  match x with
  | S754_zero s => inl (inl (inl s))
  | S754_infinity s => inl (inl (inr s))
  | S754_nan => inl (inr ())
  | S754_finite s m e => inr (s, m, e)
  end.

Definition float_of_sum (x : bool + bool + unit + bool * positive * Z) : float :=
  match x with
  | inl (inl (inl s)) => S754_zero s
  | inl (inl (inr s)) => S754_infinity s
  | inl (inr _) => S754_nan
  | inr (s, m, e) => S754_finite s m e
  end.

#[global] Instance float_eq_dec : EqDecision float.
Proof. unfold float, Float.float. solve_decision. Defined.

#[global] Instance float_countable : Countable float.
Proof.
  refine (inj_countable' float_to_sum float_of_sum _).
  intros []; reflexivity.
Defined.

#[global] Instance json `{Countable A} : Json A | 100 :=
  {| json_dumps := dumps; json_loads := loads |}.
End Codec.

(** ** The data of the examples *)

Module Example.
Import MemorySystem.

(** A content is a dict of strings. *)
Definition Payload : Type := gmap string string.

Definition f (x : PrimFloat.float) : float := Float.of_prim x.

(** A world in which the database works and the provider replies with
    the given vector. *)
Definition world (id : string) (t : string) (v : list float) : World :=
  {| uuid4 := id; now := fun _ => t; embedding_reply := Ok v;
     sqlite_ok := fun _ => true |}.

(** The same world with a database that cannot be written. *)
Definition broken (id : string) (t : string) (v : list float) : World :=
  {| uuid4 := id; now := fun _ => t; embedding_reply := Ok v;
     sqlite_ok := fun _ => false |}.

Definition empty_system : MemorySystem Payload := fresh.

(** Two recorded experiences, [a] and then [b]. *)
Definition call_a : Call Payload :=
  Call.mk (world "a" "2024-01-01T10:00:00" [f 1; f 0]) "perception" ∅
    None None (f 1) None.
Definition call_b : Call Payload :=
  Call.mk (world "b" "2024-01-01T11:00:00" [f 0; f 1]) "action" ∅
    None (Some ["t"]) (f 2) None.

Definition two_memories : MemorySystem Payload :=
  Eval vm_compute in (record_calls [call_a; call_b] empty_system).1.

(** The outcome of recording [a] into the empty system while the
    database cannot be written. *)
Definition after_failure : MemorySystem Payload :=
  Eval vm_compute in
    (record_experience (broken "a" "2024-01-01T10:00:00" [f 1; f 0])
       "perception" ∅ None None (f 1) None empty_system).1.

(** The outcome of recording under the id [a] a second time. *)
Definition after_collision : MemorySystem Payload :=
  Eval vm_compute in
    (record_experience (world "a" "2024-01-01T12:00:00" [f 1; f 1])
       "thought" ∅ None None (f 3) None two_memories).1.

(** [a] connected to [b] under the name [caused]. *)
Definition connected_once : MemorySystem Payload :=
  Eval vm_compute in
    (connect_memories (world "" "2024-01-01T12:00:00" []) "a" "b" "caused"
       two_memories).1.

(** An experience whose type is the empty string, and then one of the
    type [x]. *)
Definition call_e : Call Payload :=
  Call.mk (world "e" "2024-01-01T10:00:00" [f 1; f 0]) "" ∅
    None None (f 1) None.
Definition call_x : Call Payload :=
  Call.mk (world "x" "2024-01-01T11:00:00" [f 0; f 1]) "x" ∅
    None None (f 1) None.

Definition untyped : MemorySystem Payload :=
  Eval vm_compute in (record_calls [call_e; call_x] empty_system).1.

(** Two experiences of one timestamp, [p] and [q], written to a database
    in the one order and in the other. *)
Definition call_p : Call Payload :=
  Call.mk (world "p" "2024-03-01T08:00:00" [f 1; f 0]) "action" ∅
    None None (f 1) None.
Definition call_q : Call Payload :=
  Call.mk (world "q" "2024-03-01T08:00:00" [f 0; f 1]) "action" ∅
    None None (f 1) None.

Definition database_p_q : StorageManager.t :=
  Eval vm_compute in storage (record_calls [call_p; call_q] empty_system).1.
Definition database_q_p : StorageManager.t :=
  Eval vm_compute in storage (record_calls [call_q; call_p] empty_system).1.

Definition loaded_p_q : list (Memory Payload) :=
  Eval vm_compute in
    match load_all_memories true database_p_q with
    | Ok memories => memories
    | Raise _ => []
    end.

(** The memory [a] after the connection, and what the database of
    [connected_once] loads as. *)
Definition nothing : Memory Payload :=
  Memory.mk (Experience.mk "" "" "" ∅ ∅ [] Float.zero ∅ ∅) [] "" 0
    Float.zero Float.zero.

Definition source_memory : Memory Payload :=
  Eval vm_compute in
    default nothing (PyDict.get "a" (semantic_index connected_once)).

Definition reloaded : list (Memory Payload) :=
  Eval vm_compute in
    match load_all_memories true (storage connected_once) with
    | Ok memories => memories
    | Raise _ => []
    end.
End Example.


(** ** Notions that the statements use *)

(** The number of times [x] occurs in [l]. *)
Definition occurrences (x : string) (l : list string) : nat :=
  length (filter (fun y => y = x) l).

(** [a] stands somewhere before [b] in [l]: [a], [b] is a subsequence of
    [l]. *)
Definition before {A} (a b : A) (l : list A) : Prop := [a; b] `sublist_of` l.

(** What [connect_memories] makes of the relationships of the source. *)
Definition linked (target_id relationship : string)
    (rels : gmap string (list string)) : gmap string (list string) :=
  let targets := default [] (rels !! relationship) in
  if list_contains target_id targets then <[relationship := targets]> rels
  else <[relationship := targets ++ [target_id]]> rels.

(** The memory [m] with other relationships. *)
Definition relinked {Payload} (rels : gmap string (list string))
    (m : Memory Payload) : Memory Payload :=
  Memory.set_experience
    (Experience.set_relationships rels (Memory.experience m)) m.

(** The ids of the temporal index, of the importance index and of the
    type buckets are keys of the semantic map. *)
Definition consistent {Payload} (s : MemorySystem Payload) : Prop :=
  (forall mid, mid ∈ MemorySystem.temporal_index s ->
     mid ∈ PyDict.keys (MemorySystem.semantic_index s))
  /\ (forall mid, mid ∈ MemorySystem.importance_index s ->
        mid ∈ PyDict.keys (MemorySystem.semantic_index s))
  /\ (forall t bucket mid,
        PyDict.get t (MemorySystem.type_index s) = Some bucket ->
        mid ∈ bucket -> mid ∈ PyDict.keys (MemorySystem.semantic_index s)).

(** The importance of the memory that the semantic map holds under an
    id. *)
Definition importance_of {Payload} (sem : PyDict.t (Memory Payload))
    (mid : string) : option float :=
  (fun m => Experience.importance (Memory.experience m)) <$> PyDict.get mid sem.

Section CallNotions.
Context {Payload : Type} `{Empty Payload}.

(** The id, the experience and the memory that a call of
    [record_experience] makes. *)
Definition call_id (c : Call Payload) : string := uuid4 (Call.world c).

Definition experience_of (c : Call Payload) : Experience Payload :=
  new_experience (Call.world c) (Call.type c) (Call.content c)
    (Call.metadata c) (Call.tags c) (Call.importance c) (Call.context c).

Definition memory_of (c : Call Payload) : Memory Payload :=
  new_memory (Call.world c) (experience_of c)
    (match embedding_reply (Call.world c) with Ok v => v | Raise _ => [] end).

Definition entry (c : Call Payload) : string * Memory Payload :=
  (call_id c, memory_of c).

(** The ids of the calls of a type, the latest first. *)
Definition bucket_of (t : string) (done : list (Call Payload)) : list string :=
  reverse (call_id <$> filter (fun c => Call.type c = t) done).

(** The state that the calls [done], made in that order, leave, with the
    calls in the order [order] in the importance index. *)
Definition recorded (done order : list (Call Payload))
    (s : MemorySystem Payload) : Prop :=
  MemorySystem.semantic_index s = entry <$> done
  /\ MemorySystem.temporal_index s = reverse (call_id <$> done)
  /\ MemorySystem.importance_index s = call_id <$> order
  /\ order ≡ₚ done
  /\ (forall t,
        PyDict.get t (MemorySystem.type_index s)
        = if decide (filter (fun c => Call.type c = t) done = []) then None
          else Some (bucket_of t done)).

(** [order] holds the calls [done] by importance, the greatest first,
    and calls of equal importance in the order in which they were made. *)
Definition by_importance (done order : list (Call Payload)) : Prop :=
  StronglySorted
    (fun c1 c2 => Float.leb (Call.importance c2) (Call.importance c1) = true)
    order
  /\ (forall v,
        filter (fun c => Float.eqb (Call.importance c) v = true) order
        = filter (fun c => Float.eqb (Call.importance c) v = true) done).

(** An experience passes the type filter of [recall_recent]. *)
Definition has_type (type : option string) (e : Experience Payload) : Prop :=
  match type with
  | Some t => Experience.type e = t
  | None => True
  end.

#[global] Instance has_type_dec type e : Decision (has_type type e).
Proof. destruct type; simpl; apply _. Defined.

Definition timestamp_of (m : Memory Payload) : string :=
  Experience.timestamp (Memory.experience m).

Definition importance_of_memory (m : Memory Payload) : float :=
  Experience.importance (Memory.experience m).
End CallNotions.

(** What the database gives back for a memory it was given: the memory
    itself, but for the sign of a zero in a REAL column. *)
Definition as_stored {Payload} (m : Memory Payload) : Memory Payload :=
  let e := Memory.experience m in
  Memory.mk
    (Experience.mk (Experience.id e) (Experience.timestamp e)
       (Experience.type e) (Experience.content e) (Experience.metadata e)
       (Experience.tags e) (real_cell (Experience.importance e))
       (Experience.context e) (Experience.relationships e))
    (Memory.embedding m) (Memory.last_accessed m) (Memory.access_count m)
    (real_cell (Memory.emotional_valence m)) (real_cell (Memory.confidence m)).

(** Two memories are equal field for field: the floats of the three REAL
    columns by the [==] of Python, every other field, the embedding
    among them, by identity. *)
Definition fields_equal {Payload} (m1 m2 : Memory Payload) : Prop :=
  let e1 := Memory.experience m1 in
  let e2 := Memory.experience m2 in
  Experience.id e1 = Experience.id e2
  /\ Experience.timestamp e1 = Experience.timestamp e2
  /\ Experience.type e1 = Experience.type e2
  /\ Experience.content e1 = Experience.content e2
  /\ Experience.metadata e1 = Experience.metadata e2
  /\ Experience.tags e1 = Experience.tags e2
  /\ Float.eqb (Experience.importance e1) (Experience.importance e2) = true
  /\ Experience.context e1 = Experience.context e2
  /\ Experience.relationships e1 = Experience.relationships e2
  /\ Memory.embedding m1 = Memory.embedding m2
  /\ Memory.last_accessed m1 = Memory.last_accessed m2
  /\ Memory.access_count m1 = Memory.access_count m2
  /\ Float.eqb (Memory.emotional_valence m1) (Memory.emotional_valence m2) = true
  /\ Float.eqb (Memory.confidence m1) (Memory.confidence m2) = true.

Section LoadNotions.
Context {Payload : Type}.

Definition memory_id (m : Memory Payload) : string :=
  Experience.id (Memory.experience m).

Definition memory_type (m : Memory Payload) : string :=
  Experience.type (Memory.experience m).

(** The memories in the order in which [load_memories] sorts them: a
    stable sort by timestamp, the latest first. *)
Definition by_timestamp (memories : list (Memory Payload))
    : list (Memory Payload) :=
  snd <$> sort_reverse String.ltb ((fun m => (timestamp_of m, m)) <$> memories).

(** The state in which the loop "Rebuild indices" is after the memories
    [done]. *)
Definition rebuilt (done : list (Memory Payload))
    (s : MemorySystem Payload) : Prop :=
  MemorySystem.semantic_index s = (fun m => (memory_id m, m)) <$> done
  /\ MemorySystem.temporal_index s = memory_id <$> done
  /\ MemorySystem.importance_index s ≡ₚ memory_id <$> done
  /\ NoDup (PyDict.keys (MemorySystem.type_index s))
  /\ (forall t,
        PyDict.get t (MemorySystem.type_index s)
        = if decide (filter (fun m => memory_type m = t) done = []) then None
          else Some (memory_id <$> filter (fun m => memory_type m = t) done)).

(** The type buckets while the loop that sorts them has done the types
    [sorted]. *)
Definition buckets_sorted (sorted : list string) (done : list (Memory Payload))
    (s : MemorySystem Payload) : Prop :=
  forall t,
    PyDict.get t (MemorySystem.type_index s)
    = if decide (filter (fun m => memory_type m = t) done = []) then None
      else Some (memory_id
                   <$> (if decide (t ∈ sorted)
                        then by_timestamp (filter (fun m => memory_type m = t) done)
                        else filter (fun m => memory_type m = t) done)).
End LoadNotions.

(** ** Reflection ([core.py], lines 250-289) *)

Module Analysis.
(** The dict that the [except] branch of [reflect] returns, lines
    284-289; the three lists are empty there. *)
Record no_reflection {Payload : Type} : Type := mk_no_reflection {
  reflection_error : string;
  patterns : list Payload;
  insights : list Payload;
  actions : list Payload
}.
Arguments no_reflection : clear implicits.
Arguments mk_no_reflection {Payload}.
End Analysis.

Section Analyze.
Context {Payload : Type} `{Empty Payload}.
Context `{!Json Payload, !Json (list string),
          !Json (gmap string (list string)), !Json (list float)}.

#[local] Existing Instance M_ret.
#[local] Existing Instance M_bind.

(** [reflect], lines 250-289: the recent memories are recalled before
    the [try] block. [reply] is what the [try] block came to: the parsed
    reflection, or the text [str(e)] of the exception that it raised. *)
Definition reflect (w : World) (reply : string + Payload)
    : M (Payload := Payload) (Payload + Analysis.no_reflection Payload) :=
  recent_memories ← recall_recent w 10 None;
  mret (match reply with
        | inr reflection => inl reflection
        | inl e => inr (Analysis.mk_no_reflection e [] [] [])
        end).
End Analyze.

(** ** Further notions *)

(** A memory as the database holds it after one more access at [now]. *)
Definition accessed {Payload} (now : string) (m : Memory Payload)
    : Memory Payload :=
  Memory.mk (Memory.experience m) (Memory.embedding m) now
    (Memory.access_count m + 1) (Memory.emotional_valence m)
    (Memory.confidence m).

(** Two rows differ in [last_accessed] and [access_count] at most. *)
Definition same_but_access (r r' : Row.t) : Prop :=
  Row.id r' = Row.id r
  /\ Row.timestamp r' = Row.timestamp r
  /\ Row.type r' = Row.type r
  /\ Row.content r' = Row.content r
  /\ Row.metadata r' = Row.metadata r
  /\ Row.tags r' = Row.tags r
  /\ Row.importance r' = Row.importance r
  /\ Row.context r' = Row.context r
  /\ Row.relationships r' = Row.relationships r
  /\ Row.embedding r' = Row.embedding r
  /\ Row.emotional_valence r' = Row.emotional_valence r
  /\ Row.confidence r' = Row.confidence r.

(** What the loop "Update access stats" over the ids [ids] makes of a
    row: one more access for every occurrence of its id, and nothing
    else but the time of the last access. *)
Definition access_recorded (ids : list string) (r r' : Row.t) : Prop :=
  same_but_access r r'
  /\ Row.access_count r' = Row.access_count r + Z.of_nat (occurrences (Row.id r) ids)
  /\ (Row.id r ∉ ids -> r' = r).

(** [m1] is no more similar to the query than [m2]: both similarities
    are computed, and the one of [m1] is [<=] the one of [m2]. *)
Definition no_more_similar {Payload} (query_embedding : list float)
    (m1 m2 : Memory Payload) : Prop :=
  match Embeddings.calculate_similarity query_embedding (Memory.embedding m1),
        Embeddings.calculate_similarity query_embedding (Memory.embedding m2)
  with
  | Ok x1, Ok x2 => Float.leb x1 x2 = true
  | _, _ => False
  end.

(** ** Further data for the examples *)

Module Sample.
Import MemorySystem.

(** A row whose [content] cell is not the text of a value. *)
Definition malformed_row : Row.t :=
  Row.mk "m" "2024-02-01T08:00:00" "thought" "{" "" "" Float.one "" "" ""
    "2024-02-01T08:00:00" 0 Float.zero Float.one.

(** A system whose database holds a malformed row besides the rows of
    [p] and [q]. *)
Definition over_malformed : MemorySystem Example.Payload :=
  set_storage
    (StorageManager.mk
       (StorageManager.memories Example.database_p_q ++ [malformed_row]))
    Example.two_memories.

(** A world whose database works once and then fails. *)
Definition flaky (t : string) : World :=
  {| uuid4 := ""; now := fun _ => t; embedding_reply := Ok [];
     sqlite_ok := fun n => Nat.eqb n 0 |}.

(** A world in which the provider has failed and the fallback runs in a
    process in which every hash is [-1]. *)
Definition no_embedding : World :=
  {| uuid4 := "n"; now := fun _ => "2024-01-03T09:00:00";
     embedding_reply :=
       Embeddings.get_embedding (fun secret _ => secret)
         (fun _ n => replicate n Float.zero) (-1) None "text";
     sqlite_ok := fun _ => true |}.

(** The memory [p] as the database of the examples holds it. *)
Definition memory_p : Memory Example.Payload :=
  Eval vm_compute in default Example.nothing (head Example.loaded_p_q).
End Sample.

(** * Properties *)

(** ** Dicts *)

Section PyDictFacts.
Context {V : Type}.
Implicit Types (d : PyDict.t V) (k : string) (v : V).

Lemma get_set_eq k v d : PyDict.get k (PyDict.set k v d) = Some v.
Proof.
  induction d as [|[k' v'] d IH]; simpl.
  - by rewrite decide_True.
  - destruct (decide (k = k')) as [->|Hne]; simpl.
    + by rewrite decide_True.
    + by rewrite decide_False.
Qed.

Lemma get_set_ne k k' v d :
  k <> k' -> PyDict.get k' (PyDict.set k v d) = PyDict.get k' d.
Proof.
  intros Hne. induction d as [|[k0 v0] d IH]; simpl.
  - by rewrite decide_False.
  - destruct (decide (k = k0)) as [->|Hne0]; simpl.
    + by rewrite !decide_False.
    + by rewrite IH.
Qed.

Lemma get_set k k' v d :
  PyDict.get k' (PyDict.set k v d)
  = if decide (k' = k) then Some v else PyDict.get k' d.
Proof.
  destruct (decide (k' = k)) as [->|Hne].
  - apply get_set_eq.
  - by apply get_set_ne.
Qed.

Lemma set_same k v d : PyDict.get k d = Some v -> PyDict.set k v d = d.
Proof.
  induction d as [|[k' v'] d IH]; simpl; [done|].
  destruct (decide (k = k')) as [->|Hne]; [by intros [= ->]|].
  intros Hd. by rewrite IH.
Qed.

Lemma set_set k v1 v2 d :
  PyDict.set k v2 (PyDict.set k v1 d) = PyDict.set k v2 d.
Proof.
  induction d as [|[k' v'] d IH]; simpl.
  - by rewrite decide_True.
  - destruct (decide (k = k')) as [->|Hne]; simpl.
    + by rewrite decide_True.
    + by rewrite decide_False, IH.
Qed.

Lemma get_None_keys k d : PyDict.get k d = None <-> k ∉ PyDict.keys d.
Proof.
  unfold PyDict.keys. induction d as [|[k' v'] d IH]; simpl.
  - split; [intros _; apply not_elem_of_nil | done].
  - rewrite not_elem_of_cons. destruct (decide (k = k')) as [->|Hne].
    + split; [done | by intros [? _]].
    + rewrite IH. tauto.
Qed.

Lemma get_Some_keys k d : is_Some (PyDict.get k d) <-> k ∈ PyDict.keys d.
Proof.
  destruct (PyDict.get k d) as [v|] eqn:E.
  - split; [intros _ | by eauto].
    destruct (decide (k ∈ PyDict.keys d)) as [|Hn]; [done|].
    apply get_None_keys in Hn. congruence.
  - split; [by intros [? ?] | intros Hin].
    apply get_None_keys in E. done.
Qed.

Lemma keys_set_present k v d :
  is_Some (PyDict.get k d) -> PyDict.keys (PyDict.set k v d) = PyDict.keys d.
Proof.
  unfold PyDict.keys. induction d as [|[k' v'] d IH]; simpl.
  - by intros [? ?].
  - destruct (decide (k = k')) as [->|Hne]; simpl; [done|].
    intros Hd. f_equal. by apply IH.
Qed.

Lemma set_fresh k v d : PyDict.get k d = None -> PyDict.set k v d = d ++ [(k, v)].
Proof.
  induction d as [|[k' v'] d IH]; simpl; [done|].
  destruct (decide (k = k')) as [->|Hne]; [done|].
  intros Hd. by rewrite IH.
Qed.

End PyDictFacts.

(** ** Relationship links: [connect_memories] *)

Section Connect.
Context {Payload : Type} `{Empty Payload}.
Context `{!Json Payload, !Json (list string),
          !Json (gmap string (list string)), !Json (list float)}.
Import MemorySystem.
Implicit Types (s : MemorySystem Payload) (m : Memory Payload).

Lemma relinked_relinked r1 r2 m : relinked r2 (relinked r1 m) = relinked r2 m.
Proof. by destruct m as [[] ?]. Qed.

Lemma relinked_relationships r m :
  Experience.relationships (Memory.experience (relinked r m)) = r.
Proof. done. Qed.

(** [connect_memories] in one step: both ids are looked up, the source is
    relinked in the index, and then written to the database. *)
Lemma connect_memories_run w source_id target_id relationship s m mt :
  PyDict.get source_id (semantic_index s) = Some m ->
  PyDict.get target_id (semantic_index s) = Some mt ->
  let m' := relinked (linked target_id relationship
                        (Experience.relationships (Memory.experience m))) m in
  let s1 := set_semantic_index (PyDict.set source_id m' (semantic_index s)) s in
  connect_memories w source_id target_id relationship s
  = match store_memory (sqlite_ok w 0) m' (storage s) with
    | Ok db => (set_storage db s1, Ok ())
    | Raise e => (s1, Raise e)
    end.
Proof.
  intros Hm Hmt m' s1.
  unfold connect_memories, update_relationships.
  unfold mbind, M_bind, get_self, lift, modify, with_storage, PyDict.getitem; simpl.
  rewrite Hm, Hmt; simpl.
  rewrite get_set_eq; simpl. rewrite set_set, get_set_eq.
  match goal with
  | |- context [store_memory _ ?x _] => assert (Hx : x = m'); [|by rewrite Hx]
  end.
  etransitivity; [exact (relinked_relinked _ _ m)|].
  subst m'. f_equal. cbn. unfold linked.
  set (rels := Experience.relationships (Memory.experience m)).
  destruct (rels !! relationship) as [l|] eqn:Hl; simpl.
  - rewrite Hl; simpl.
    destruct (list_contains target_id l); [|done].
    by rewrite insert_id.
  - rewrite lookup_insert_eq; simpl.
    by rewrite insert_insert_eq.
Qed.

(** A call that is missing one of the ids raises [KeyError] and changes
    nothing. *)
Lemma connect_memories_missing w source_id target_id relationship s :
  PyDict.get source_id (semantic_index s) = None
  \/ PyDict.get target_id (semantic_index s) = None ->
  exists k, connect_memories w source_id target_id relationship s
            = (s, Raise (KeyError k)).
Proof.
  unfold connect_memories.
  unfold mbind, M_bind, get_self, lift, PyDict.getitem; simpl.
  destruct (PyDict.get source_id (semantic_index s)) eqn:Hs; simpl.
  - intros [?|Ht]; [done|]. rewrite Ht; simpl. eauto.
  - intros _. eauto.
Qed.

Lemma semantic_index_connect w source_id target_id relationship s m mt :
  PyDict.get source_id (semantic_index s) = Some m ->
  PyDict.get target_id (semantic_index s) = Some mt ->
  semantic_index (connect_memories w source_id target_id relationship s).1
  = PyDict.set source_id
      (relinked (linked target_id relationship
                   (Experience.relationships (Memory.experience m))) m)
      (semantic_index s).
Proof.
  intros Hm Hmt. rewrite (connect_memories_run _ _ _ _ _ _ _ Hm Hmt).
  by destruct (store_memory _ _ _).
Qed.

Lemma occurrences_app x l1 l2 :
  occurrences x (l1 ++ l2) = (occurrences x l1 + occurrences x l2)%nat.
Proof. unfold occurrences. by rewrite filter_app, length_app. Qed.

Lemma occurrences_not_in x l : x ∉ l -> occurrences x l = 0%nat.
Proof.
  unfold occurrences. induction l as [|y l IH]; [done|].
  rewrite not_elem_of_cons. intros [Hne Hl].
  rewrite filter_cons_False by congruence. auto.
Qed.

Lemma occurrences_in x l : x ∈ l -> (1 <= occurrences x l)%nat.
Proof.
  unfold occurrences. induction l as [|y l IH]; [by intros ?%elem_of_nil|].
  destruct (decide (y = x)) as [->|Hne].
  - intros _. rewrite filter_cons_True by done. simpl. lia.
  - rewrite filter_cons_False by done. intros [?|?]%elem_of_cons; [congruence|auto].
Qed.

Lemma linked_lookup target_id relationship rels :
  exists targets,
    linked target_id relationship rels !! relationship = Some targets
    /\ target_id ∈ targets
    /\ (occurrences target_id targets
        = Nat.max 1 (occurrences target_id (default [] (rels !! relationship)))).
Proof.
  unfold linked, list_contains.
  set (targets := default [] (rels !! relationship)).
  destruct (decide (target_id ∈ targets)) as [Hin|Hout].
  - rewrite bool_decide_eq_true_2 by done. exists targets.
    rewrite lookup_insert_eq. split_and!; [done..|].
    apply occurrences_in in Hin. lia.
  - rewrite bool_decide_eq_false_2 by done. exists (targets ++ [target_id]).
    rewrite lookup_insert_eq. split_and!; [done|set_solver|].
    rewrite occurrences_app, (occurrences_not_in _ _ Hout).
    unfold occurrences. rewrite filter_cons_True by done. done.
Qed.

Lemma linked_linked target_id relationship rels :
  linked target_id relationship (linked target_id relationship rels)
  = linked target_id relationship rels.
Proof.
  destruct (linked_lookup target_id relationship rels) as (targets & Hl & Hin & _).
  unfold linked at 1. rewrite Hl; simpl.
  unfold list_contains. rewrite bool_decide_eq_true_2 by done.
  by apply insert_id.
Qed.

(** C10. Frame property of [connect_memories]: a call that returns leaves
    the temporal index, the importance index, the type buckets and the
    keys of the semantic map as they were, and every memory other than
    the source as it was; the source memory differs from what it was in
    its relationships only. *)
Theorem connect_memories_frame w source_id target_id relationship s s' :
  connect_memories w source_id target_id relationship s = (s', Ok ()) ->
  temporal_index s' = temporal_index s
  /\ importance_index s' = importance_index s
  /\ type_index s' = type_index s
  /\ PyDict.keys (semantic_index s') = PyDict.keys (semantic_index s)
  /\ (forall mid, mid <> source_id ->
        PyDict.get mid (semantic_index s') = PyDict.get mid (semantic_index s))
  /\ exists m,
       PyDict.get source_id (semantic_index s) = Some m
       /\ PyDict.get source_id (semantic_index s')
          = Some (relinked (linked target_id relationship
                              (Experience.relationships (Memory.experience m))) m).
Proof.
  intros Hrun.
  destruct (PyDict.get source_id (semantic_index s)) as [m|] eqn:Hm; cycle 1.
  { destruct (connect_memories_missing w source_id target_id relationship s)
      as [k Hk]; [by left|]. congruence. }
  destruct (PyDict.get target_id (semantic_index s)) as [mt|] eqn:Hmt; cycle 1.
  { destruct (connect_memories_missing w source_id target_id relationship s)
      as [k Hk]; [by right|]. congruence. }
  rewrite (connect_memories_run _ _ _ _ _ _ _ Hm Hmt) in Hrun.
  destruct (store_memory _ _ _) as [db|e]; [|done].
  injection Hrun as <-. simpl. split_and!; try done.
  - apply keys_set_present. eauto.
  - intros mid Hne. by apply get_set_ne.
  - exists m. by rewrite get_set_eq.
Qed.

(** C9. [connect_memories] is idempotent: after two calls with the same
    source [a], target [b] and relationship name, on a source in which
    [b] occurs at most once under that name, [b] occurs exactly once
    under that name, and the second call leaves the semantic map as the
    first call left it. *)
Theorem connect_memories_twice w1 w2 a b relationship s ma mb :
  PyDict.get a (semantic_index s) = Some ma ->
  PyDict.get b (semantic_index s) = Some mb ->
  (occurrences b
     (default [] (Experience.relationships (Memory.experience ma) !! relationship))
   <= 1)%nat ->
  let s1 := (connect_memories w1 a b relationship s).1 in
  let s2 := (connect_memories w2 a b relationship s1).1 in
  semantic_index s2 = semantic_index s1
  /\ exists m2 targets,
       PyDict.get a (semantic_index s2) = Some m2
       /\ Experience.relationships (Memory.experience m2) !! relationship
          = Some targets
       /\ occurrences b targets = 1%nat.
Proof.
  intros Ha Hb Hocc s1 s2.
  set (rels := Experience.relationships (Memory.experience ma)) in *.
  set (m1 := relinked (linked b relationship rels) ma).
  assert (Hs1 : semantic_index s1 = PyDict.set a m1 (semantic_index s)).
  { subst s1. by rewrite (semantic_index_connect _ _ _ _ _ _ _ Ha Hb). }
  assert (Ha1 : PyDict.get a (semantic_index s1) = Some m1).
  { by rewrite Hs1, get_set_eq. }
  assert (Hb1 : is_Some (PyDict.get b (semantic_index s1))).
  { rewrite Hs1, get_set. case_decide; eauto. }
  destruct Hb1 as [mb1 Hb1].
  assert (Hs2 : semantic_index s2 = semantic_index s1).
  { subst s2. rewrite (semantic_index_connect _ _ _ _ _ _ _ Ha1 Hb1).
    subst m1. rewrite relinked_relationships, linked_linked, relinked_relinked.
    by apply set_same. }
  split; [done|].
  destruct (linked_lookup b relationship rels) as (targets & Hl & _ & Hn).
  exists m1, targets. rewrite Hs2. split_and!; [done|done|]. fold rels in Hn. lia.
Qed.
End Connect.

(** The frame property on the two recorded experiences of the examples. *)
Lemma connect_memories_frame_witness :
  connect_memories (Example.world "" "2024-01-01T12:00:00" []) "a" "b" "caused"
    Example.two_memories = (Example.connected_once, Ok ())
  /\ MemorySystem.temporal_index Example.connected_once = ["b"; "a"]
  /\ MemorySystem.importance_index Example.connected_once = ["b"; "a"].
Proof.
  assert (Hrun : connect_memories (Example.world "" "2024-01-01T12:00:00" [])
                   "a" "b" "caused" Example.two_memories
                 = (Example.connected_once, Ok ())) by (vm_compute; reflexivity).
  split; [exact Hrun|].
  destruct (connect_memories_frame _ _ _ _ _ _ Hrun) as (Ht & Hi & _).
  rewrite Ht, Hi. split; reflexivity.
Defined.

(** Connecting [a] to [b] twice on the two recorded experiences. *)
Lemma connect_memories_twice_witness :
  exists m2,
    PyDict.get "a"
      (MemorySystem.semantic_index
         (connect_memories (Example.world "" "2024-01-01T13:00:00" []) "a" "b"
            "caused" Example.connected_once).1) = Some m2
    /\ Experience.relationships (Memory.experience m2) !! "caused" = Some ["b"].
Proof.
  destruct (connect_memories_twice
              (Example.world "" "2024-01-01T12:00:00" [])
              (Example.world "" "2024-01-01T13:00:00" [])
              "a" "b" "caused" Example.two_memories
              (default (Memory.mk (Experience.mk "" "" "" ∅ ∅ [] Float.zero ∅ ∅)
                          [] "" 0 Float.zero Float.zero)
                 (PyDict.get "a" (MemorySystem.semantic_index Example.two_memories)))
              (default (Memory.mk (Experience.mk "" "" "" ∅ ∅ [] Float.zero ∅ ∅)
                          [] "" 0 Float.zero Float.zero)
                 (PyDict.get "b" (MemorySystem.semantic_index Example.two_memories))))
    as (_ & m2 & targets & Hget & Hrel & Hocc).
  - reflexivity.
  - reflexivity.
  - vm_compute. lia.
  - exists m2. split; [exact Hget|].
    vm_compute in Hget. injection Hget as <-. reflexivity.
Defined.

(** ** Recording: [record_experience] *)

Section Record.
Context {Payload : Type} `{Empty Payload}.
Context `{!Json Payload, !Json (list string),
          !Json (gmap string (list string)), !Json (list float)}.
Import MemorySystem.
Implicit Types (s : MemorySystem Payload) (m : Memory Payload).
Implicit Types (sem : PyDict.t (Memory Payload)).

(** The scan of the importance index returns when every id it meets is
    a key of the semantic map. *)
Lemma insert_before_less_ok sem importance memory_id index :
  (forall mid, mid ∈ index -> mid ∈ PyDict.keys sem) ->
  exists index', insert_before_less sem importance memory_id index = Ok index'.
Proof.
  induction index as [|mid rest IH]; intros Hkeys; simpl; [by eauto|].
  destruct (proj2 (get_Some_keys mid sem)) as [m Hm]; [apply Hkeys; by left|].
  unfold PyDict.getitem. rewrite Hm; simpl.
  destruct (Float.gtb _ _); [by eauto|].
  destruct IH as [index' ->]; [intros; apply Hkeys; by right|]. simpl. eauto.
Qed.

(** Where the scan puts the new id: before the first id whose importance
    is strictly less, after all the ids before that one. *)
Lemma insert_before_less_spec sem importance memory_id index index' :
  insert_before_less sem importance memory_id index = Ok index' ->
  exists l1 l2,
    index = l1 ++ l2 /\ index' = l1 ++ memory_id :: l2
    /\ (forall mid, mid ∈ l1 ->
          exists i, importance_of sem mid = Some i /\ Float.gtb importance i = false)
    /\ (forall mid, head l2 = Some mid ->
          exists i, importance_of sem mid = Some i /\ Float.gtb importance i = true).
Proof.
  revert index'. induction index as [|mid rest IH]; intros index'; simpl.
  - intros [= <-]. exists [], []. split_and!; [done|done|by intros ? ?%elem_of_nil|done].
  - unfold PyDict.getitem.
    destruct (PyDict.get mid sem) as [m|] eqn:Hm; simpl; [|done].
    destruct (Float.gtb importance _) eqn:Hgt.
    + intros [= <-]. exists [], (mid :: rest).
      split_and!; [done|done|by intros ? ?%elem_of_nil|].
      intros ? [= <-]. unfold importance_of. rewrite Hm. simpl. eauto.
    + destruct (insert_before_less sem importance memory_id rest) as [idx|]
        eqn:Hrest; simpl; [|done].
      intros [= <-]. destruct (IH _ eq_refl) as (l1 & l2 & -> & -> & H1 & H2).
      exists (mid :: l1), l2. split_and!; [done|done| |done].
      intros mid' [->|Hin]%elem_of_cons; [|by apply H1].
      unfold importance_of. rewrite Hm. simpl. eauto.
Qed.

(** [record_experience] in one step, when the provider gives an embedding
    and the scan of the importance index returns. *)
Lemma record_experience_run w type content metadata tags importance context
    s embedding index' :
  embedding_reply w = Ok embedding ->
  let experience :=
    new_experience w type content metadata tags importance context in
  let memory := new_memory w experience embedding in
  let sem' := PyDict.set (uuid4 w) memory (semantic_index s) in
  insert_before_less sem' importance (uuid4 w) (importance_index s) = Ok index' ->
  let s1 :=
    mk sem' (uuid4 w :: temporal_index s) index'
      (PyDict.set type (uuid4 w :: default [] (PyDict.get type (type_index s)))
         (type_index s))
      (storage s) in
  record_experience w type content metadata tags importance context s
  = match store_memory (sqlite_ok w 0) memory (storage s) with
    | Ok db => (set_storage db s1, Ok experience)
    | Raise e => (s1, Raise e)
    end.
Proof.
  intros Hemb experience memory sem' Hidx s1.
  unfold record_experience, _insert_sorted_by_importance, type_index_prepend.
  unfold mbind, M_bind, mret, M_ret, get_self, lift, modify, with_storage,
    PyDict.getitem; simpl.
  rewrite Hemb; simpl. fold experience. fold memory. fold sem'.
  unfold sem' at 1. rewrite get_set_eq; simpl. rewrite Hidx; simpl.
  unfold PyDict.contains.
  destruct (PyDict.get type (type_index s)) as [bucket|] eqn:Hb; simpl.
  - rewrite Hb. simpl. subst s1. simpl. unfold set_storage; simpl.
    by destruct (store_memory _ _ _).
  - rewrite get_set_eq. simpl. rewrite set_set.
    subst s1. simpl. unfold set_storage; simpl.
    by destruct (store_memory _ _ _).
Qed.

Lemma keys_set_mono {V} k (v : V) (d : PyDict.t V) mid :
  mid ∈ PyDict.keys d -> mid ∈ PyDict.keys (PyDict.set k v d).
Proof.
  rewrite <- !get_Some_keys, get_set. case_decide; eauto.
Qed.

Lemma occurrences_cons x y l :
  occurrences x (y :: l)
  = ((if decide (y = x) then 1 else 0) + occurrences x l)%nat.
Proof.
  unfold occurrences. case_decide.
  - by rewrite filter_cons_True.
  - by rewrite filter_cons_False.
Qed.

(** What [record_experience] does once the provider has given an
    embedding, on a consistent state: the four index structures get the
    new memory, and then the memory is written to the database; the
    outcome of the write is the outcome of the call. *)
Lemma record_experience_indexes w type content metadata tags importance
    context s embedding :
  consistent s ->
  embedding_reply w = Ok embedding ->
  let experience :=
    new_experience w type content metadata tags importance context in
  let memory := new_memory w experience embedding in
  exists s1,
    record_experience w type content metadata tags importance context s
    = match store_memory (sqlite_ok w 0) memory (storage s) with
      | Ok db => (set_storage db s1, Ok experience)
      | Raise e => (s1, Raise e)
      end
    /\ storage s1 = storage s
    /\ semantic_index s1 = PyDict.set (uuid4 w) memory (semantic_index s)
    /\ temporal_index s1 = uuid4 w :: temporal_index s
    /\ (exists l1 l2, importance_index s = l1 ++ l2
                      /\ importance_index s1 = l1 ++ uuid4 w :: l2)
    /\ type_index s1
       = PyDict.set type
           (uuid4 w :: default [] (PyDict.get type (type_index s)))
           (type_index s).
Proof.
  intros (_ & Himp & _) Hemb experience memory.
  destruct (insert_before_less_ok
              (PyDict.set (uuid4 w) memory (semantic_index s))
              importance (uuid4 w) (importance_index s)) as [index' Hidx].
  { intros mid Hin. by apply keys_set_mono, Himp. }
  eexists. split; [exact (record_experience_run _ _ _ _ _ _ _ _ _ _ Hemb Hidx)|].
  simpl. split_and!; try done.
  destruct (insert_before_less_spec _ _ _ _ _ Hidx) as (l1 & l2 & ? & ? & _).
  eauto.
Qed.

(** C1 (as amended). When the write to the database raises, the call of
    [record_experience] raises that exception of the storage layer, and
    the insert into the index is not rolled back: the database is as it
    was, and the new memory is in the semantic map, at the head of the
    temporal index, in the importance index and at the head of the bucket
    of its type. *)
Theorem record_experience_storage_failure w type content metadata tags
    importance context s embedding e :
  consistent s ->
  embedding_reply w = Ok embedding ->
  let experience :=
    new_experience w type content metadata tags importance context in
  let memory := new_memory w experience embedding in
  store_memory (sqlite_ok w 0) memory (storage s) = Raise e ->
  exists s',
    record_experience w type content metadata tags importance context s
    = (s', Raise e)
    /\ storage s' = storage s
    /\ PyDict.get (uuid4 w) (semantic_index s') = Some memory
    /\ temporal_index s' = uuid4 w :: temporal_index s
    /\ occurrences (uuid4 w) (importance_index s')
       = S (occurrences (uuid4 w) (importance_index s))
    /\ PyDict.get type (type_index s')
       = Some (uuid4 w :: default [] (PyDict.get type (type_index s))).
Proof.
  intros Hcons Hemb experience memory Hstore.
  destruct (record_experience_indexes w type content metadata tags importance
              context s embedding Hcons Hemb)
    as (s1 & Hrun & Hdb & Hsem & Htemp & (l1 & l2 & Hi & Hi') & Hty).
  fold experience memory in Hrun, Hsem. rewrite Hstore in Hrun.
  exists s1. split_and!; try done.
  - by rewrite Hsem, get_set_eq.
  - rewrite Hi, Hi', !occurrences_app, occurrences_cons, decide_True by done. lia.
  - by rewrite Hty, get_set_eq.
Qed.

(** C2 (as amended). An insert under an id that the semantic map already
    holds is not rejected: when the database takes the write,
    [record_experience] returns the new experience, the entry of the map
    under that id is replaced (the map keeps its keys), and the temporal
    index, the importance index and the bucket of the type each receive
    one more occurrence of the id. *)
Theorem record_experience_duplicate_id w type content metadata tags
    importance context s embedding old db :
  consistent s ->
  embedding_reply w = Ok embedding ->
  PyDict.get (uuid4 w) (semantic_index s) = Some old ->
  let experience :=
    new_experience w type content metadata tags importance context in
  let memory := new_memory w experience embedding in
  store_memory (sqlite_ok w 0) memory (storage s) = Ok db ->
  exists s',
    record_experience w type content metadata tags importance context s
    = (s', Ok experience)
    /\ PyDict.get (uuid4 w) (semantic_index s') = Some memory
    /\ PyDict.keys (semantic_index s') = PyDict.keys (semantic_index s)
    /\ temporal_index s' = uuid4 w :: temporal_index s
    /\ occurrences (uuid4 w) (importance_index s')
       = S (occurrences (uuid4 w) (importance_index s))
    /\ PyDict.get type (type_index s')
       = Some (uuid4 w :: default [] (PyDict.get type (type_index s))).
Proof.
  intros Hcons Hemb Hold experience memory Hstore.
  destruct (record_experience_indexes w type content metadata tags importance
              context s embedding Hcons Hemb)
    as (s1 & Hrun & Hdb & Hsem & Htemp & (l1 & l2 & Hi & Hi') & Hty).
  fold experience memory in Hrun, Hsem. rewrite Hstore in Hrun.
  exists (set_storage db s1). split_and!; simpl; try done.
  - by rewrite Hsem, get_set_eq.
  - rewrite Hsem. apply keys_set_present. eauto.
  - rewrite Hi, Hi', !occurrences_app, occurrences_cons, decide_True by done. lia.
  - by rewrite Hty, get_set_eq.
Qed.
End Record.

Lemma consistent_fresh {Payload} : consistent (@fresh Payload).
Proof.
  split_and!; simpl.
  - by intros ? ?%elem_of_nil.
  - by intros ? ?%elem_of_nil.
  - done.
Qed.

(** Against C1 as stated: recording into the empty system while the
    database cannot be written raises, and none of the four index
    structures is what it was before the call. *)
Lemma record_experience_not_rolled_back :
  record_experience (Example.broken "a" "2024-01-01T10:00:00"
                       [Example.f 1; Example.f 0])
    "perception" ∅ None None (Example.f 1) None Example.empty_system
  = (Example.after_failure, Raise OperationalError)
  /\ MemorySystem.semantic_index Example.after_failure
     <> MemorySystem.semantic_index Example.empty_system
  /\ MemorySystem.temporal_index Example.after_failure
     <> MemorySystem.temporal_index Example.empty_system
  /\ MemorySystem.importance_index Example.after_failure
     <> MemorySystem.importance_index Example.empty_system
  /\ MemorySystem.type_index Example.after_failure
     <> MemorySystem.type_index Example.empty_system
  /\ MemorySystem.temporal_index Example.after_failure = ["a"]
  /\ StorageManager.memories (MemorySystem.storage Example.after_failure) = [].
Proof. split_and!; by vm_compute. Qed.

(** The amended C1 on the same call. *)
Lemma record_experience_storage_failure_witness :
  exists s',
    record_experience (Example.broken "a" "2024-01-01T10:00:00"
                         [Example.f 1; Example.f 0])
      "perception" ∅ None None (Example.f 1) None Example.empty_system
    = (s', Raise OperationalError)
    /\ MemorySystem.temporal_index s' = ["a"].
Proof.
  destruct (record_experience_storage_failure
              (Example.broken "a" "2024-01-01T10:00:00" [Example.f 1; Example.f 0])
              "perception" ∅ None None (Example.f 1) None Example.empty_system
              [Example.f 1; Example.f 0] OperationalError)
    as (s' & Hrun & _ & _ & Htemp & _).
  - apply consistent_fresh.
  - reflexivity.
  - reflexivity.
  - exists s'. split; [exact Hrun | exact Htemp].
Defined.

(** Against C2 as stated: a second [record_experience] under the id [a]
    returns, overwrites the entry of the semantic map, and leaves the id
    twice in the temporal index and in the importance index. *)
Lemma record_experience_overwrites :
  (record_experience (Example.world "a" "2024-01-01T12:00:00"
                        [Example.f 1; Example.f 1])
     "thought" ∅ None None (Example.f 3) None Example.two_memories).1
  = Example.after_collision
  /\ is_ok (record_experience (Example.world "a" "2024-01-01T12:00:00"
                                [Example.f 1; Example.f 1])
              "thought" ∅ None None (Example.f 3) None Example.two_memories).2
     = true
  /\ PyDict.keys (MemorySystem.semantic_index Example.two_memories) = ["a"; "b"]
  /\ PyDict.keys (MemorySystem.semantic_index Example.after_collision) = ["a"; "b"]
  /\ (Experience.type ∘ Memory.experience)
       <$> PyDict.get "a" (MemorySystem.semantic_index Example.two_memories)
     = Some "perception"
  /\ (Experience.type ∘ Memory.experience)
       <$> PyDict.get "a" (MemorySystem.semantic_index Example.after_collision)
     = Some "thought"
  /\ MemorySystem.temporal_index Example.after_collision = ["a"; "b"; "a"]
  /\ MemorySystem.importance_index Example.after_collision = ["a"; "b"; "a"].
Proof. split_and!; by vm_compute. Qed.

(** The amended C2 on the same call. *)
Lemma record_experience_duplicate_id_witness :
  exists s',
    record_experience (Example.world "a" "2024-01-01T12:00:00"
                         [Example.f 1; Example.f 1])
      "thought" ∅ None None (Example.f 3) None Example.two_memories
    = (s', Ok (new_experience (Example.world "a" "2024-01-01T12:00:00"
                                 [Example.f 1; Example.f 1])
                 "thought" ∅ None None (Example.f 3) None))
    /\ MemorySystem.temporal_index s' = ["a"; "b"; "a"].
Proof.
  destruct (record_experience_duplicate_id
              (Example.world "a" "2024-01-01T12:00:00" [Example.f 1; Example.f 1])
              "thought" ∅ None None (Example.f 3) None Example.two_memories
              [Example.f 1; Example.f 1]
              (default (Memory.mk (Experience.mk "" "" "" ∅ ∅ [] Float.zero ∅ ∅)
                          [] "" 0 Float.zero Float.zero)
                 (PyDict.get "a" (MemorySystem.semantic_index Example.two_memories)))
              (MemorySystem.storage Example.after_collision))
    as (s' & Hrun & _ & _ & Htemp & _).
  - split_and!.
    + intros mid. change (mid ∈ ["b"; "a"] -> mid ∈ ["a"; "b"]).
      rewrite !elem_of_cons. tauto.
    + intros mid. change (mid ∈ ["b"; "a"] -> mid ∈ ["a"; "b"]).
      rewrite !elem_of_cons. tauto.
    + intros t bucket mid.
      change (PyDict.get t [("perception", ["a"]); ("action", ["b"])] = Some bucket
              -> mid ∈ bucket -> mid ∈ ["a"; "b"]).
      simpl. repeat case_decide; intros Hb; simplify_eq;
        rewrite !elem_of_cons; tauto.
  - reflexivity.
  - reflexivity.
  - vm_compute. reflexivity.
  - exists s'. split; [exact Hrun | exact Htemp].
Defined.

(** ** Similarity: [calculate_similarity] and [recall_similar] *)

Section FloatFacts.
Implicit Types x y : float.

Lemma mul_zero_l x y :
  Float.is_zero x = true ->
  Float.is_zero (Float.mul x y) = true \/ Float.mul x y = Float.nan.
Proof. destruct x, y; simpl; auto; discriminate. Qed.

Lemma mul_zero_r x y :
  Float.is_zero y = true ->
  Float.is_zero (Float.mul x y) = true \/ Float.mul x y = Float.nan.
Proof. destruct x, y; simpl; auto; discriminate. Qed.

Lemma add_zero_or_nan x y :
  Float.is_zero x = true \/ x = Float.nan ->
  Float.is_zero y = true \/ y = Float.nan ->
  Float.is_zero (Float.add x y) = true \/ Float.add x y = Float.nan.
Proof.
  intros Hx Hy. unfold Float.add, Float.nan.
  destruct x, y; simpl in *; auto; try (destruct Hx; discriminate);
    try (destruct Hy; discriminate).
  left. by destruct s, s0.
Qed.

Lemma mul_zero_zero x y :
  Float.is_zero x = true -> Float.is_zero y = true ->
  Float.is_zero (Float.mul x y) = true.
Proof. by destruct x, y. Qed.

Lemma add_zero_zero x y :
  Float.is_zero x = true -> Float.is_zero y = true ->
  Float.is_zero (Float.add x y) = true.
Proof. destruct x as [s| | |], y as [s0| | |]; try done. by destruct s, s0. Qed.

Lemma sqrt_zero x : Float.is_zero x = true -> Float.is_zero (Float.sqrt x) = true.
Proof. by destruct x. Qed.

(** Dividing by a zero, or by NaN, raises nothing: the quotient is NaN or
    an infinity. *)
Lemma div_by_zero_or_nan x y :
  Float.is_zero y = true \/ y = Float.nan ->
  Float.div x y = Float.nan \/ Float.is_infinity (Float.div x y) = true.
Proof.
  intros Hy. destruct x, y; simpl in *; auto; destruct Hy; discriminate.
Qed.

Lemma div_zero_or_nan x y :
  Float.is_zero x = true \/ x = Float.nan ->
  Float.is_zero y = true \/ y = Float.nan ->
  Float.div x y = Float.nan.
Proof.
  intros Hx Hy.
  destruct x, y; simpl in *; auto; try (destruct Hx; discriminate);
    destruct Hy; discriminate.
Qed.
End FloatFacts.

Section Similarity.
Import Embeddings.

Lemma dot_aligned v1 v2 :
  length v1 = length v2 -> exists d, dot v1 v2 = Ok d.
Proof.
  revert v2. induction v1 as [|x v1 IH]; intros [|y v2]; simpl; try done.
  - by eauto.
  - intros [= Hlen]. destruct (IH _ Hlen) as [d ->]. eauto.
Qed.

Lemma dot_zero_l v1 v2 d :
  Forall (fun x => Float.is_zero x = true) v1 ->
  dot v1 v2 = Ok d -> Float.is_zero d = true \/ d = Float.nan.
Proof.
  intros Hz. revert v2 d.
  induction Hz as [|x v1 Hx Hz IH]; intros [|y v2] d; simpl; try done.
  - intros [= <-]. by left.
  - destruct (dot v1 v2) as [s|] eqn:Hs; [|done]. intros [= <-].
    apply add_zero_or_nan; [by apply mul_zero_l | by eapply IH].
Qed.

Lemma dot_zero_r v1 v2 d :
  Forall (fun x => Float.is_zero x = true) v2 ->
  dot v1 v2 = Ok d -> Float.is_zero d = true \/ d = Float.nan.
Proof.
  intros Hz. revert v1 d.
  induction Hz as [|y v2 Hy Hz IH]; intros [|x v1] d; simpl; try done.
  - intros [= <-]. by left.
  - destruct (dot v1 v2) as [s|] eqn:Hs; [|done]. intros [= <-].
    apply add_zero_or_nan; [by apply mul_zero_r | by eapply IH].
Qed.

Lemma norm_zero v :
  Forall (fun x => Float.is_zero x = true) v -> Float.is_zero (norm v) = true.
Proof.
  intros Hz. apply sqrt_zero. unfold sum_squares.
  induction Hz as [|x v Hx Hz IH]; simpl; [done|].
  by apply add_zero_zero; [apply mul_zero_zero|].
Qed.

(** A vector of zero magnitude makes the similarity NaN or an infinity,
    without an exception. *)
Lemma calculate_similarity_zero_norm vec1 vec2 :
  length vec1 = length vec2 ->
  Float.is_zero (norm vec1) = true \/ Float.is_zero (norm vec2) = true ->
  exists x, calculate_similarity vec1 vec2 = Ok x
            /\ (x = Float.nan \/ Float.is_infinity x = true).
Proof.
  intros Hlen Hz. unfold calculate_similarity.
  destruct (dot_aligned _ _ Hlen) as [d ->]. eexists. split; [done|].
  apply div_by_zero_or_nan.
  destruct Hz as [Hz|Hz]; [by apply mul_zero_l | by apply mul_zero_r].
Qed.

(** The zero vector makes the similarity NaN. *)
Lemma calculate_similarity_zero_vector vec1 vec2 :
  length vec1 = length vec2 ->
  Forall (fun x => Float.is_zero x = true) vec1
  \/ Forall (fun x => Float.is_zero x = true) vec2 ->
  calculate_similarity vec1 vec2 = Ok Float.nan.
Proof.
  intros Hlen Hz. unfold calculate_similarity.
  destruct (dot_aligned _ _ Hlen) as [d Hd]. rewrite Hd. f_equal.
  apply div_zero_or_nan.
  - destruct Hz as [Hz|Hz]; [by eapply dot_zero_l | by eapply dot_zero_r].
  - destruct Hz as [Hz|Hz];
      [by apply mul_zero_l, norm_zero | by apply mul_zero_r, norm_zero].
Qed.
End Similarity.

Section Recall.
Context {Payload : Type} `{Empty Payload}.
Context `{!Json Payload, !Json (list string),
          !Json (gmap string (list string)), !Json (list float)}.
Import MemorySystem.
Implicit Types (s : MemorySystem Payload) (m : Memory Payload).

(** With a database that works, the loop "Update access stats" returns
    and changes the database only. *)
Lemma update_access_all_ok w n (memories : list (Memory Payload)) s :
  (forall k, sqlite_ok w k = true) ->
  exists db, update_access_all w n memories s = (set_storage db s, Ok ()).
Proof.
  intros Hok. revert n s. induction memories as [|m rest IH]; intros n s; simpl.
  - exists (storage s). by destruct s.
  - unfold mbind, M_bind, with_storage, update_access. rewrite Hok. simpl.
    destruct (IH (S n) (set_storage
      (StorageManager.mk
         ((fun r => if decide (Row.id r = Experience.id (Memory.experience m))
                    then Row.touch (now w n) r else r)
            <$> StorageManager.memories (storage s))) s)) as [db ->].
    by exists db.
Qed.

Lemma for_each_ok {A B} (f : A -> result B) (g : A -> B) (l : list A) :
  (forall a, a ∈ l -> f a = Ok (g a)) -> for_each f l = Ok (g <$> l).
Proof.
  induction l as [|a l IH]; intros Hf; simpl; [done|].
  rewrite Hf by (by left). rewrite IH; [done|]. intros; apply Hf. by right.
Qed.

(** A sort on keys none of which is less than another leaves the list as
    it is. *)
Lemma sort_reverse_unordered {K A} (ltb : K -> K -> bool) (l : list (K * A)) :
  (forall x y, x ∈ l -> y ∈ l -> ltb x.1 y.1 = false) ->
  sort_reverse ltb l = l.
Proof.
  unfold sort_reverse. induction l as [|x l IH]; intros Hlt; simpl; [done|].
  rewrite IH by (intros; apply Hlt; by right).
  destruct l as [|y l]; simpl; [done|].
  rewrite Hlt; [done | by left | right; by left].
Qed.

(** C3 (as amended). A vector of zero magnitude does not make the cosine
    similarity fail: on two vectors of one length the computation returns
    NaN or an infinity when the norm of either is zero, and NaN when
    either is the zero vector. So [recall_similar] with a query whose
    embedding is the zero vector does not fail either: over memories
    whose embeddings have the length of the query and a database that
    works, every key of the ranking is NaN and the call returns the
    first [limit] memories of the semantic map, in the order of the
    map. *)
Theorem zero_vector_similarity_is_nan :
  (forall vec1 vec2,
     length vec1 = length vec2 ->
     Float.is_zero (Embeddings.norm vec1) = true
     \/ Float.is_zero (Embeddings.norm vec2) = true ->
     exists x, Embeddings.calculate_similarity vec1 vec2 = Ok x
               /\ (x = Float.nan \/ Float.is_infinity x = true))
  /\ (forall vec1 vec2,
        length vec1 = length vec2 ->
        Forall (fun x => Float.is_zero x = true) vec1
        \/ Forall (fun x => Float.is_zero x = true) vec2 ->
        Embeddings.calculate_similarity vec1 vec2 = Ok Float.nan)
  /\ (forall w query limit (s : MemorySystem Payload) query_embedding,
        embedding_reply w = Ok query_embedding ->
        Forall (fun x => Float.is_zero x = true) query_embedding ->
        (forall m, m ∈ PyDict.values (semantic_index s) ->
           length (Memory.embedding m) = length query_embedding) ->
        (forall k, sqlite_ok w k = true) ->
        exists db,
          recall_similar w query limit s
          = (set_storage db s,
             Ok (slice_to (PyDict.values (semantic_index s)) limit))).
Proof.
  split_and!.
  - apply calculate_similarity_zero_norm.
  - apply calculate_similarity_zero_vector.
  - intros w query limit s q Hq Hzero Hlen Hok.
    unfold recall_similar.
    unfold mbind at 1, M_bind at 1, lift at 1. rewrite Hq.
    unfold mbind at 1, M_bind at 1, get_self at 1.
    unfold mbind at 1, M_bind at 1, lift at 1.
    rewrite (for_each_ok _ (fun m => (Float.nan, m))); cycle 1.
    { intros m Hm. unfold mbind, result_bind, mret, result_ret.
      rewrite calculate_similarity_zero_vector; [done| |by left].
      symmetry. by apply Hlen. }
    rewrite sort_reverse_unordered; cycle 1.
    { intros x y [m [-> _]]%list_elem_of_fmap [m2 [-> _]]%list_elem_of_fmap. done. }
    set (ms := snd <$> slice_to _ limit).
    assert (Hms : ms = slice_to (PyDict.values (semantic_index s)) limit).
    { subst ms. unfold slice_to. rewrite length_fmap.
      destruct (0 <=? limit); rewrite <- fmap_take, <- list_fmap_compose;
        apply list_fmap_id. }
    rewrite Hms.
    unfold mbind, M_bind.
    destruct (update_access_all_ok w 0%nat
                (slice_to (PyDict.values (semantic_index s)) limit) s Hok)
      as [db ->].
    by exists db.
Qed.
End Recall.

(** Against C3 as stated: the similarity of the zero vector and [1, 0] is
    the value NaN, not an exception, and [recall_similar] with a query
    whose embedding is the zero vector returns both stored memories. *)
Lemma zero_vector_does_not_fail :
  Embeddings.calculate_similarity [Example.f 0; Example.f 0]
    [Example.f 1; Example.f 0] = Ok Float.nan
  /\ (Experience.id ∘ Memory.experience)
       <$> default []
             (match (recall_similar
                       (Example.world "" "2024-01-02T09:00:00"
                          [Example.f 0; Example.f 0])
                       "anything" 5 Example.two_memories).2 with
              | Ok memories => Some memories
              | Raise _ => None
              end)
     = ["a"; "b"].
Proof. split; by vm_compute. Qed.

(** The amended C3 on the two recorded experiences. *)
Lemma zero_vector_similarity_is_nan_witness :
  exists db,
    recall_similar (Example.world "" "2024-01-02T09:00:00"
                      [Example.f 0; Example.f 0])
      "anything" 5 Example.two_memories
    = (MemorySystem.set_storage db Example.two_memories,
       Ok (slice_to (PyDict.values
                       (MemorySystem.semantic_index Example.two_memories)) 5)).
Proof.
  apply (proj2 (proj2 zero_vector_similarity_is_nan)
           (Example.world "" "2024-01-02T09:00:00" [Example.f 0; Example.f 0])
           "anything" 5 Example.two_memories [Example.f 0; Example.f 0]).
  - reflexivity.
  - repeat constructor.
  - intros m. change (m ∈ PyDict.values
                            (MemorySystem.semantic_index Example.two_memories))
      with (m ∈ [default m (PyDict.get "a" (MemorySystem.semantic_index Example.two_memories));
                 default m (PyDict.get "b" (MemorySystem.semantic_index Example.two_memories))]).
    rewrite !elem_of_cons, elem_of_nil. intros [->|[->|[]]]; reflexivity.
  - reflexivity.
Defined.

(** ** The fallback embedding: [_generate_simple_embedding] *)

(** C4. The fallback embedding of a text is not the same in every
    process: where the hash of the text is a seed that numpy accepts in one
    process and is not in another, the first process gets a vector and
    the second a [ValueError]. *)
Theorem fallback_embedding_not_reproducible
    (str_hash : Z -> string -> Z) (randn : Z -> nat -> list float)
    (secret1 secret2 : Z) (text : string) :
  Embeddings.seed_ok (str_hash secret1 text) = true ->
  Embeddings.seed_ok (str_hash secret2 text) = false ->
  Embeddings._generate_simple_embedding str_hash randn secret1 text
  = Ok (randn (str_hash secret1 text) 256%nat)
  /\ Embeddings._generate_simple_embedding str_hash randn secret2 text
     = Raise ValueError.
Proof.
  intros H1 H2. unfold Embeddings._generate_simple_embedding.
  by rewrite H1, H2.
Qed.

(** A hash that is the secret itself, and the value that [hash] gave for
    a short text in one run of CPython. *)
Lemma fallback_embedding_not_reproducible_witness :
  Embeddings._generate_simple_embedding (fun secret _ => secret)
    (fun _ n => replicate n Float.zero) (-1198514488157091551) "hello"
  = Raise ValueError.
Proof.
  apply (fallback_embedding_not_reproducible (fun secret _ => secret)
           (fun _ n => replicate n Float.zero) 42 (-1198514488157091551) "hello").
  - reflexivity.
  - reflexivity.
Defined.

(** ** The storage round trip: [store_memory] and [load_all_memories] *)

Lemma for_each_app {A B} (f : A -> result B) (l1 l2 : list A) (r : list B) :
  for_each f (l1 ++ l2) = Ok r ->
  exists r1 r2, r = r1 ++ r2 /\ for_each f l1 = Ok r1 /\ for_each f l2 = Ok r2.
Proof.
  revert r. induction l1 as [|a l1 IH]; intros r; simpl.
  - intros Hr. by exists [], r.
  - destruct (f a) as [b|]; [|done].
    destruct (for_each f (l1 ++ l2)) as [bs|] eqn:Hbs; [|done].
    intros [= <-]. destruct (IH _ eq_refl) as (r1 & r2 & -> & -> & ->).
    by exists (b :: r1), r2.
Qed.

Lemma for_each_Forall2 {A B} (f : A -> result B) (l : list A) (r : list B) :
  for_each f l = Ok r -> Forall2 (fun a b => f a = Ok b) l r.
Proof.
  revert r. induction l as [|a l IH]; intros r; simpl.
  - intros [= <-]. constructor.
  - destruct (f a) as [b|] eqn:Hb; [|done].
    destruct (for_each f l) as [bs|]; [|done].
    intros [= <-]. constructor; auto.
Qed.

Lemma real_cell_eqb x :
  Float.is_nan x = false -> Float.eqb (real_cell x) x = true.
Proof.
  destruct x as [s|s| |s m e]; try done; simpl; intros _.
  - by destruct s.
  - unfold Float.eqb, SFeqb. simpl. destruct s; rewrite Z.compare_refl;
      change (Pos.compare_cont Eq m m) with (Pos.compare m m);
      by rewrite Pos.compare_refl.
Qed.

Lemma is_nan_real_cell x : Float.is_nan (real_cell x) = Float.is_nan x.
Proof. by destruct x. Qed.

Lemma real_cell_exact x :
  x <> S754_zero true -> real_cell x = x.
Proof. destruct x as [[]| | |]; done. Qed.

Section RoundTrip.
Context {Payload : Type}.
Context `{!Json Payload, !Json (list string),
          !Json (gmap string (list string)), !Json (list float)}.
Context `{!JsonRoundTrip Payload, !JsonRoundTrip (list string),
          !JsonRoundTrip (gmap string (list string)),
          !JsonRoundTrip (list float)}.
Implicit Types (m memory : Memory Payload) (db : StorageManager.t).

(** A row that [store_memory] wrote reads back as the memory it was
    written from, in the form the database keeps. *)
Lemma memory_of_row_of_memory memory :
  memory_of_row (row_of_memory memory) = Ok (as_stored memory).
Proof.
  unfold memory_of_row, row_of_memory, mbind, result_bind; simpl.
  rewrite (json_loads_dumps (Experience.content (Memory.experience memory))).
  rewrite (json_loads_dumps (Experience.metadata (Memory.experience memory))).
  rewrite (json_loads_dumps (Experience.tags (Memory.experience memory))).
  rewrite (json_loads_dumps (Experience.context (Memory.experience memory))).
  rewrite (json_loads_dumps (Experience.relationships (Memory.experience memory))).
  rewrite (json_loads_dumps (Memory.embedding memory)).
  done.
Qed.

Lemma memory_of_row_id (row : Row.t) m :
  memory_of_row row = Ok m -> Experience.id (Memory.experience m) = Row.id row.
Proof.
  unfold memory_of_row, mbind, result_bind, mret, result_ret.
  repeat (match goal with
          | |- context [json_loads ?x] => destruct (json_loads x); [|done]
          end).
  by intros [= <-].
Qed.

(** C8. Storage round trip: a memory that [store_memory] has written is,
    in what [load_all_memories] then returns, the one memory under its id,
    and it is equal to the original field for field: id, timestamp, type,
    content, metadata, tags, context, relationships, embedding,
    last_accessed and access_count are identical, and importance,
    emotional_valence and confidence are equal as floats (identical but
    for the sign of a zero). [json.loads] is taken to invert
    [json.dumps]. *)
Theorem store_load_round_trip ok ok' memory db db' memories :
  store_memory ok memory db = Ok db' ->
  load_all_memories ok' db' = Ok memories ->
  exists reloaded,
    filter (fun m => Experience.id (Memory.experience m)
                     = Experience.id (Memory.experience memory)) memories
    = [reloaded]
    /\ reloaded = as_stored memory
    /\ fields_equal reloaded memory.
Proof.
  unfold store_memory, load_all_memories.
  destruct ok; simpl; [|done].
  destruct (int64_ok _); simpl; [|done].
  destruct (not_null _) eqn:Hnn; simpl; [|done].
  intros [= <-]. destruct ok'; simpl; [|done].
  unfold insert_or_replace. intros Hload.
  apply for_each_app in Hload as (r1 & r2 & -> & Hr1 & Hr2).
  simpl in Hr2. rewrite memory_of_row_of_memory in Hr2.
  injection Hr2 as <-.
  exists (as_stored memory). split_and!; [|done|].
  - rewrite filter_app, filter_cons_True, filter_nil by done.
    replace (filter _ r1) with (@nil (Memory Payload)); [done|].
    symmetry. apply for_each_Forall2 in Hr1.
    remember (filter _ (StorageManager.memories db)) as rows eqn:Hrows.
    assert (Hne : Forall (fun r => Row.id r <> Row.id (row_of_memory memory)) rows).
    { subst rows. apply Forall_forall. by intros r [? _]%list_elem_of_filter. }
    clear Hrows. induction Hr1 as [|row m rows ms Hm Hrest IH]; [done|].
    apply Forall_cons in Hne as [Hrow Hne].
    rewrite filter_cons_False; [by apply IH|].
    rewrite (memory_of_row_id _ _ Hm). exact Hrow.
  - unfold not_null in Hnn. simpl in Hnn.
    apply andb_true_iff in Hnn as [[H1 H2]%andb_true_iff H3].
    apply negb_true_iff in H1, H2, H3.
    unfold fields_equal; simpl.
    split_and!; try done; apply real_cell_eqb; by rewrite <- is_nan_real_cell.
Qed.
End RoundTrip.

(** The codec of the examples has the contract of [json]. *)
Lemma of_bits_bits p : Codec.of_bits (Codec.bits p) = Some p.
Proof. induction p as [p IH|p IH|]; simpl; by rewrite ?IH. Qed.

Lemma codec_round_trip `{Countable A} : JsonRoundTrip A.
Proof.
  intros a. unfold json_loads, json_dumps; simpl.
  unfold Codec.loads, Codec.dumps. rewrite of_bits_bits. simpl.
  by rewrite decode_encode.
Qed.

(** The round trip of the memory [a] of the examples, which has a
    relationship, through the database of the examples. *)
Lemma store_load_round_trip_witness :
  exists reloaded,
    filter (fun m => Experience.id (Memory.experience m)
                     = Experience.id (Memory.experience Example.source_memory))
      Example.reloaded
    = [reloaded]
    /\ reloaded = as_stored Example.source_memory
    /\ fields_equal reloaded Example.source_memory.
Proof.
  apply (store_load_round_trip (JsonRoundTrip0 := codec_round_trip)
           (JsonRoundTrip1 := codec_round_trip)
           (JsonRoundTrip2 := codec_round_trip)
           (JsonRoundTrip3 := codec_round_trip)
           true true Example.source_memory
           (MemorySystem.storage Example.two_memories)
           (MemorySystem.storage Example.connected_once)).
  - vm_compute. reflexivity.
  - vm_compute. reflexivity.
Defined.

(** ** Sequences of [record_experience] calls *)

Section FloatOrder.
Implicit Types x y z v : float.

Local Ltac float_cases :=
  unfold Float.gtb, Float.ltb, Float.leb, Float.eqb, Float.is_nan,
    SFltb, SFleb, SFeqb, SFcompare in *;
  repeat match goal with
  | x : float |- _ => destruct x as [[]|[]| |[] ? ?]
  end;
  simpl in *; try (discriminate || reflexivity);
  repeat match goal with
  | H : context [Z.compare ?a ?b] |- _ => destruct (Z.compare_spec a b)
  | |- context [Z.compare ?a ?b] => destruct (Z.compare_spec a b)
  | H : context [Pos.compare_cont Eq ?a ?b] |- _ =>
      change (Pos.compare_cont Eq a b) with (Pos.compare a b) in *;
      destruct (Pos.compare_spec a b)
  | |- context [Pos.compare_cont Eq ?a ?b] =>
      change (Pos.compare_cont Eq a b) with (Pos.compare a b) in *;
      destruct (Pos.compare_spec a b)
  end;
  simpl in *; try (discriminate || reflexivity || lia).

(** On floats other than NaN, [<=] is a total preorder and [<] its strict
    part. *)
Lemma not_gtb_leb x y :
  Float.is_nan x = false -> Float.is_nan y = false ->
  Float.gtb x y = false -> Float.leb x y = true.
Proof. float_cases. Qed.

Lemma gtb_leb x y : Float.gtb x y = true -> Float.leb y x = true.
Proof. float_cases. Qed.

Lemma leb_gtb_trans x y z :
  Float.leb x y = true -> Float.gtb z y = true -> Float.gtb z x = true.
Proof. float_cases. Qed.

Lemma gtb_not_eqb x y v :
  Float.eqb x v = true -> Float.gtb x y = true -> Float.eqb y v = false.
Proof. float_cases. Qed.

Lemma eqb_refl x : Float.is_nan x = false -> Float.eqb x x = true.
Proof. float_cases. Qed.

Lemma eqb_sym x y : Float.eqb x y = Float.eqb y x.
Proof. float_cases. Qed.
End FloatOrder.

Section ListFacts.
Context {A : Type}.
Implicit Types l : list A.

Lemma Forall_filter_nil (P : A -> Prop) `{!forall x, Decision (P x)} l :
  Forall (fun x => ~ P x) l -> filter P l = [].
Proof.
  induction 1 as [|x l Hx _ IH]; [done|]. by rewrite filter_cons_False.
Qed.

Lemma filter_all (P : A -> Prop) `{!forall x, Decision (P x)} l :
  Forall P l -> filter P l = l.
Proof.
  induction 1 as [|x l Hx _ IH]; [done|]. by rewrite filter_cons_True, IH.
Qed.

Lemma filter_fmap {B} (f : B -> A) (P : A -> Prop) `{!forall x, Decision (P x)}
    (l : list B) :
  filter P (f <$> l) = f <$> filter (fun x => P (f x)) l.
Proof.
  induction l as [|x l IH]; [done|]. rewrite fmap_cons, !filter_cons, IH.
  by destruct (decide (P (f x))).
Qed.

Lemma sublist_filter_mono (P : A -> Prop) `{!forall x, Decision (P x)} l1 l2 :
  l1 `sublist_of` l2 -> filter P l1 `sublist_of` filter P l2.
Proof.
  induction 1 as [|x l1 l2 _ IH|x l1 l2 _ IH]; [done| |].
  - rewrite !filter_cons. destruct (decide (P x)); [by constructor|done].
  - rewrite filter_cons. destruct (decide (P x)); [by constructor|done].
Qed.

Lemma sublist_fmap_inv {B} (f : B -> A) l (k : list B) :
  l `sublist_of` f <$> k -> exists k', l = f <$> k' /\ k' `sublist_of` k.
Proof.
  revert l. induction k as [|y k IH]; intros l.
  - intros ->%sublist_nil_r. by exists [].
  - rewrite fmap_cons. intros Hl. apply sublist_cons_r in Hl as [Hl|(l' & -> & Hl)].
    + destruct (IH _ Hl) as (k' & -> & Hk). exists k'. split; [done|by constructor].
    + destruct (IH _ Hl) as (k' & -> & Hk). exists (y :: k'). split; [done|by constructor].
Qed.

Lemma StronglySorted_sublist (R : relation A) l1 l2 :
  l1 `sublist_of` l2 -> StronglySorted R l2 -> StronglySorted R l1.
Proof.
  induction 1 as [|x l1 l2 Hsub IH|x l1 l2 Hsub IH]; [done| |].
  - rewrite !StronglySorted_cons, !Forall_forall. intros [Hx Hs]. split; [|auto].
    intros y Hy. apply Hx. by eapply elem_of_sublist.
  - rewrite StronglySorted_cons. intros [_ Hs]. auto.
Qed.

Lemma StronglySorted_reverse (R : relation A) l :
  StronglySorted R l -> StronglySorted (flip R) (reverse l).
Proof.
  induction 1 as [|x l Hs IH Hx]; [constructor|].
  rewrite reverse_cons. apply StronglySorted_app. split_and!.
  - intros x1 x2 Hx1 ->%list_elem_of_singleton.
    rewrite elem_of_reverse in Hx1.
    rewrite Forall_forall in Hx. unfold flip. by apply Hx.
  - done.
  - repeat constructor.
Qed.

Lemma slice_to_fmap {B} (f : A -> B) l k :
  slice_to (f <$> l) k = f <$> slice_to l k.
Proof.
  unfold slice_to. rewrite length_fmap. by destruct (0 <=? k); rewrite fmap_take.
Qed.

Lemma slice_to_sublist l k : slice_to l k `sublist_of` l.
Proof. unfold slice_to. destruct (0 <=? k); apply sublist_take. Qed.

Lemma slice_to_length l1 (l2 : list A) k :
  length l1 = length l2 -> length (slice_to l1 k) = length (slice_to l2 k).
Proof.
  unfold slice_to. intros Hlen. destruct (0 <=? k); rewrite !length_take; lia.
Qed.
End ListFacts.

Section Sequence.
Context {Payload : Type} `{Empty Payload}.
Context `{!Json Payload, !Json (list string),
          !Json (gmap string (list string)), !Json (list float)}.
Import MemorySystem.
Implicit Types (c : Call Payload) (done order cs : list (Call Payload)).
Implicit Types (s : MemorySystem Payload).

Lemma keys_entries done : PyDict.keys (entry <$> done) = call_id <$> done.
Proof. unfold PyDict.keys. by rewrite <- list_fmap_compose. Qed.

Lemma get_entry done c :
  NoDup (call_id <$> done) -> c ∈ done ->
  PyDict.get (call_id c) (entry <$> done) = Some (memory_of c).
Proof.
  induction done as [|d done IH]; intros Hnd Hin.
  - by apply elem_of_nil in Hin.
  - rewrite fmap_cons in Hnd. apply NoDup_cons in Hnd as [Hd Hnd].
    rewrite fmap_cons. unfold entry at 1. simpl.
    destruct (decide (call_id c = call_id d)) as [Heq|Hne].
    + apply elem_of_cons in Hin as [->|Hin]; [done|].
      exfalso. apply Hd. rewrite <- Heq. by apply list_elem_of_fmap_2.
    + apply elem_of_cons in Hin as [->|Hin]; [done|]. by apply IH.
Qed.

Lemma recorded_consistent done order s : recorded done order s -> consistent s.
Proof.
  intros (Hsem & Htemp & Himp & Hperm & Hty).
  unfold consistent. rewrite Hsem, keys_entries, Htemp, Himp. split_and!.
  - intros mid. by rewrite elem_of_reverse.
  - intros mid. by rewrite Hperm.
  - intros t bucket mid. rewrite Hty. case_decide; [done|].
    intros [= <-]. unfold bucket_of. rewrite elem_of_reverse.
    intros (c & -> & [_ Hc]%list_elem_of_filter)%list_elem_of_fmap.
    by apply list_elem_of_fmap_2.
Qed.

Lemma recorded_fresh : recorded [] [] (@fresh Payload).
Proof. by split_and!. Qed.

(** A call for which the provider and its fallback give no embedding
    raises before it touches the state. *)
Lemma record_experience_no_embedding w type content metadata tags importance
    context s e :
  embedding_reply w = Raise e ->
  record_experience w type content metadata tags importance context s
  = (s, Raise e).
Proof.
  intros Hemb. unfold record_experience.
  unfold mbind at 1, M_bind at 1, lift at 1. by rewrite Hemb.
Qed.

(** One more call: the state it leaves when it returns. *)
Lemma record_call_recorded done order s c s' e :
  recorded done order s ->
  NoDup (call_id <$> (done ++ [c])) ->
  record_call c s = (s', Ok e) ->
  e = experience_of c
  /\ exists o1 o2,
       order = o1 ++ o2
       /\ recorded (done ++ [c]) (o1 ++ c :: o2) s'
       /\ Forall (fun x => Float.gtb (Call.importance c) (Call.importance x) = false) o1
       /\ (forall y, head o2 = Some y ->
             Float.gtb (Call.importance c) (Call.importance y) = true).
Proof.
  intros Hrec Hnd Hrun.
  pose proof (recorded_consistent _ _ _ Hrec) as Hcons.
  destruct Hrec as (Hsem & Htemp & Himp & Hperm & Hty).
  unfold record_call in Hrun.
  destruct (embedding_reply (Call.world c)) as [embedding|err] eqn:Hemb; cycle 1.
  { rewrite (record_experience_no_embedding _ _ _ _ _ _ _ _ _ Hemb) in Hrun. done. }
  assert (Hmem : new_memory (Call.world c) (experience_of c) embedding = memory_of c).
  { unfold memory_of. by rewrite Hemb. }
  assert (Hfresh : PyDict.get (call_id c) (semantic_index s) = None).
  { apply get_None_keys. rewrite Hsem, keys_entries.
    rewrite fmap_app in Hnd. apply NoDup_app in Hnd as (_ & Hnd & _).
    intros Hin. apply (Hnd _ Hin). by left. }
  assert (Hsem' : PyDict.set (call_id c) (memory_of c) (semantic_index s)
                  = entry <$> (done ++ [c])).
  { rewrite (set_fresh _ _ _ Hfresh), Hsem, fmap_app. done. }
  destruct (insert_before_less_ok
              (PyDict.set (call_id c) (memory_of c) (semantic_index s))
              (Call.importance c) (call_id c) (importance_index s))
    as [index' Hidx].
  { intros mid Hin. apply keys_set_mono. by apply Hcons. }
  pose proof (record_experience_run (Call.world c) (Call.type c) (Call.content c)
                (Call.metadata c) (Call.tags c) (Call.importance c)
                (Call.context c) s embedding index' Hemb) as Hstep.
  simpl in Hstep. fold (experience_of c) in Hstep. rewrite Hmem in Hstep.
  fold (call_id c) in Hstep. specialize (Hstep Hidx). rewrite Hstep in Hrun.
  destruct (store_memory _ _ _) as [db|]; [|done].
  injection Hrun as <- <-. split; [done|].
  destruct (insert_before_less_spec _ _ _ _ _ Hidx) as (l1 & l2 & Hl & -> & H1 & H2).
  rewrite Himp in Hl. apply fmap_app_inv in Hl as (o1 & o2 & -> & -> & ->).
  assert (Himportance : forall x, x ∈ o1 ++ o2 ->
    importance_of (PyDict.set (call_id c) (memory_of c) (semantic_index s)) (call_id x)
    = Some (Call.importance x)).
  { intros x Hx. unfold importance_of. rewrite Hsem', get_entry; [done|done|].
    rewrite Hperm in Hx. apply elem_of_app. by left. }
  exists o1, o2. split_and!; [done| |..].
  - split_and!; simpl.
    + exact Hsem'.
    + by rewrite Htemp, fmap_app, reverse_app.
    + by rewrite fmap_app.
    + rewrite <- Permutation_middle, Hperm. apply Permutation_cons_append.
    + intros t. rewrite get_set, filter_app.
      destruct (decide (t = Call.type c)) as [->|Hne].
      * rewrite filter_cons_True by done. rewrite filter_nil.
        rewrite decide_False by (by intros ?%app_eq_nil%proj2).
        f_equal. unfold bucket_of. rewrite filter_app, filter_cons_True by done.
        rewrite filter_nil, fmap_app, reverse_app. simpl. f_equal.
        rewrite Hty. case_decide as Hnil; [by rewrite Hnil|done].
      * rewrite filter_cons_False by done. rewrite filter_nil, app_nil_r.
        rewrite Hty. unfold bucket_of.
        rewrite filter_app, filter_cons_False by done.
        by rewrite filter_nil, app_nil_r.
  - apply Forall_forall. intros x Hx.
    destruct (H1 (call_id x)) as (i & Hi & Hgt); [by apply list_elem_of_fmap_2|].
    rewrite Himportance in Hi by (apply elem_of_app; by left). by injection Hi as <-.
  - intros y Hy.
    destruct (H2 (call_id y)) as (i & Hi & Hgt).
    { destruct o2; simplify_eq/=. done. }
    rewrite Himportance in Hi.
    + by injection Hi as <-.
    + apply elem_of_app. right. destruct o2; simplify_eq/=. by left.
Qed.

Lemma by_importance_nil : by_importance (@nil (Call Payload)) [].
Proof. split; [constructor | done]. Qed.

(** The place that the scan chooses keeps the importance index sorted
    and stable. *)
Lemma by_importance_insert done o1 o2 c :
  Forall (fun x => Float.is_nan (Call.importance x) = false) (c :: o1 ++ o2) ->
  by_importance done (o1 ++ o2) ->
  Forall (fun x => Float.gtb (Call.importance c) (Call.importance x) = false) o1 ->
  (forall y, head o2 = Some y ->
     Float.gtb (Call.importance c) (Call.importance y) = true) ->
  by_importance (done ++ [c]) (o1 ++ c :: o2).
Proof.
  intros Hnan [Hsorted Hstable] Ho1 Ho2.
  apply Forall_cons in Hnan as [Hc Hnan].
  rewrite Forall_forall in Hnan, Ho1.
  apply StronglySorted_app in Hsorted as (Hcross & Hs1 & Hs2).
  assert (Hless : forall z, z ∈ o2 ->
            Float.gtb (Call.importance c) (Call.importance z) = true).
  { destruct o2 as [|y o2]; [by intros ? ?%elem_of_nil|].
    specialize (Ho2 y eq_refl).
    apply StronglySorted_cons in Hs2 as [Hy _]. rewrite Forall_forall in Hy.
    intros z [->|Hz]%elem_of_cons; [done|].
    eapply leb_gtb_trans; [by apply Hy | done]. }
  split.
  - apply StronglySorted_app. split_and!; [|done|].
    + intros x1 x2 Hx1 [->|Hx2]%elem_of_cons; [|by apply Hcross].
      apply not_gtb_leb; [done| |by apply Ho1].
      apply Hnan, elem_of_app. by left.
    + apply StronglySorted_cons. split; [|done].
      apply Forall_forall. intros z Hz. by apply gtb_leb, Hless.
  - intros v. rewrite !filter_app, filter_cons.
    destruct (decide (Float.eqb (Call.importance c) v = true)) as [Hv|Hv].
    + rewrite filter_cons_True, filter_nil by done.
      replace (filter _ o2) with (@nil (Call Payload)).
      * rewrite <- Hstable, filter_app.
        replace (filter _ o2) with (@nil (Call Payload)); [by rewrite app_nil_r|].
        symmetry. apply Forall_filter_nil, Forall_forall. intros z Hz.
        rewrite (gtb_not_eqb _ _ _ Hv (Hless z Hz)). done.
      * symmetry. apply Forall_filter_nil, Forall_forall. intros z Hz.
        rewrite (gtb_not_eqb _ _ _ Hv (Hless z Hz)). done.
    + rewrite filter_cons_False, filter_nil, app_nil_r by done.
      by rewrite <- Hstable, filter_app.
Qed.

(** The state that a sequence of calls that all return leaves. *)
Lemma record_calls_recorded cs done order s s' exps :
  recorded done order s ->
  (Forall (fun x => Float.is_nan (Call.importance x) = false) done ->
   by_importance done order) ->
  NoDup (call_id <$> (done ++ cs)) ->
  record_calls cs s = (s', Ok exps) ->
  exps = experience_of <$> cs
  /\ exists order',
       recorded (done ++ cs) order' s'
       /\ (Forall (fun x => Float.is_nan (Call.importance x) = false) (done ++ cs) ->
           by_importance (done ++ cs) order').
Proof.
  revert done order s s' exps.
  induction cs as [|c cs IH]; intros done order s s' exps Hrec Himp Hnd; simpl.
  - intros [= <- <-]. split; [done|]. exists order. by rewrite app_nil_r.
  - unfold mbind at 1, M_bind at 1.
    destruct (record_call c s) as [s1 [e|err]] eqn:Hc; [|done].
    unfold mbind at 1, M_bind at 1.
    destruct (record_calls cs s1) as [s2 [es|err]] eqn:Hcs; [|done].
    intros [= <- <-].
    replace (done ++ c :: cs) with ((done ++ [c]) ++ cs) in *
      by (by rewrite <- app_assoc).
    assert (Hnd1 : NoDup (call_id <$> done ++ [c])).
    { rewrite fmap_app in Hnd. by apply NoDup_app in Hnd as (Hnd & _). }
    destruct (record_call_recorded _ _ _ _ _ _ Hrec Hnd1 Hc)
      as (-> & o1 & o2 & -> & Hrec1 & Ho1 & Ho2).
    destruct (IH (done ++ [c]) (o1 ++ c :: o2) s1 s2 es Hrec1) as (-> & order' & Hrec2 & Himp2);
      [|done|done|].
    + intros Hnan. apply by_importance_insert; [| |done|done].
      * apply Forall_app in Hnan as [Hdone Hc']. apply Forall_cons. split.
        -- by apply Forall_cons in Hc' as [? _].
        -- destruct Hrec as (_ & _ & _ & Hperm & _). by rewrite Hperm.
      * apply Himp. by apply Forall_app in Hnan as [? _].
    + split; [done|]. by exists order'.
Qed.

Lemma for_each_getitem done l :
  NoDup (call_id <$> done) -> (forall c, c ∈ l -> c ∈ done) ->
  for_each (fun mid => PyDict.getitem mid (entry <$> done)) (call_id <$> l)
  = Ok (memory_of <$> l).
Proof.
  intros Hnd. induction l as [|c l IH]; intros Hin; [done|].
  rewrite !fmap_cons. simpl. unfold PyDict.getitem at 1.
  rewrite get_entry; [|done|apply Hin; by left].
  rewrite IH; [done|]. intros; apply Hin. by right.
Qed.

(** [recall_important] on a recorded state, with a database that works. *)
Lemma recall_important_recorded done order s w limit :
  recorded done order s ->
  NoDup (call_id <$> done) ->
  (forall k, sqlite_ok w k = true) ->
  exists db,
    recall_important w limit s
    = (set_storage db s, Ok (memory_of <$> slice_to order limit)).
Proof.
  intros (Hsem & _ & Himp & Hperm & _) Hnd Hok.
  unfold recall_important.
  unfold mbind at 1, M_bind at 1, get_self at 1.
  unfold mbind at 1, M_bind at 1, lift at 1.
  rewrite Hsem, Himp, slice_to_fmap, for_each_getitem; [|done|]; cycle 1.
  { intros c Hc. rewrite <- Hperm. by eapply elem_of_sublist, slice_to_sublist. }
  unfold mbind, M_bind.
  destruct (update_access_all_ok w 0%nat (memory_of <$> slice_to order limit) s Hok)
    as [db ->].
  by exists db.
Qed.

(** [recall_recent] on a recorded state, with a database that works and
    a type filter that is not the empty string. *)
Lemma recall_recent_recorded done order s w limit type :
  recorded done order s ->
  NoDup (call_id <$> done) ->
  (forall k, sqlite_ok w k = true) ->
  type <> Some EmptyString ->
  exists db,
    recall_recent w limit type s
    = (set_storage db s,
       Ok (memory_of
             <$> slice_to
                   (reverse (filter (fun c => has_type type (experience_of c)) done))
                   limit)).
Proof.
  intros (Hsem & Htemp & _ & _ & Hty) Hnd Hok Htype.
  unfold recall_recent.
  unfold mbind at 1, M_bind at 1, get_self at 1.
  assert (Hids :
    match truthy type with
    | Some t => slice_to (default [] (PyDict.get t (type_index s))) limit
    | None => slice_to (temporal_index s) limit
    end
    = call_id <$> slice_to
        (reverse (filter (fun c => has_type type (experience_of c)) done)) limit).
  { rewrite <- slice_to_fmap, fmap_reverse. destruct type as [t|]; simpl.
    - rewrite decide_False by congruence. rewrite Hty. f_equal.
      case_decide as Hnil; simpl; [by rewrite Hnil|done].
    - rewrite Htemp. by rewrite filter_all by (by apply Forall_true). }
  rewrite Hids. clear Hids.
  unfold mbind at 1, M_bind at 1, lift at 1.
  rewrite Hsem, for_each_getitem; [|done|]; cycle 1.
  { intros c Hc. eapply elem_of_sublist in Hc; [|apply slice_to_sublist].
    rewrite elem_of_reverse in Hc. by apply list_elem_of_filter in Hc as [_ ?]. }
  unfold mbind, M_bind.
  destruct (update_access_all_ok w 0%nat
    (memory_of <$> slice_to
       (reverse (filter (fun c => has_type type (experience_of c)) done)) limit)
    s Hok) as [db ->].
  by exists db.
Qed.

(** C5 (as amended). Recency retrieval: after a sequence of
    [record_experience] calls on a fresh system that all return, with
    distinct ids and timestamps that do not decrease, for every
    [limit >= 0] and every type filter that is absent or a non-empty
    string, [recall_recent] returns the experiences of the [limit] most
    recently recorded memories (of that type, when one is given), the
    latest first, which is by timestamp descending; it returns all of them
    when there are fewer, and none for a type that no call used. *)
Theorem recall_recent_most_recent cs s exps w limit type :
  record_calls cs fresh = (s, Ok exps) ->
  NoDup (call_id <$> cs) ->
  Sorted (fun e1 e2 : Experience Payload =>
            String.le (Experience.timestamp e1) (Experience.timestamp e2)) exps ->
  0 <= limit ->
  type <> Some EmptyString ->
  (forall k, sqlite_ok w k = true) ->
  exists s' memories,
    recall_recent w limit type s = (s', Ok memories)
    /\ Memory.experience <$> memories
       = take (Z.to_nat limit) (reverse (filter (has_type type) exps))
    /\ StronglySorted
         (fun e1 e2 : Experience Payload =>
            String.le (Experience.timestamp e2) (Experience.timestamp e1))
         (Memory.experience <$> memories).
Proof.
  intros Hrun Hnd Hts Hlimit Htype Hok.
  destruct (record_calls_recorded cs [] [] fresh s exps recorded_fresh
              (fun _ => by_importance_nil) Hnd Hrun) as (-> & order & Hrec & _).
  simpl in Hrec.
  destruct (recall_recent_recorded _ _ _ w limit type Hrec Hnd Hok Htype)
    as [db Hrecall].
  eexists _, _. split; [exact Hrecall|].
  assert (Hexps : Memory.experience <$> (memory_of <$>
            slice_to (reverse (filter
              (fun c => has_type type (experience_of c)) cs)) limit)
          = take (Z.to_nat limit)
              (reverse (filter (has_type type) (experience_of <$> cs)))).
  { rewrite <- list_fmap_compose.
    unfold slice_to. rewrite (proj2 (Z.leb_le _ _) Hlimit).
    rewrite fmap_take, fmap_reverse, filter_fmap. done. }
  rewrite Hexps. split; [done|].
  eapply StronglySorted_sublist; [apply sublist_take|].
  apply (StronglySorted_reverse
           (fun e1 e2 : Experience Payload =>
              String.le (Experience.timestamp e1) (Experience.timestamp e2))).
  eapply StronglySorted_sublist; [apply sublist_filter|].
  apply Sorted_StronglySorted; [|done].
  intros e1 e2 e3. apply (transitivity (R := String.le)).
Qed.

(** C6. Importance retrieval is sorted and stable: after a sequence of
    [record_experience] calls on a fresh system that all return, with
    distinct ids and importances that are numbers, [recall_important]
    returns, for every [limit], memories whose importances do not
    increase, and of two returned memories of equal importance the one
    that comes first was recorded first. The insert puts a new id before
    the first id of the importance index whose importance is strictly
    less, after the ids before that one, none of which has an
    importance that the new one exceeds. *)
Theorem recall_important_sorted_stable :
  (forall cs s exps w limit,
     record_calls cs fresh = (s, Ok exps) ->
     NoDup (call_id <$> cs) ->
     Forall (fun c => Float.is_nan (Call.importance c) = false) cs ->
     (forall k, sqlite_ok w k = true) ->
     exists s' memories,
       recall_important w limit s = (s', Ok memories)
       /\ length memories = length (slice_to cs limit)
       /\ StronglySorted
            (fun m1 m2 : Memory Payload =>
               Float.leb (importance_of_memory m2) (importance_of_memory m1) = true)
            memories
       /\ (forall m1 m2,
             before m1 m2 memories ->
             Float.eqb (importance_of_memory m1) (importance_of_memory m2) = true ->
             before (Memory.experience m1) (Memory.experience m2) exps))
  /\ (forall (sem : PyDict.t (Memory Payload)) importance memory_id index index',
        insert_before_less sem importance memory_id index = Ok index' ->
        exists l1 l2,
          index = l1 ++ l2 /\ index' = l1 ++ memory_id :: l2
          /\ (forall mid, mid ∈ l1 ->
                exists i, importance_of sem mid = Some i
                          /\ Float.gtb importance i = false)
          /\ (forall mid, head l2 = Some mid ->
                exists i, importance_of sem mid = Some i
                          /\ Float.gtb importance i = true)).
Proof.
  split; [|apply insert_before_less_spec].
  intros cs s exps w limit Hrun Hnd Hnan Hok.
  destruct (record_calls_recorded cs [] [] fresh s exps recorded_fresh
              (fun _ => by_importance_nil) Hnd Hrun) as (-> & order & Hrec & Himp).
  simpl in Hrec, Himp. destruct (Himp Hnan) as [Hsorted Hstable].
  destruct (recall_important_recorded _ _ _ w limit Hrec Hnd Hok) as [db Hrecall].
  pose proof Hrec as (_ & _ & _ & Hperm & _).
  eexists _, _. split; [exact Hrecall|]. split_and!.
  - rewrite length_fmap. apply slice_to_length. by rewrite Hperm.
  - apply (StronglySorted_fmap _
             (fun c1 c2 => Float.leb (Call.importance c2) (Call.importance c1) = true));
      [done|].
    eapply StronglySorted_sublist; [apply slice_to_sublist|done].
  - intros m1 m2 Hbefore Heq. unfold before in *.
    apply sublist_fmap_inv in Hbefore as (pair & Hpair & Hsub).
    destruct pair as [|c1 [|c2 [|? ?]]]; simplify_eq/=.
    change [experience_of c1; experience_of c2]
      with (experience_of <$> [c1; c2]).
    apply fmap_sublist.
    assert (Hc1 : Float.is_nan (Call.importance c1) = false).
    { rewrite Forall_forall in Hnan. apply Hnan. rewrite <- Hperm.
      eapply elem_of_sublist; [|apply slice_to_sublist].
      eapply elem_of_sublist; [|exact Hsub]. by left. }
    set (P := fun c : Call Payload =>
                Float.eqb (Call.importance c) (Call.importance c1) = true).
    assert (Hfilter : filter P [c1; c2] = [c1; c2]).
    { apply filter_all. repeat constructor; unfold P.
      - by apply eqb_refl.
      - rewrite eqb_sym. exact Heq. }
    rewrite <- Hfilter.
    etransitivity; [|apply (sublist_filter P)].
    unfold P. rewrite <- Hstable.
    apply sublist_filter_mono.
    etransitivity; [exact Hsub | apply slice_to_sublist].
Qed.
End Sequence.

(** ** The retrievals on the examples *)

Lemma NoDup_a_b : NoDup (call_id <$> [Example.call_a; Example.call_b]).
Proof.
  change (NoDup ["a"; "b"]).
  repeat (apply NoDup_cons; split;
          [rewrite ?elem_of_cons, elem_of_nil; intuition discriminate|]).
  apply NoDup_nil_2.
Qed.

Lemma record_a_b :
  record_calls [Example.call_a; Example.call_b] Example.empty_system
  = (Example.two_memories,
     Ok (experience_of <$> [Example.call_a; Example.call_b])).
Proof. vm_compute. reflexivity. Qed.

(** Against C5 as stated: with the empty string as the type filter,
    [recall_recent] returns the experience of the type [x] as well; the
    result is not restricted to the type that was given. *)
Lemma recall_recent_empty_type_unfiltered :
  (Experience.type ∘ Memory.experience)
    <$> default []
          (match (recall_recent (Example.world "" "2024-01-02T09:00:00" [])
                    5 (Some EmptyString) Example.untyped).2 with
           | Ok memories => Some memories
           | Raise _ => None
           end)
  = ["x"; EmptyString].
Proof. by vm_compute. Qed.

(** The amended C5 on the two recorded experiences: the latest
    experience of the type [action]. *)
Lemma recall_recent_most_recent_witness :
  exists s' memories,
    recall_recent (Example.world "" "2024-01-02T09:00:00" []) 1 (Some "action")
      Example.two_memories = (s', Ok memories)
    /\ Memory.experience <$> memories = [experience_of Example.call_b].
Proof.
  destruct (recall_recent_most_recent [Example.call_a; Example.call_b]
              Example.two_memories
              (experience_of <$> [Example.call_a; Example.call_b])
              (Example.world "" "2024-01-02T09:00:00" []) 1 (Some "action"))
    as (s' & memories & Hrun & Hexps & _).
  - exact record_a_b.
  - exact NoDup_a_b.
  - repeat constructor.
  - lia.
  - discriminate.
  - reflexivity.
  - exists s', memories. split; [exact Hrun|]. rewrite Hexps. reflexivity.
Defined.

(** C6 on the two recorded experiences: [b], of importance 2, comes
    before [a], of importance 1. *)
Lemma recall_important_sorted_stable_witness :
  exists s' memories,
    recall_important (Example.world "" "2024-01-02T09:00:00" []) 5
      Example.two_memories = (s', Ok memories)
    /\ length memories = 2%nat
    /\ StronglySorted
         (fun m1 m2 : Memory Example.Payload =>
            Float.leb (importance_of_memory m2) (importance_of_memory m1) = true)
         memories.
Proof.
  destruct (proj1 recall_important_sorted_stable
              [Example.call_a; Example.call_b] Example.two_memories
              (experience_of <$> [Example.call_a; Example.call_b])
              (Example.world "" "2024-01-02T09:00:00" []) 5)
    as (s' & memories & Hrun & Hlen & Hsorted & _).
  - exact record_a_b.
  - exact NoDup_a_b.
  - repeat constructor.
  - reflexivity.
  - exists s', memories. split_and!; [exact Hrun|exact Hlen|exact Hsorted].
Defined.

(** ** Loading: [load_memories] *)

Section StringOrder.
Implicit Types a b : string.

Lemma string_compare_refl a : String.compare a a = Eq.
Proof.
  pose proof (String.compare_antisym a a) as Hc.
  by destruct (String.compare a a).
Qed.

Lemma string_ltb_irrefl a : String.ltb a a = false.
Proof. unfold String.ltb. by rewrite string_compare_refl. Qed.

Lemma string_ltb_le a b : String.ltb a b = true -> String.le a b.
Proof.
  unfold String.ltb, String.le, String.leb.
  by destruct (String.compare a b).
Qed.

Lemma string_not_ltb_le a b : String.ltb a b = false -> String.le b a.
Proof.
  unfold String.ltb, String.le, String.leb.
  rewrite (String.compare_antisym a b).
  by destruct (String.compare b a).
Qed.
End StringOrder.

Section SortFacts.
Context {A : Type}.
Implicit Types (x y : string * A) (l : list (string * A)).

Lemma insert_desc_perm x l : insert_desc String.ltb x l ≡ₚ x :: l.
Proof.
  induction l as [|y l IH]; simpl; [done|].
  destruct (String.ltb x.1 y.1); [|done].
  by rewrite IH, Permutation_swap.
Qed.

Lemma sort_reverse_perm l : sort_reverse String.ltb l ≡ₚ l.
Proof.
  unfold sort_reverse. induction l as [|x l IH]; simpl; [done|].
  by rewrite insert_desc_perm, IH.
Qed.

Lemma insert_desc_sorted x l :
  StronglySorted (fun x y => String.le y.1 x.1) l ->
  StronglySorted (fun x y => String.le y.1 x.1) (insert_desc String.ltb x l).
Proof.
  induction 1 as [|y l Hs IH Hy]; simpl; [repeat constructor|].
  destruct (String.ltb x.1 y.1) eqn:Hlt.
  - constructor; [done|]. rewrite insert_desc_perm.
    constructor; [by apply string_ltb_le | done].
  - constructor; [by constructor|].
    apply string_not_ltb_le in Hlt. constructor; [done|].
    eapply Forall_impl; [exact Hy|]. intros z Hz. simpl in *. by etrans.
Qed.

Lemma sort_reverse_sorted l :
  StronglySorted (fun x y => String.le y.1 x.1) (sort_reverse String.ltb l).
Proof.
  unfold sort_reverse. induction l as [|x l IH]; simpl; [constructor|].
  by apply insert_desc_sorted.
Qed.

(** The sort is stable: the elements of one key keep their order. *)
Lemma insert_desc_stable k x l :
  filter (fun y => y.1 = k) (insert_desc String.ltb x l)
  = filter (fun y => y.1 = k) (x :: l).
Proof.
  induction l as [|y l IH]; simpl; [done|].
  destruct (String.ltb x.1 y.1) eqn:Hlt; [|done].
  rewrite filter_cons, IH, !filter_cons.
  destruct (decide (y.1 = k)) as [Hy|Hy], (decide (x.1 = k)) as [Hx|Hx]; try done.
  rewrite Hx, Hy, string_ltb_irrefl in Hlt. done.
Qed.

Lemma sort_reverse_stable k l :
  filter (fun y => y.1 = k) (sort_reverse String.ltb l)
  = filter (fun y => y.1 = k) l.
Proof.
  unfold sort_reverse. induction l as [|x l IH]; simpl; [done|].
  by rewrite insert_desc_stable, !filter_cons, IH.
Qed.

(** The sort moves the elements by their keys only. *)
Lemma insert_desc_fmap {B} (f : A -> B) x l :
  insert_desc String.ltb (prod_map id f x) (prod_map id f <$> l)
  = prod_map id f <$> insert_desc String.ltb x l.
Proof.
  induction l as [|y l IH]; [done|].
  rewrite fmap_cons. simpl insert_desc.
  destruct (String.ltb x.1 y.1); [|done]. by rewrite fmap_cons, <- IH.
Qed.

Lemma sort_reverse_fmap {B} (f : A -> B) l :
  sort_reverse String.ltb (prod_map id f <$> l)
  = prod_map id f <$> sort_reverse String.ltb l.
Proof.
  unfold sort_reverse. induction l as [|x l IH]; [done|].
  rewrite fmap_cons. simpl foldr. by rewrite <- insert_desc_fmap, <- IH.
Qed.
End SortFacts.

Section ByTimestamp.
Context {Payload : Type}.
Implicit Types (m : Memory Payload) (l : list (Memory Payload)).

Lemma StronglySorted_fmap_inv {A B} (f : A -> B) (R : relation B) (l : list A) :
  StronglySorted R (f <$> l) -> StronglySorted (fun a b => R (f a) (f b)) l.
Proof.
  induction l as [|a l IH]; [constructor|].
  rewrite fmap_cons, !StronglySorted_cons, Forall_fmap. intros [? ?]. auto.
Qed.

Lemma sort_keyed l :
  sort_reverse String.ltb ((fun m => (timestamp_of m, m)) <$> l)
  = (fun m => (timestamp_of m, m)) <$> by_timestamp l.
Proof.
  unfold by_timestamp.
  pose proof (sort_reverse_perm ((fun m => (timestamp_of m, m)) <$> l)) as Hperm.
  assert (Hkeys : Forall (fun x : string * Memory Payload => x = (timestamp_of x.2, x.2))
                    (sort_reverse String.ltb ((fun m => (timestamp_of m, m)) <$> l))).
  { rewrite Hperm. apply Forall_fmap, Forall_true. done. }
  clear Hperm.
  generalize dependent (sort_reverse String.ltb ((fun m => (timestamp_of m, m)) <$> l)).
  intros L. induction 1 as [|x L Hx _ IH]; [done|].
  rewrite !fmap_cons, <- IH. by rewrite <- Hx.
Qed.

Lemma by_timestamp_perm l : by_timestamp l ≡ₚ l.
Proof.
  unfold by_timestamp. rewrite sort_reverse_perm, <- list_fmap_compose.
  by rewrite list_fmap_id.
Qed.

Lemma by_timestamp_sorted l :
  StronglySorted (fun m1 m2 => String.le (timestamp_of m2) (timestamp_of m1))
    (by_timestamp l).
Proof.
  pose proof (sort_reverse_sorted ((fun m => (timestamp_of m, m)) <$> l)) as Hs.
  rewrite sort_keyed in Hs. by apply StronglySorted_fmap_inv in Hs.
Qed.

Lemma by_timestamp_stable k l :
  filter (fun m => timestamp_of m = k) (by_timestamp l)
  = filter (fun m => timestamp_of m = k) l.
Proof.
  pose proof (sort_reverse_stable k ((fun m => (timestamp_of m, m)) <$> l)) as Hs.
  rewrite sort_keyed, !filter_fmap in Hs. simpl in Hs.
  apply (f_equal (fmap snd)) in Hs.
  by rewrite <- !list_fmap_compose, !list_fmap_id in Hs.
Qed.

(** Memories of one timestamp keep the order in which they came. *)
Lemma by_timestamp_ties m1 m2 l :
  before m1 m2 (by_timestamp l) -> timestamp_of m1 = timestamp_of m2 ->
  before m1 m2 l.
Proof.
  unfold before. intros Hsub Heq.
  set (P := fun m => timestamp_of m = timestamp_of m1).
  assert (Hfilter : filter P [m1; m2] = [m1; m2]).
  { apply filter_all. by repeat constructor. }
  rewrite <- Hfilter. etransitivity; [|apply (sublist_filter P)].
  unfold P. rewrite <- (by_timestamp_stable _ l). by apply sublist_filter_mono.
Qed.

(** Where no two timestamps are equal, the order in which the memories
    came does not matter. *)
Lemma by_timestamp_unique l1 l2 :
  l1 ≡ₚ l2 -> NoDup (timestamp_of <$> l1) -> by_timestamp l1 = by_timestamp l2.
Proof.
  intros Hperm Hnd.
  apply (StronglySorted_unique_strong
           (fun m1 m2 => String.le (timestamp_of m2) (timestamp_of m1))).
  - intros m1 m2 Hm1 Hm2 H12 H21.
    assert (Heq : timestamp_of m1 = timestamp_of m2).
    { by apply (anti_symm String.le). }
    rewrite by_timestamp_perm in Hm1, Hm2. rewrite <- Hperm in Hm2.
    apply list_elem_of_lookup in Hm1 as [i Hi], Hm2 as [j Hj].
    assert (i = j) as ->; [|congruence].
    eapply NoDup_lookup; [exact Hnd|..]; rewrite list_lookup_fmap.
    + by rewrite Hi.
    + rewrite Hj. simpl. by rewrite Heq.
  - apply by_timestamp_sorted.
  - apply by_timestamp_sorted.
  - by rewrite !by_timestamp_perm.
Qed.
End ByTimestamp.

Section Load.
Context {Payload : Type} `{Empty Payload}.
Context `{!Json Payload, !Json (list string),
          !Json (gmap string (list string)), !Json (list float)}.
Import MemorySystem.
Implicit Types (m : Memory Payload) (done l : list (Memory Payload)).
Implicit Types (s : MemorySystem Payload).

Lemma keys_loaded done :
  PyDict.keys ((fun m => (memory_id m, m)) <$> done) = memory_id <$> done.
Proof. unfold PyDict.keys. by rewrite <- list_fmap_compose. Qed.

Lemma get_loaded done m :
  NoDup (memory_id <$> done) -> m ∈ done ->
  PyDict.get (memory_id m) ((fun m => (memory_id m, m)) <$> done) = Some m.
Proof.
  induction done as [|d done IH]; intros Hnd Hin.
  - by apply elem_of_nil in Hin.
  - rewrite fmap_cons in Hnd. apply NoDup_cons in Hnd as [Hd Hnd].
    rewrite fmap_cons. simpl.
    destruct (decide (memory_id m = memory_id d)) as [Heq|Hne].
    + apply elem_of_cons in Hin as [->|Hin]; [done|].
      exfalso. apply Hd. rewrite <- Heq. by apply list_elem_of_fmap_2.
    + apply elem_of_cons in Hin as [->|Hin]; [done|]. by apply IH.
Qed.

Lemma keys_set {V} k (v : V) (d : PyDict.t V) :
  PyDict.keys (PyDict.set k v d)
  = match PyDict.get k d with
    | Some _ => PyDict.keys d
    | None => PyDict.keys d ++ [k]
    end.
Proof.
  destruct (PyDict.get k d) eqn:Hk.
  - apply keys_set_present. eauto.
  - rewrite (set_fresh _ _ _ Hk). unfold PyDict.keys. by rewrite fmap_app.
Qed.

(** The body of the loop "Rebuild indices" in one step. *)
Lemma rebuild_one_run m s index' :
  insert_before_less (PyDict.set (memory_id m) m (semantic_index s))
    (importance_of_memory m) (memory_id m) (importance_index s) = Ok index' ->
  rebuild_one m s
  = (mk (PyDict.set (memory_id m) m (semantic_index s))
        (temporal_index s ++ [memory_id m]) index'
        (PyDict.set (memory_type m)
           (default [] (PyDict.get (memory_type m) (type_index s)) ++ [memory_id m])
           (type_index s))
        (storage s),
     Ok ()).
Proof.
  intros Hidx.
  unfold rebuild_one, _insert_sorted_by_importance.
  unfold mbind, M_bind, mret, M_ret, get_self, lift, modify, PyDict.getitem; simpl.
  rewrite get_set_eq; simpl.
  fold (memory_id m) (importance_of_memory m). rewrite Hidx; simpl.
  unfold PyDict.contains. fold (memory_type m).
  destruct (PyDict.get (memory_type m) (type_index s)) as [bucket|] eqn:Hb; simpl.
  - by rewrite Hb.
  - rewrite get_set_eq. simpl. by rewrite set_set.
Qed.

Lemma rebuilt_nil db : rebuilt [] (mk (@PyDict.empty (Memory Payload)) [] [] PyDict.empty db).
Proof. split_and!; try done. constructor. Qed.

Lemma rebuild_one_rebuilt done m s :
  rebuilt done s ->
  memory_id m ∉ memory_id <$> done ->
  exists s',
    rebuild_one m s = (s', Ok ())
    /\ rebuilt (done ++ [m]) s'
    /\ storage s' = storage s.
Proof.
  intros (Hsem & Htemp & Himp & Hkeys & Hty) Hfresh.
  destruct (insert_before_less_ok
              (PyDict.set (memory_id m) m (semantic_index s))
              (importance_of_memory m) (memory_id m) (importance_index s))
    as [index' Hidx].
  { intros mid Hin. apply keys_set_mono. rewrite Hsem, keys_loaded.
    by rewrite <- Himp. }
  eexists. split; [exact (rebuild_one_run _ _ _ Hidx)|]. split; [|done].
  assert (Hnone : PyDict.get (memory_id m) (semantic_index s) = None).
  { apply get_None_keys. by rewrite Hsem, keys_loaded. }
  split_and!; simpl.
  - by rewrite (set_fresh _ _ _ Hnone), Hsem, fmap_app.
  - by rewrite Htemp, fmap_app.
  - destruct (insert_before_less_spec _ _ _ _ _ Hidx) as (l1 & l2 & Hl & -> & _).
    rewrite <- Permutation_middle, <- Hl, Himp, fmap_app. simpl.
    apply Permutation_cons_append.
  - rewrite keys_set.
    destruct (PyDict.get (memory_type m) (type_index s)) eqn:Hb; [done|].
    apply NoDup_app. split_and!; [done| |apply NoDup_singleton].
    intros t Ht ->%list_elem_of_singleton. by apply get_None_keys in Hb.
  - intros t. rewrite get_set, filter_app.
    destruct (decide (t = memory_type m)) as [->|Hne].
    + rewrite filter_cons_True by done. rewrite filter_nil.
      rewrite decide_False by (by intros ?%app_eq_nil%proj2).
      f_equal. rewrite fmap_app. f_equal.
      rewrite Hty. case_decide as Hnil; [by rewrite Hnil|done].
    + rewrite filter_cons_False by done. rewrite filter_nil, app_nil_r.
      by rewrite Hty.
Qed.

Lemma rebuild_all_rebuilt l done s :
  rebuilt done s ->
  NoDup (memory_id <$> (done ++ l)) ->
  exists s',
    rebuild_all l s = (s', Ok ())
    /\ rebuilt (done ++ l) s'
    /\ storage s' = storage s.
Proof.
  revert done s. induction l as [|m l IH]; intros done s Hreb Hnd; simpl.
  - exists s. by rewrite app_nil_r.
  - replace (done ++ m :: l) with ((done ++ [m]) ++ l) in *
      by (by rewrite <- app_assoc).
    destruct (rebuild_one_rebuilt done m s Hreb) as (s1 & Hone & Hreb1 & Hdb1).
    { rewrite !fmap_app in Hnd. apply NoDup_app in Hnd as (Hnd & _ & _).
      apply NoDup_app in Hnd as (_ & Hnd & _).
      intros Hin. apply (Hnd _ Hin). by left. }
    destruct (IH (done ++ [m]) s1 Hreb1 Hnd) as (s2 & Hall & Hreb2 & Hdb2).
    exists s2. unfold mbind, M_bind. rewrite Hone, Hall.
    split_and!; [done|done|congruence].
Qed.

(** The sorts of [load_memories] on ids whose memories the semantic map
    holds. *)
Lemma sort_by_timestamp_loaded done l :
  NoDup (memory_id <$> done) -> (forall m, m ∈ l -> m ∈ done) ->
  sort_by_timestamp ((fun m => (memory_id m, m)) <$> done) (memory_id <$> l)
  = Ok (memory_id <$> by_timestamp l).
Proof.
  intros Hnd Hin. unfold sort_by_timestamp.
  assert (Hkeys :
    for_each (fun x => m ← PyDict.getitem x ((fun m => (memory_id m, m)) <$> done);
                       mret (Experience.timestamp (Memory.experience m), x))
      (memory_id <$> l)
    = Ok (prod_map id memory_id <$> ((fun m => (timestamp_of m, m)) <$> l))).
  { induction l as [|m l IH]; [done|].
    rewrite !fmap_cons. simpl. unfold PyDict.getitem at 1.
    rewrite get_loaded; [|done|apply Hin; by left]. simpl.
    rewrite IH; [done|]. intros; apply Hin. by right. }
  rewrite Hkeys. unfold mbind, result_bind, mret, result_ret. f_equal.
  rewrite sort_reverse_fmap. unfold by_timestamp.
  rewrite <- !list_fmap_compose. apply list_fmap_ext. by intros ? [? ?].
Qed.

(** The loop that sorts the buckets, over types that are not sorted
    yet. *)
Lemma sort_buckets_run types sorted done s :
  semantic_index s = (fun m => (memory_id m, m)) <$> done ->
  NoDup (memory_id <$> done) ->
  buckets_sorted sorted done s ->
  NoDup (sorted ++ types) ->
  (forall t, t ∈ types -> filter (fun m => memory_type m = t) done <> []) ->
  exists s',
    sort_buckets types s = (s', Ok ())
    /\ semantic_index s' = semantic_index s
    /\ temporal_index s' = temporal_index s
    /\ importance_index s' = importance_index s
    /\ storage s' = storage s
    /\ buckets_sorted (sorted ++ types) done s'.
Proof.
  revert sorted s. induction types as [|t types IH]; intros sorted s Hsem Hnd Hb Htypes Hpresent; simpl.
  - exists s. by rewrite app_nil_r.
  - replace (sorted ++ t :: types) with ((sorted ++ [t]) ++ types) in *
      by (by rewrite <- app_assoc).
    assert (Ht : t ∉ sorted).
    { apply NoDup_app in Htypes as (Hn & _ & _).
      apply NoDup_app in Hn as (_ & Hn & _). intros Hin. apply (Hn _ Hin). by left. }
    unfold mbind at 1, M_bind at 1, get_self at 1.
    unfold mbind at 1, M_bind at 1, lift at 1, PyDict.getitem.
    rewrite (Hb t), decide_False by (apply Hpresent; by left).
    rewrite decide_False by done.
    unfold mbind at 1, M_bind at 1, lift at 1.
    rewrite Hsem, sort_by_timestamp_loaded; [|done|]; cycle 1.
    { intros m Hm. by apply list_elem_of_filter in Hm as [_ ?]. }
    unfold mbind at 1, M_bind at 1, modify at 1.
    match goal with
    | |- context [sort_buckets types ?s1] =>
        destruct (IH (sorted ++ [t]) s1) as (s' & Hrun & Hs1 & Hs2 & Hs3 & Hs4 & Hb')
    end; simpl; [done|done| |done| |].
    + intros t'. simpl. rewrite get_set.
      destruct (decide (t' = t)) as [->|Hne].
      * rewrite decide_False by (apply Hpresent; by left).
        rewrite decide_True by (apply elem_of_app; right; by left). done.
      * rewrite (Hb t'). case_decide; [done|]. do 2 f_equal.
        destruct (decide (t' ∈ sorted)) as [Hin|Hout].
        -- rewrite decide_True by (apply elem_of_app; by left). done.
        -- rewrite decide_False; [done|].
           rewrite elem_of_app, list_elem_of_singleton. tauto.
    + intros t' Ht'. apply Hpresent. by right.
    + exists s'. rewrite Hrun. simpl in Hs1, Hs2, Hs3, Hs4.
      split_and!; try done. congruence.
Qed.

(** C7 (as amended). After [load_memories] over memories with distinct
    ids, the temporal index and every type bucket hold the ids of the
    memories (of the type) in the order [by_timestamp]: a permutation of
    what storage supplied, sorted by timestamp descending, in which
    memories of equal timestamps keep the order in which storage supplied
    them; there is no tie-break on the id. The order is the same for two
    orders of supply when no two timestamps are equal. *)
Theorem load_memories_order :
  (forall w (s : MemorySystem Payload) memories,
     load_all_memories (sqlite_ok w 0) (storage s) = Ok memories ->
     NoDup (memory_id <$> memories) ->
     exists s',
       load_memories w s = (s', Ok ())
       /\ temporal_index s' = memory_id <$> by_timestamp memories
       /\ (forall t,
             PyDict.get t (type_index s')
             = if decide (filter (fun m => memory_type m = t) memories = [])
               then None
               else Some (memory_id
                            <$> by_timestamp
                                  (filter (fun m => memory_type m = t) memories))))
  /\ (forall l : list (Memory Payload),
        by_timestamp l ≡ₚ l
        /\ StronglySorted
             (fun m1 m2 => String.le (timestamp_of m2) (timestamp_of m1))
             (by_timestamp l)
        /\ (forall m1 m2,
              before m1 m2 (by_timestamp l) ->
              timestamp_of m1 = timestamp_of m2 -> before m1 m2 l))
  /\ (forall l1 l2 : list (Memory Payload),
        l1 ≡ₚ l2 -> NoDup (timestamp_of <$> l1) ->
        by_timestamp l1 = by_timestamp l2).
Proof.
  split_and!.
  - intros w s memories Hload Hnd.
    unfold load_memories.
    unfold mbind at 1, M_bind at 1, get_self at 1.
    unfold mbind at 1, M_bind at 1, lift at 1. rewrite Hload.
    unfold mbind at 1, M_bind at 1, modify at 1.
    destruct (rebuild_all_rebuilt memories []
                (mk PyDict.empty [] [] PyDict.empty (storage s))
                (rebuilt_nil (storage s)) Hnd)
      as (s1 & Hall & (Hsem & Htemp & Himp & Hkeys & Hty) & Hdb).
    simpl in Hsem, Htemp, Himp, Hty.
    unfold mbind at 1, M_bind at 1. rewrite Hall.
    unfold mbind at 1, M_bind at 1, get_self at 1.
    unfold mbind at 1, M_bind at 1, lift at 1.
    rewrite Hsem, Htemp, sort_by_timestamp_loaded by done.
    unfold mbind at 1, M_bind at 1, modify at 1.
    unfold mbind at 1, M_bind at 1, get_self at 1. simpl.
    assert (Hb0 : buckets_sorted [] memories
                    (set_temporal_index (memory_id <$> by_timestamp memories) s1)).
    { intros t. simpl. rewrite Hty. by case_decide. }
    assert (Hpresent : forall t, t ∈ PyDict.keys (type_index s1) ->
              filter (fun m => memory_type m = t) memories <> []).
    { intros t Ht%get_Some_keys. rewrite Hty in Ht. case_decide; [|done].
      by destruct Ht. }
    destruct (sort_buckets_run (PyDict.keys (type_index s1)) [] memories
                (set_temporal_index (memory_id <$> by_timestamp memories) s1)
                Hsem Hnd Hb0 Hkeys Hpresent)
      as (s' & Hrun & _ & Htemp' & _ & _ & Hb).
    simpl in Hb, Htemp'.
    exists s'. split_and!; [done|done|].
    intros t. rewrite (Hb t). case_decide as Hnil; [done|].
    rewrite decide_True; [done|]. simpl.
    apply get_Some_keys. rewrite Hty, decide_False by done. eauto.
  - intros l. split_and!.
    + apply by_timestamp_perm.
    + apply by_timestamp_sorted.
    + intros m1 m2. apply by_timestamp_ties.
  - apply by_timestamp_unique.
Qed.
End Load.

(** Against C7 as stated: two databases that hold the same two rows, of
    one timestamp, in the two orders, load into two different temporal
    indexes and type buckets; the id does not break the tie. *)
Lemma load_memories_follows_supply_order :
  StorageManager.memories Example.database_q_p
  = reverse (StorageManager.memories Example.database_p_q)
  /\ MemorySystem.temporal_index
       (__init__ (Payload := Example.Payload)
          (Example.world "" "2024-03-02T09:00:00" [])
          Example.database_p_q).1 = ["p"; "q"]
  /\ MemorySystem.temporal_index
       (__init__ (Payload := Example.Payload)
          (Example.world "" "2024-03-02T09:00:00" [])
          Example.database_q_p).1 = ["q"; "p"]
  /\ PyDict.get "action"
       (MemorySystem.type_index
          (__init__ (Payload := Example.Payload)
             (Example.world "" "2024-03-02T09:00:00" [])
             Example.database_p_q).1) = Some ["p"; "q"]
  /\ PyDict.get "action"
       (MemorySystem.type_index
          (__init__ (Payload := Example.Payload)
             (Example.world "" "2024-03-02T09:00:00" [])
             Example.database_q_p).1) = Some ["q"; "p"].
Proof. split_and!; by vm_compute. Qed.

(** The amended C7 on the first of the two databases. *)
Lemma load_memories_order_witness :
  exists s',
    load_memories (Example.world "" "2024-03-02T09:00:00" [])
      (MemorySystem.mk (Payload := Example.Payload) PyDict.empty [] []
         PyDict.empty Example.database_p_q)
    = (s', Ok ())
    /\ MemorySystem.temporal_index s' = ["p"; "q"].
Proof.
  destruct (proj1 load_memories_order
              (Example.world "" "2024-03-02T09:00:00" [])
              (MemorySystem.mk (Payload := Example.Payload) PyDict.empty [] []
                 PyDict.empty Example.database_p_q)
              Example.loaded_p_q)
    as (s' & Hrun & Htemp & _).
  - vm_compute. reflexivity.
  - change (NoDup ["p"; "q"]).
    repeat (apply NoDup_cons; split;
            [rewrite ?elem_of_cons, elem_of_nil; intuition discriminate|]).
    apply NoDup_nil_2.
  - exists s'. split; [exact Hrun|]. rewrite Htemp. reflexivity.
Defined.

(** * Further properties *)

(** ** The storage engine on its own *)

Section StorageFacts.
Context {Payload : Type}.
Context `{!Json Payload, !Json (list string),
          !Json (gmap string (list string)), !Json (list float)}.
Implicit Types (m memory : Memory Payload) (db : StorageManager.t).
Implicit Types (r : Row.t) (rows : list Row.t) (k mid : string).

Lemma memory_of_row_touch now r :
  memory_of_row (Payload := Payload) (Row.touch now r)
  = accessed now <$> memory_of_row r.
Proof.
  unfold memory_of_row. simpl.
  destruct (json_loads (Row.content r)); [|done]. simpl.
  destruct (json_loads (Row.metadata r)); [|done]. simpl.
  destruct (json_loads (Row.tags r)); [|done]. simpl.
  destruct (json_loads (Row.context r)); [|done]. simpl.
  destruct (json_loads (Row.relationships r)); [|done]. simpl.
  destruct (json_loads (Row.embedding r)); done.
Qed.

Lemma memory_of_row_columns r m :
  memory_of_row r = Ok m ->
  memory_id m = Row.id r
  /\ timestamp_of m = Row.timestamp r
  /\ memory_type m = Row.type r
  /\ importance_of_memory m = Row.importance r
  /\ Memory.last_accessed m = Row.last_accessed r
  /\ Memory.access_count m = Row.access_count r
  /\ Memory.emotional_valence m = Row.emotional_valence r
  /\ Memory.confidence m = Row.confidence r.
Proof.
  unfold memory_of_row.
  destruct (json_loads (Row.content r)); [|done]. simpl.
  destruct (json_loads (Row.metadata r)); [|done]. simpl.
  destruct (json_loads (Row.tags r)); [|done]. simpl.
  destruct (json_loads (Row.context r)); [|done]. simpl.
  destruct (json_loads (Row.relationships r)); [|done]. simpl.
  destruct (json_loads (Row.embedding r)); [|done]. simpl.
  intros [= <-]. done.
Qed.

Lemma for_each_cons_inv {A B} (f : A -> result B) a l bs :
  for_each f (a :: l) = Ok bs ->
  exists b bs', bs = b :: bs' /\ f a = Ok b /\ for_each f l = Ok bs'.
Proof.
  simpl. destruct (f a) as [b|]; [|done].
  destruct (for_each f l) as [bs'|]; [|done].
  intros [= <-]. eauto.
Qed.

Lemma for_each_raise {A B} (f : A -> result B) a l e :
  a ∈ l -> f a = Raise e -> exists e', for_each f l = Raise e'.
Proof.
  induction l as [|a' l IH]; [by intros ?%elem_of_nil|].
  intros [->|Hin]%elem_of_cons Ha; simpl.
  - rewrite Ha. eauto.
  - destruct (f a'); [|eauto]. destruct (IH Hin Ha) as [e' ->]. eauto.
Qed.

Lemma insert_or_replace_filter_eq r rows :
  filter (fun r' => Row.id r' = Row.id r) (insert_or_replace r rows) = [r].
Proof.
  unfold insert_or_replace. rewrite filter_app.
  rewrite Forall_filter_nil.
  - simpl. rewrite filter_cons, decide_True by done. done.
  - apply Forall_forall. intros r' Hr'.
    by apply list_elem_of_filter in Hr' as [? _].
Qed.

Lemma insert_or_replace_filter_ne r rows k :
  k <> Row.id r ->
  filter (fun r' => Row.id r' = k) (insert_or_replace r rows)
  = filter (fun r' => Row.id r' = k) rows.
Proof.
  intros Hk. unfold insert_or_replace. rewrite filter_app.
  rewrite (filter_cons _ r), decide_False by done. simpl. rewrite app_nil_r.
  induction rows as [|r' rows IH]; [done|].
  rewrite (filter_cons (fun r' => Row.id r' <> Row.id r)).
  destruct (decide (Row.id r' <> Row.id r)) as [Hne|Heq].
  - rewrite !(filter_cons (fun r' => Row.id r' = k)).
    destruct (decide (Row.id r' = k)); by rewrite IH.
  - rewrite (filter_cons (fun r' => Row.id r' = k) r'), decide_False; [done|].
    intros <-. by apply Heq.
Qed.

Lemma store_memory_rows ok memory db db' :
  store_memory ok memory db = Ok db' ->
  StorageManager.memories db'
  = insert_or_replace (row_of_memory memory) (StorageManager.memories db).
Proof.
  unfold store_memory. destruct ok; [|done]. simpl.
  destruct (int64_ok _); [|done]. simpl.
  destruct (not_null _); [|done]. simpl.
  by intros [= <-].
Qed.

(** X1. [update_access] with an id that no row carries is not an error:
    it returns and the database is what it was. *)
Theorem update_access_unknown_id now mid db :
  mid ∉ Row.id <$> StorageManager.memories db ->
  update_access true now mid db = Ok db.
Proof.
  intros Hout. unfold update_access. simpl. destruct db as [rows]. do 2 f_equal.
  simpl in *. induction rows as [|r rows IH]; [done|].
  rewrite fmap_cons, not_elem_of_cons in Hout. destruct Hout as [Hne Hout].
  rewrite fmap_cons, decide_False by done. f_equal. by apply IH.
Qed.

(** X2. What [load_all_memories] gives after an [update_access] is what
    it gave before, but for the memory of that id, which has one more
    access and the new time of the last access. *)
Theorem load_after_update_access ok now mid db db' memories :
  update_access ok now mid db = Ok db' ->
  load_all_memories true db = Ok memories ->
  load_all_memories true db'
  = Ok ((fun m => if decide (memory_id m = mid) then accessed now m else m)
          <$> memories).
Proof.
  unfold update_access, load_all_memories. destruct ok; [|done]. simpl.
  intros [= <-]. simpl. destruct db as [rows]. simpl.
  revert memories. induction rows as [|r rows IH]; intros memories Hload.
  - by injection Hload as <-.
  - apply for_each_cons_inv in Hload as (m & ms & -> & Hm & Hms).
    rewrite fmap_cons. simpl for_each.
    rewrite (IH ms Hms).
    destruct (memory_of_row_columns r m Hm) as (Hid & _).
    rewrite fmap_cons, Hid.
    destruct (decide (Row.id r = mid)).
    + by rewrite memory_of_row_touch, Hm.
    + by rewrite Hm.
Qed.

(** X3. [get_memory] returns the first of the memories that
    [load_all_memories] returns under the id, and [None] when there is
    none. *)
Theorem get_memory_first_loaded db memories k :
  load_all_memories true db = Ok memories ->
  get_memory true k db = Ok (head (filter (fun m => memory_id m = k) memories)).
Proof.
  unfold get_memory, load_all_memories. simpl. destruct db as [rows]. simpl.
  revert memories. induction rows as [|r rows IH]; intros memories Hload.
  - by injection Hload as <-.
  - apply for_each_cons_inv in Hload as (m & ms & -> & Hm & Hms).
    destruct (memory_of_row_columns r m Hm) as (Hid & _).
    rewrite !filter_cons, Hid.
    destruct (decide (Row.id r = k)).
    + by rewrite Hm.
    + by apply IH.
Qed.

(** X4. A malformed cell in one row makes [load_all_memories] raise,
    and [load_memories] with it, before any index is reset: the state of
    the system is what it was. *)
Theorem load_memories_malformed_row `{Empty Payload} w
    (s : MemorySystem Payload) r e :
  r ∈ StorageManager.memories (MemorySystem.storage s) ->
  memory_of_row (Payload := Payload) r = Raise e ->
  exists e',
    load_all_memories (Payload := Payload) (sqlite_ok w 0) (MemorySystem.storage s)
    = Raise e'
    /\ load_memories w s = (s, Raise e').
Proof.
  intros Hin Hr.
  assert (exists e', load_all_memories (Payload := Payload) (sqlite_ok w 0)
                       (MemorySystem.storage s) = Raise e') as [e' He'].
  { unfold load_all_memories. destruct (sqlite_ok w 0); simpl; [|eauto].
    by eapply for_each_raise. }
  exists e'. split; [done|].
  unfold load_memories.
  unfold mbind at 1, M_bind at 1, get_self at 1.
  unfold mbind at 1, M_bind at 1, lift at 1. by rewrite He'.
Qed.

(** X5. [store_memory] keeps the primary key: over rows of distinct ids
    it leaves rows of distinct ids, the row of the memory is the last
    one, the rows of the other ids are the ones that were there, and the
    number of rows grows by one exactly when the id is new. *)
Theorem store_memory_primary_key ok memory db db' :
  NoDup (Row.id <$> StorageManager.memories db) ->
  store_memory ok memory db = Ok db' ->
  NoDup (Row.id <$> StorageManager.memories db')
  /\ last (StorageManager.memories db') = Some (row_of_memory memory)
  /\ (forall r, Row.id r <> memory_id memory ->
        r ∈ StorageManager.memories db' <-> r ∈ StorageManager.memories db)
  /\ length (StorageManager.memories db')
     = if decide (memory_id memory ∈ Row.id <$> StorageManager.memories db)
       then length (StorageManager.memories db)
       else S (length (StorageManager.memories db)).
Proof.
  intros Hnd Hstore. rewrite (store_memory_rows _ _ _ _ Hstore).
  destruct db as [rows]. simpl in *. clear Hstore db'.
  unfold insert_or_replace.
  change (Row.id (row_of_memory memory)) with (memory_id memory).
  split_and!.
  - rewrite fmap_app. apply NoDup_app. split_and!.
    + eapply sublist_NoDup; [exact Hnd|]. apply fmap_sublist, sublist_filter.
    + intros x (r & -> & Hr)%list_elem_of_fmap Heq%list_elem_of_singleton.
      by apply list_elem_of_filter in Hr as [? _].
    + apply NoDup_singleton.
  - apply last_snoc.
  - intros r Hr. rewrite elem_of_app, list_elem_of_filter, list_elem_of_singleton.
    split; [|tauto]. intros [[_ ?]| ->]; [done|]. by destruct Hr.
  - rewrite length_app. simpl.
    induction rows as [|r rows IH]; [done|].
    rewrite fmap_cons in Hnd. apply NoDup_cons in Hnd as [Hr Hnd].
    specialize (IH Hnd). rewrite filter_cons. rewrite fmap_cons.
    destruct (decide (Row.id r <> memory_id memory)) as [Hne|Heq].
    + simpl. rewrite IH.
      destruct (decide (memory_id memory ∈ Row.id <$> rows)) as [Hin|Hout].
      * rewrite decide_True by (by right). done.
      * rewrite decide_False; [done|]. rewrite not_elem_of_cons. split; [congruence|done].
    + apply dec_stable in Heq. rewrite <- Heq in *.
      rewrite decide_True by (by left).
      rewrite decide_False in IH by done. simpl. lia.
Qed.

(** X6. The last write wins: storing a memory over a database into which
    a memory of the same id was just stored gives what storing it over
    the database before gives; in particular storing the same memory a
    second time changes nothing. *)
Theorem store_memory_last_write_wins ok1 ok2 m1 m2 db db1 :
  memory_id m1 = memory_id m2 ->
  store_memory ok1 m1 db = Ok db1 ->
  store_memory ok2 m2 db1 = store_memory ok2 m2 db.
Proof.
  intros Hid Hstore. apply store_memory_rows in Hstore.
  unfold store_memory. destruct ok2; [|done]. simpl.
  destruct (int64_ok _); [|done]. simpl.
  destruct (not_null _); [|done]. simpl.
  do 2 f_equal. rewrite Hstore. unfold insert_or_replace.
  change (Row.id (row_of_memory m1)) with (memory_id m1).
  change (Row.id (row_of_memory m2)) with (memory_id m2).
  rewrite Hid, filter_app, (filter_cons _ (row_of_memory m1)).
  change (Row.id (row_of_memory m1)) with (memory_id m1).
  rewrite decide_False by (intros Hne; by apply Hne).
  rewrite app_nil_r. f_equal.
  apply filter_all, Forall_forall. intros r Hr.
  by apply list_elem_of_filter in Hr as [? _].
Qed.

Section WithRoundTrip.
Context `{!JsonRoundTrip Payload, !JsonRoundTrip (list string),
          !JsonRoundTrip (gmap string (list string)),
          !JsonRoundTrip (list float)}.

(** X7. After [store_memory] has returned, [get_memory] under the id of
    the memory returns the memory as stored, and under any other id what
    it returned before. *)
Theorem get_memory_after_store ok memory db db' :
  store_memory ok memory db = Ok db' ->
  get_memory true (memory_id memory) db' = Ok (Some (as_stored memory))
  /\ (forall k, k <> memory_id memory ->
        get_memory (Payload := Payload) true k db' = get_memory true k db).
Proof.
  intros Hstore. apply store_memory_rows in Hstore.
  unfold get_memory. simpl. rewrite Hstore. split.
  - change (memory_id memory) with (Row.id (row_of_memory memory)).
    rewrite insert_or_replace_filter_eq, memory_of_row_of_memory. done.
  - intros k Hk. by rewrite insert_or_replace_filter_ne.
Qed.
End WithRoundTrip.
End StorageFacts.

(** X1 on the database of the examples, which has no row [z]. *)
Lemma update_access_unknown_id_witness :
  update_access true "2024-03-02T09:00:00" "z" Example.database_p_q
  = Ok Example.database_p_q.
Proof.
  apply update_access_unknown_id.
  apply (bool_decide_unpack _). vm_compute. exact I.
Defined.

(** X2 on the database of the examples, with an access to [p]. *)
Lemma load_after_update_access_witness :
  exists db',
    update_access true "2024-03-02T09:00:00" "p" Example.database_p_q = Ok db'
    /\ load_all_memories true db'
       = Ok ((fun m : Memory Example.Payload =>
                if decide (memory_id m = "p")
                then accessed "2024-03-02T09:00:00" m else m)
               <$> Example.loaded_p_q).
Proof.
  eexists. split; [reflexivity|].
  apply (load_after_update_access true "2024-03-02T09:00:00" "p"
           Example.database_p_q).
  - reflexivity.
  - vm_compute. reflexivity.
Defined.

(** X3 on the database of the examples. *)
Lemma get_memory_first_loaded_witness :
  get_memory true "p" Example.database_p_q = Ok (Some Sample.memory_p)
  /\ get_memory (Payload := Example.Payload) true "z" Example.database_p_q
     = Ok None.
Proof.
  split.
  - rewrite (get_memory_first_loaded Example.database_p_q Example.loaded_p_q "p").
    + vm_compute. reflexivity.
    + vm_compute. reflexivity.
  - rewrite (get_memory_first_loaded Example.database_p_q Example.loaded_p_q "z").
    + vm_compute. reflexivity.
    + vm_compute. reflexivity.
Defined.

(** X4 on a database with a malformed row: the indices of the system
    still hold [a] and [b]. *)
Lemma load_memories_malformed_row_witness :
  exists e',
    load_memories (Example.world "" "2024-03-02T09:00:00" []) Sample.over_malformed
    = (Sample.over_malformed, Raise e').
Proof.
  destruct (load_memories_malformed_row
              (Example.world "" "2024-03-02T09:00:00" [])
              Sample.over_malformed Sample.malformed_row JSONDecodeError)
    as (e' & _ & Hrun).
  - apply elem_of_app. right. apply list_elem_of_singleton. reflexivity.
  - vm_compute. reflexivity.
  - exists e'. exact Hrun.
Defined.

(** X5 with the memory [p] stored again over the database of the
    examples. *)
Lemma store_memory_primary_key_witness :
  exists db',
    store_memory true Sample.memory_p Example.database_p_q = Ok db'
    /\ NoDup (Row.id <$> StorageManager.memories db')
    /\ length (StorageManager.memories db') = 2%nat.
Proof.
  eexists. split; [reflexivity|].
  edestruct (store_memory_primary_key true Sample.memory_p Example.database_p_q)
    as (Hnd & _ & _ & Hlen).
  - apply (bool_decide_unpack _). vm_compute. exact I.
  - reflexivity.
  - split; [exact Hnd|]. rewrite Hlen. vm_compute. reflexivity.
Defined.

(** X6 with the memory [p] stored twice. *)
Lemma store_memory_last_write_wins_witness :
  exists db1,
    store_memory true Sample.memory_p Example.database_p_q = Ok db1
    /\ store_memory true Sample.memory_p db1 = Ok db1.
Proof.
  eexists. split; [reflexivity|].
  rewrite (store_memory_last_write_wins true true Sample.memory_p
             Sample.memory_p Example.database_p_q _ eq_refl eq_refl).
  reflexivity.
Defined.

(** X7 with the codec of the examples. *)
Lemma get_memory_after_store_witness :
  exists db',
    store_memory true Example.source_memory
      (MemorySystem.storage Example.two_memories) = Ok db'
    /\ get_memory true "a" db' = Ok (Some (as_stored Example.source_memory)).
Proof.
  eexists. split; [reflexivity|].
  apply (get_memory_after_store (JsonRoundTrip0 := codec_round_trip)
           (JsonRoundTrip1 := codec_round_trip)
           (JsonRoundTrip2 := codec_round_trip)
           (JsonRoundTrip3 := codec_round_trip)
           true Example.source_memory
           (MemorySystem.storage Example.two_memories)).
  reflexivity.
Defined.

(** ** The invariant of the indices *)

Section Invariant.
Context {Payload : Type} `{Empty Payload}.
Context `{!Json Payload, !Json (list string),
          !Json (gmap string (list string)), !Json (list float)}.
Import MemorySystem.
Implicit Types (s : MemorySystem Payload) (m : Memory Payload).

(** X8. [record_experience] keeps the ids of the indices among the keys
    of the semantic map, whether it returns or raises, and whatever
    raises in it. *)
Theorem record_experience_consistent w type content metadata tags importance
    context s :
  consistent s ->
  consistent
    (record_experience w type content metadata tags importance context s).1.
Proof.
  intros Hc. destruct (embedding_reply w) as [embedding|e] eqn:Hreply.
  - destruct (record_experience_indexes w type content metadata tags importance
                context s embedding Hc Hreply)
      as (s1 & Hrun & Hdb & Hsem & Htemp & (l1 & l2 & Hold & Hnew) & Hty).
    assert (Hc1 : consistent s1).
    { destruct Hc as (Ht & Hi & Hb).
      assert (Hid : uuid4 w ∈ PyDict.keys (semantic_index s1)).
      { apply get_Some_keys. rewrite Hsem, get_set_eq. eauto. }
      split_and!.
      - intros mid. rewrite Htemp. intros [->|Hin]%elem_of_cons; [done|].
        rewrite Hsem. by apply keys_set_mono, Ht.
      - intros mid. rewrite Hnew, elem_of_app, elem_of_cons.
        intros Hin. destruct (decide (mid = uuid4 w)) as [->|Hne]; [done|].
        rewrite Hsem. apply keys_set_mono, Hi. rewrite Hold, elem_of_app. tauto.
      - intros t bucket mid. rewrite Hty, get_set. case_decide as Heq.
        + intros [= <-] [->|Hin]%elem_of_cons; [done|].
          rewrite Hsem. apply keys_set_mono. subst t.
          destruct (PyDict.get type (type_index s)) as [old|] eqn:Hg; simpl in Hin.
          * by eapply Hb.
          * by apply elem_of_nil in Hin.
        + intros Hg Hin. rewrite Hsem. apply keys_set_mono. by eapply Hb. }
    rewrite Hrun. by destruct (store_memory _ _ _).
  - by rewrite (record_experience_no_embedding w type content metadata tags
                  importance context s e Hreply).
Qed.

(** X9. [connect_memories] keeps the same invariant, whether it returns
    or raises. *)
Theorem connect_memories_consistent w source_id target_id relationship s :
  consistent s ->
  consistent (connect_memories w source_id target_id relationship s).1.
Proof.
  intros Hc.
  destruct (PyDict.get source_id (semantic_index s)) as [m|] eqn:Ha; cycle 1.
  { destruct (connect_memories_missing w source_id target_id relationship s)
      as [k ->]; [by left|done]. }
  destruct (PyDict.get target_id (semantic_index s)) as [mt|] eqn:Hb; cycle 1.
  { destruct (connect_memories_missing w source_id target_id relationship s)
      as [k ->]; [by right|done]. }
  rewrite (connect_memories_run w source_id target_id relationship s m mt Ha Hb).
  match goal with
  | |- context [set_semantic_index ?d s] =>
      assert (Hc1 : consistent (set_semantic_index d s))
  end.
  { destruct Hc as (Ht & Hi & Hty). unfold consistent. simpl.
    rewrite keys_set_present by (rewrite Ha; eauto). done. }
  by destruct (store_memory _ _ _).
Qed.
End Invariant.

(** The system of the examples has the invariant. *)
Lemma consistent_two_memories : consistent Example.two_memories.
Proof.
  destruct (record_calls_recorded [Example.call_a; Example.call_b] [] []
              Example.empty_system Example.two_memories _
              recorded_fresh (fun _ => by_importance_nil) NoDup_a_b record_a_b)
    as (_ & order & Hrec & _).
  exact (recorded_consistent _ _ _ Hrec).
Qed.

(** X8 and X9 on the system of the examples, with a database that
    cannot be written. *)
Lemma record_experience_consistent_witness :
  consistent Example.after_failure.
Proof.
  apply (record_experience_consistent
           (Example.broken "a" "2024-01-01T10:00:00" [Example.f 1; Example.f 0])
           "perception" ∅ None None (Example.f 1) None Example.empty_system).
  apply consistent_fresh.
Defined.

Lemma connect_memories_consistent_witness :
  consistent
    (connect_memories (Example.broken "" "2024-01-01T12:00:00" []) "a" "b"
       "caused" Example.two_memories).1.
Proof.
  apply connect_memories_consistent.
  apply consistent_two_memories.
Defined.

(** ** The access statistics: the loops over [update_access] *)

Section AccessFacts.
Implicit Types (r : Row.t) (ids : list string) (mid : string).

Lemma access_recorded_nil r : access_recorded [] r r.
Proof.
  unfold access_recorded, same_but_access. split_and!; try done.
  unfold occurrences. simpl. lia.
Qed.

Lemma access_recorded_touch now mid r :
  access_recorded [mid] r (if decide (Row.id r = mid) then Row.touch now r else r).
Proof.
  unfold access_recorded, same_but_access. rewrite occurrences_cons.
  change (occurrences (Row.id r) []) with 0%nat.
  destruct (decide (Row.id r = mid)) as [Heq|Hne].
  - rewrite decide_True by done. simpl. split_and!; try done.
    intros Hout. exfalso. apply Hout. rewrite Heq. by left.
  - rewrite decide_False by congruence. split_and!; try done. simpl. lia.
Qed.

Lemma access_recorded_trans mid ids r r1 r' :
  access_recorded [mid] r r1 -> access_recorded ids r1 r' ->
  access_recorded (mid :: ids) r r'.
Proof.
  intros (Hs1 & Hc1 & Ho1) (Hs2 & Hc2 & Ho2).
  assert (Hid : Row.id r1 = Row.id r) by apply Hs1.
  rewrite Hid in *.
  split_and!.
  - unfold same_but_access in *.
    destruct Hs1 as (?&?&?&?&?&?&?&?&?&?&?&?).
    destruct Hs2 as (?&?&?&?&?&?&?&?&?&?&?&?).
    split_and!; congruence.
  - rewrite Hc2, Hc1, !occurrences_cons.
    change (occurrences (Row.id r) []) with 0%nat. lia.
  - intros Hout. apply not_elem_of_cons in Hout as [Hne Hout].
    rewrite (Ho2 Hout). apply Ho1.
    rewrite list_elem_of_singleton. done.
Qed.
End AccessFacts.

Section RecallFacts.
Context {Payload : Type} `{Empty Payload}.
Context `{!Json Payload, !Json (list string),
          !Json (gmap string (list string)), !Json (list float)}.
Import MemorySystem.
Implicit Types (s : MemorySystem Payload) (m : Memory Payload).
Implicit Types (sem : PyDict.t (Memory Payload)).

#[local] Existing Instance M_ret.
#[local] Existing Instance M_bind.

Lemma update_access_all_rows w n (memories : list (Memory Payload)) s :
  (forall k, sqlite_ok w k = true) ->
  exists db,
    update_access_all w n memories s = (set_storage db s, Ok ())
    /\ Forall2 (access_recorded (memory_id <$> memories))
         (StorageManager.memories (storage s)) (StorageManager.memories db).
Proof.
  intros Hok. revert n s. induction memories as [|m ms IH]; intros n s.
  - exists (storage s). split; [by destruct s|].
    apply Forall_Forall2_diag, Forall_forall. intros r _.
    apply access_recorded_nil.
  - simpl update_access_all.
    unfold mbind at 1, M_bind at 1, with_storage at 1, update_access at 1.
    rewrite Hok. simpl negb. cbv iota.
    match goal with
    | |- context [update_access_all w (S n) ms ?s1] =>
        destruct (IH (S n) s1) as (db & Hrun & HF)
    end.
    exists db. split; [by rewrite Hrun|].
    simpl in HF. rewrite Forall2_fmap_l in HF.
    rewrite fmap_cons. eapply Forall2_impl; [exact HF|].
    intros r r' Hr. simpl in Hr.
    eapply access_recorded_trans; [apply access_recorded_touch|exact Hr].
Qed.

Lemma update_access_all_fails w n (memories : list (Memory Payload)) s k :
  (forall j, (j < k)%nat -> sqlite_ok w (n + j) = true) ->
  sqlite_ok w (n + k) = false ->
  (k < length memories)%nat ->
  exists db,
    update_access_all w n memories s = (set_storage db s, Raise OperationalError)
    /\ Forall2 (access_recorded (memory_id <$> take k memories))
         (StorageManager.memories (storage s)) (StorageManager.memories db).
Proof.
  revert n memories s. induction k as [|k IH]; intros n memories s Hok Hfail Hlen.
  - destruct memories as [|m ms]; [simpl in Hlen; lia|].
    simpl update_access_all.
    unfold mbind at 1, M_bind at 1, with_storage at 1, update_access at 1.
    rewrite Nat.add_0_r in Hfail. rewrite Hfail. simpl.
    exists (storage s). split; [by destruct s|].
    apply Forall_Forall2_diag, Forall_forall. intros r _.
    apply access_recorded_nil.
  - destruct memories as [|m ms]; [simpl in Hlen; lia|].
    simpl update_access_all.
    unfold mbind at 1, M_bind at 1, with_storage at 1, update_access at 1.
    specialize (Hok 0%nat ltac:(lia)) as H0. rewrite Nat.add_0_r in H0.
    rewrite H0. simpl negb. cbv iota.
    match goal with
    | |- context [update_access_all w (S n) ms ?s1] =>
        destruct (IH (S n) ms s1) as (db & Hrun & HF)
    end.
    + intros j Hj. replace (S n + j)%nat with (n + S j)%nat by lia.
      apply Hok. lia.
    + by replace (S n + k)%nat with (n + S k)%nat by lia.
    + simpl in Hlen. lia.
    + exists db. split; [by rewrite Hrun|].
      simpl in HF. rewrite Forall2_fmap_l in HF.
      rewrite firstn_cons, fmap_cons. eapply Forall2_impl; [exact HF|].
      intros r r' Hr. simpl in Hr.
      eapply access_recorded_trans; [apply access_recorded_touch|exact Hr].
Qed.

Lemma get_Some_values {V} k (v : V) (d : PyDict.t V) :
  PyDict.get k d = Some v -> v ∈ PyDict.values d.
Proof.
  induction d as [|[k' v'] d IH]; [done|]. simpl. case_decide.
  - intros [= ->]. apply elem_of_cons. by left.
  - intros Hg. apply elem_of_cons. right. by apply IH.
Qed.

Lemma for_each_getitem_keys sem ids :
  (forall mid, mid ∈ ids -> mid ∈ PyDict.keys sem) ->
  exists memories,
    for_each (fun mid => PyDict.getitem mid sem) ids = Ok memories
    /\ Forall2 (fun mid m => PyDict.get mid sem = Some m) ids memories.
Proof.
  induction ids as [|mid ids IH]; intros Hkeys.
  - exists []. by split.
  - destruct IH as (ms & Hrun & HF).
    { intros mid' Hin. apply Hkeys. by right. }
    destruct (proj2 (get_Some_keys mid sem)) as [m Hm].
    { apply Hkeys. by left. }
    exists (m :: ms). simpl. unfold PyDict.getitem at 1. rewrite Hm, Hrun.
    split; [done|]. by constructor.
Qed.

Lemma recall_ids_run w sem ids s :
  semantic_index s = sem ->
  (forall mid, mid ∈ ids -> mid ∈ PyDict.keys sem) ->
  exists memories,
    Forall2 (fun mid m => PyDict.get mid sem = Some m) ids memories
    /\ (memories ← lift (for_each (fun mid => PyDict.getitem mid sem) ids);
        update_access_all w 0 memories ;; mret memories) s
       = match update_access_all w 0 memories s with
         | (s', Ok _) => (s', Ok memories)
         | (s', Raise e) => (s', Raise e)
         end.
Proof.
  intros Hsem Hkeys.
  destruct (for_each_getitem_keys sem ids Hkeys) as (memories & Hrun & HF).
  exists memories. split; [done|].
  unfold mbind at 1, M_bind at 1, lift at 1. rewrite Hrun.
  unfold mbind at 1, M_bind at 1.
  destruct (update_access_all w 0 memories s) as [s' [[]|e]]; done.
Qed.

(** X10. On a system whose index ids are keys of the semantic map, and
    with a database that works, [recall_recent] returns memories that
    the semantic map holds; it changes nothing in the system but the
    database, where every row has one more access for each time its
    memory was returned, and is otherwise what it was. The [Memory]
    objects of the semantic map keep the statistics they had. *)
Theorem recall_recent_updates_database w limit type s :
  consistent s ->
  (forall k, sqlite_ok w k = true) ->
  exists db memories,
    recall_recent w limit type s = (set_storage db s, Ok memories)
    /\ Forall (fun m => m ∈ PyDict.values (semantic_index s)) memories
    /\ Forall2 (access_recorded (memory_id <$> memories))
         (StorageManager.memories (storage s)) (StorageManager.memories db).
Proof.
  intros (Ht & Hi & Hb) Hok. unfold recall_recent.
  unfold mbind at 1, M_bind at 1, get_self at 1.
  match goal with
  | |- context [for_each _ ?l] => set (ids := l)
  end.
  destruct (recall_ids_run w (semantic_index s) ids s eq_refl)
    as (memories & HF & Hrun).
  { intros mid Hin. subst ids. destruct (truthy type) as [t|].
    - destruct (PyDict.get t (type_index s)) as [bucket|] eqn:Hg; simpl in Hin.
      + eapply Hb; [exact Hg|]. eapply elem_of_sublist; [exact Hin|].
        apply slice_to_sublist.
      + exfalso. eapply not_elem_of_nil, elem_of_sublist; [exact Hin|].
        apply slice_to_sublist.
    - apply Ht. eapply elem_of_sublist; [exact Hin|]. apply slice_to_sublist. }
  destruct (update_access_all_rows w 0 memories s Hok) as (db & Hup & Hrows).
  exists db, memories. rewrite Hrun, Hup. split_and!; [done| |done].
  apply Forall_forall. intros m Hm.
  apply list_elem_of_lookup in Hm as [i Hi'].
  destruct (Forall2_lookup_r _ _ _ i m HF Hi') as (mid & _ & Hget).
  by eapply get_Some_values.
Qed.

(** X11. Under the same conditions [recall_important] returns as many
    memories as [limit] asks for and the index holds: none for [0], at
    most [limit] for a positive one, and for a negative one all but the
    last [-limit]; it does not raise, and it changes the database only. *)
Theorem recall_important_count w limit s :
  consistent s ->
  (forall k, sqlite_ok w k = true) ->
  exists db memories,
    recall_important w limit s = (set_storage db s, Ok memories)
    /\ Z.of_nat (length memories)
       = (if decide (0 <= limit)
          then Z.min limit (Z.of_nat (length (importance_index s)))
          else Z.max 0 (Z.of_nat (length (importance_index s)) + limit))
    /\ Forall2 (access_recorded (memory_id <$> memories))
         (StorageManager.memories (storage s)) (StorageManager.memories db).
Proof.
  intros (Ht & Hi & Hb) Hok. unfold recall_important.
  unfold mbind at 1, M_bind at 1, get_self at 1.
  destruct (recall_ids_run w (semantic_index s)
              (slice_to (importance_index s) limit) s eq_refl)
    as (memories & HF & Hrun).
  { intros mid Hin. apply Hi. eapply elem_of_sublist; [exact Hin|].
    apply slice_to_sublist. }
  destruct (update_access_all_rows w 0 memories s Hok) as (db & Hup & Hrows).
  exists db, memories. rewrite Hrun, Hup. split_and!; [done| |done].
  rewrite <- (Forall2_length _ _ _ HF). unfold slice_to.
  destruct (Z.leb_spec 0 limit).
  - rewrite decide_True by done. rewrite length_take. lia.
  - rewrite decide_False by lia. rewrite length_take. lia.
Qed.

(** X12. When the database fails at the access of the [k]-th memory that
    [recall_important] is about to return, the call raises and returns
    no memory, although the accesses of the [k] memories before it are
    already counted in the database. *)
Theorem recall_important_storage_failure w limit s k :
  consistent s ->
  (forall j, (j < k)%nat -> sqlite_ok w j = true) ->
  sqlite_ok w k = false ->
  (k < length (slice_to (importance_index s) limit))%nat ->
  exists db memories,
    Forall2 (fun mid m => PyDict.get mid (semantic_index s) = Some m)
      (slice_to (importance_index s) limit) memories
    /\ recall_important w limit s = (set_storage db s, Raise OperationalError)
    /\ Forall2 (access_recorded (memory_id <$> take k memories))
         (StorageManager.memories (storage s)) (StorageManager.memories db).
Proof.
  intros (Ht & Hi & Hb) Hok Hfail Hlen. unfold recall_important.
  unfold mbind at 1, M_bind at 1, get_self at 1.
  destruct (recall_ids_run w (semantic_index s)
              (slice_to (importance_index s) limit) s eq_refl)
    as (memories & HF & Hrun).
  { intros mid Hin. apply Hi. eapply elem_of_sublist; [exact Hin|].
    apply slice_to_sublist. }
  destruct (update_access_all_fails w 0 memories s k) as (db & Hup & Hrows);
    [done|done|by rewrite <- (Forall2_length _ _ _ HF)|].
  exists db, memories. by rewrite Hrun, Hup.
Qed.
End RecallFacts.

(** X10 on the system of the examples. *)
Lemma recall_recent_updates_database_witness :
  exists db memories,
    recall_recent (Example.world "" "2024-01-02T09:00:00" []) 5 (Some "action")
      Example.two_memories
    = (MemorySystem.set_storage db Example.two_memories, Ok memories)
    /\ Forall2 (access_recorded (memory_id <$> memories))
         (StorageManager.memories (MemorySystem.storage Example.two_memories))
         (StorageManager.memories db).
Proof.
  destruct (recall_recent_updates_database
              (Example.world "" "2024-01-02T09:00:00" []) 5 (Some "action")
              Example.two_memories consistent_two_memories)
    as (db & memories & Hrun & _ & Hrows).
  - intros k. reflexivity.
  - exists db, memories. split; [exact Hrun|exact Hrows].
Defined.

(** X11 on the system of the examples, asked for all but the last
    memory. *)
Lemma recall_important_count_witness :
  exists s' memories,
    recall_important (Example.world "" "2024-01-02T09:00:00" []) (-1)
      Example.two_memories = (s', Ok memories)
    /\ length memories = 1%nat.
Proof.
  destruct (recall_important_count
              (Example.world "" "2024-01-02T09:00:00" []) (-1)
              Example.two_memories consistent_two_memories)
    as (db & memories & Hrun & Hlen & _).
  - intros k. reflexivity.
  - exists (MemorySystem.set_storage db Example.two_memories), memories.
    split; [exact Hrun|]. change (Z.of_nat (length memories) = 1) in Hlen. lia.
Defined.

(** X12 on the system of the examples, with a database that fails at
    its second use. *)
Lemma recall_important_storage_failure_witness :
  exists db,
    recall_important (Sample.flaky "2024-01-02T09:00:00") 5 Example.two_memories
    = (MemorySystem.set_storage db Example.two_memories, Raise OperationalError).
Proof.
  destruct (recall_important_storage_failure
              (Sample.flaky "2024-01-02T09:00:00") 5 Example.two_memories 1
              consistent_two_memories)
    as (db & memories & _ & Hrun & _).
  - intros [|j] Hj; [reflexivity|lia].
  - reflexivity.
  - vm_compute. lia.
  - exists db. exact Hrun.
Defined.

(** ** Links and records, and the database behind them *)

Section Persistence.
Context {Payload : Type} `{Empty Payload}.
Context `{!Json Payload, !Json (list string),
          !Json (gmap string (list string)), !Json (list float)}.
Import MemorySystem.
Implicit Types (s : MemorySystem Payload) (m : Memory Payload).
Implicit Types (sem : PyDict.t (Memory Payload)).

(** X13. [connect_memories] with an id that the semantic map does not
    hold raises [KeyError] with that id, the one of the source when both
    are missing, and changes nothing. *)
Theorem connect_memories_missing_id w source_id target_id relationship s :
  PyDict.get source_id (semantic_index s) = None
  \/ PyDict.get target_id (semantic_index s) = None ->
  connect_memories w source_id target_id relationship s
  = (s, Raise (KeyError (match PyDict.get source_id (semantic_index s) with
                         | None => source_id
                         | Some _ => target_id
                         end))).
Proof.
  intros Hmissing. unfold connect_memories.
  unfold mbind at 1, M_bind at 1, get_self at 1.
  unfold mbind at 1, M_bind at 1, lift at 1, PyDict.getitem at 1.
  destruct (PyDict.get source_id (semantic_index s)) as [m|]; [|done]. simpl.
  unfold mbind at 1, M_bind at 1, lift at 1, PyDict.getitem at 1.
  destruct Hmissing as [?| ->]; done.
Qed.

(** X14. When the database refuses the write at the end of
    [connect_memories], the call raises what the database raised; the
    link is then in the semantic map, and the database is what it was. *)
Theorem connect_memories_storage_failure w source_id target_id relationship
    s m mt e :
  PyDict.get source_id (semantic_index s) = Some m ->
  PyDict.get target_id (semantic_index s) = Some mt ->
  let m' := relinked (linked target_id relationship
                        (Experience.relationships (Memory.experience m))) m in
  store_memory (sqlite_ok w 0) m' (storage s) = Raise e ->
  exists s',
    connect_memories w source_id target_id relationship s = (s', Raise e)
    /\ storage s' = storage s
    /\ PyDict.get source_id (semantic_index s') = Some m'
    /\ target_id
       ∈ default [] (Experience.relationships (Memory.experience m') !! relationship).
Proof.
  intros Hm Hmt m' Hstore.
  rewrite (connect_memories_run w source_id target_id relationship s m mt Hm Hmt).
  fold m'. rewrite Hstore. eexists. split_and!; [done|done| |].
  - simpl. by rewrite get_set_eq.
  - subst m'. rewrite relinked_relationships.
    destruct (linked_lookup target_id relationship
                (Experience.relationships (Memory.experience m)))
      as (targets & -> & Hin & _). done.
Qed.

Lemma insert_before_less_last sem importance memory_id index :
  (forall mid, mid ∈ index -> mid ∈ PyDict.keys sem) ->
  (forall x, Float.gtb importance x = false) ->
  insert_before_less sem importance memory_id index = Ok (index ++ [memory_id]).
Proof.
  intros Hkeys Hgt. induction index as [|mid index IH]; [done|].
  simpl. destruct (proj2 (get_Some_keys mid sem)) as [m Hm].
  { apply Hkeys. by left. }
  unfold PyDict.getitem. rewrite Hm. simpl. rewrite Hgt, IH; [done|].
  intros mid' Hin. apply Hkeys. by right.
Qed.

(** X15. [record_experience] with an importance that is NaN raises
    [IntegrityError] whenever the database can be reached: the column
    does not take the value. The memory is then in the indices, the last
    one of the importance index, and not in the database. *)
Theorem record_experience_nan_importance w type content metadata tags
    importance context s embedding :
  consistent s ->
  embedding_reply w = Ok embedding ->
  Float.is_nan importance = true ->
  sqlite_ok w 0 = true ->
  let experience :=
    new_experience w type content metadata tags importance context in
  exists s',
    record_experience w type content metadata tags importance context s
    = (s', Raise IntegrityError)
    /\ storage s' = storage s
    /\ PyDict.get (uuid4 w) (semantic_index s')
       = Some (new_memory w experience embedding)
    /\ temporal_index s' = uuid4 w :: temporal_index s
    /\ importance_index s' = importance_index s ++ [uuid4 w].
Proof.
  intros (Ht & Hi & Hb) Hreply Hnan Hok experience.
  rewrite (record_experience_run w type content metadata tags importance context
             s embedding (importance_index s ++ [uuid4 w]) Hreply).
  - unfold store_memory. rewrite Hok. simpl.
    destruct importance; try discriminate Hnan. simpl.
    eexists. split_and!; [done|done| |done|done].
    simpl. by rewrite get_set_eq.
  - apply insert_before_less_last.
    + intros mid Hin. by apply keys_set_mono, Hi.
    + intros x. destruct importance; try discriminate Hnan. by destruct x.
Qed.

(** X16. When the provider fails and the fallback cannot seed its
    generator with the hash of the text, [record_experience] raises
    [ValueError] before it touches an index: the system is what it was. *)
Theorem record_experience_fallback_failure
    (str_hash : Z -> string -> Z) (randn : Z -> nat -> list float)
    (secret : Z) (text : string)
    w type content metadata tags importance context s :
  embedding_reply w = Embeddings.get_embedding str_hash randn secret None text ->
  Embeddings.seed_ok (str_hash secret text) = false ->
  record_experience w type content metadata tags importance context s
  = (s, Raise ValueError).
Proof.
  intros Hreply Hseed. apply record_experience_no_embedding.
  rewrite Hreply. unfold Embeddings.get_embedding,
    Embeddings._generate_simple_embedding. by rewrite Hseed.
Qed.

Section WithRoundTrip.
Context `{!JsonRoundTrip Payload, !JsonRoundTrip (list string),
          !JsonRoundTrip (gmap string (list string)),
          !JsonRoundTrip (list float)}.

(** X17. After [connect_memories] has returned, the database holds the
    source as the semantic map holds it, with the target under the name
    of the relationship; what it holds under the other ids is what it
    held. *)
Theorem connect_memories_persisted w source_id target_id relationship s s' :
  connect_memories w source_id target_id relationship s = (s', Ok ()) ->
  exists m',
    PyDict.get source_id (semantic_index s') = Some m'
    /\ target_id
       ∈ default [] (Experience.relationships (Memory.experience m') !! relationship)
    /\ get_memory true (memory_id m') (storage s') = Ok (Some (as_stored m'))
    /\ (forall k, k <> memory_id m' ->
          get_memory (Payload := Payload) true k (storage s')
          = get_memory true k (storage s)).
Proof.
  intros Hrun.
  destruct (PyDict.get source_id (semantic_index s)) as [m|] eqn:Hm; cycle 1.
  { destruct (connect_memories_missing w source_id target_id relationship s)
      as [k Hk]; [by left|congruence]. }
  destruct (PyDict.get target_id (semantic_index s)) as [mt|] eqn:Hmt; cycle 1.
  { destruct (connect_memories_missing w source_id target_id relationship s)
      as [k Hk]; [by right|congruence]. }
  rewrite (connect_memories_run w source_id target_id relationship s m mt Hm Hmt)
    in Hrun.
  destruct (store_memory _ _ _) as [db|] eqn:Hstore; [|done].
  injection Hrun as <-. apply store_memory_rows in Hstore.
  eexists. split_and!.
  - simpl. by rewrite get_set_eq.
  - rewrite relinked_relationships.
    destruct (linked_lookup target_id relationship
                (Experience.relationships (Memory.experience m)))
      as (targets & -> & Hin & _). done.
  - unfold get_memory. simpl. rewrite Hstore.
    match goal with
    | |- context [row_of_memory ?x] =>
        change (memory_id x) with (Row.id (row_of_memory x))
    end.
    by rewrite insert_or_replace_filter_eq, memory_of_row_of_memory.
  - intros k Hk. unfold get_memory. simpl. rewrite Hstore.
    by rewrite insert_or_replace_filter_ne.
Qed.

(** X18. After [record_experience] has returned, the database holds the
    new memory under its id, as the semantic map holds it; what it holds
    under the other ids is what it held. *)
Theorem record_experience_persisted w type content metadata tags importance
    context s s' experience :
  consistent s ->
  record_experience w type content metadata tags importance context s
  = (s', Ok experience) ->
  exists memory,
    PyDict.get (uuid4 w) (semantic_index s') = Some memory
    /\ Memory.experience memory = experience
    /\ get_memory true (uuid4 w) (storage s') = Ok (Some (as_stored memory))
    /\ (forall k, k <> uuid4 w ->
          get_memory (Payload := Payload) true k (storage s')
          = get_memory true k (storage s)).
Proof.
  intros Hc Hrun.
  destruct (embedding_reply w) as [embedding|e] eqn:Hreply; cycle 1.
  { rewrite (record_experience_no_embedding w type content metadata tags
               importance context s e Hreply) in Hrun. done. }
  destruct (record_experience_indexes w type content metadata tags importance
              context s embedding Hc Hreply)
    as (s1 & Hrun1 & Hdb & Hsem & _).
  rewrite Hrun in Hrun1.
  destruct (store_memory _ _ _) as [db|] eqn:Hstore; [|done].
  injection Hrun1 as -> ->. apply store_memory_rows in Hstore.
  eexists. split_and!.
  - simpl. by rewrite Hsem, get_set_eq.
  - done.
  - unfold get_memory. simpl. rewrite Hstore.
    match goal with
    | |- context [row_of_memory ?x] =>
        change (uuid4 w) with (Row.id (row_of_memory x)) at 1
    end.
    by rewrite insert_or_replace_filter_eq, memory_of_row_of_memory.
  - intros k Hk. unfold get_memory. simpl. rewrite Hstore.
    by rewrite insert_or_replace_filter_ne.
Qed.
End WithRoundTrip.
End Persistence.

(** X13 on the system of the examples, which has no memory [z]. *)
Lemma connect_memories_missing_id_witness :
  connect_memories (Example.world "" "2024-01-01T12:00:00" []) "a" "z" "caused"
    Example.two_memories
  = (Example.two_memories, Raise (KeyError "z")).
Proof.
  rewrite (connect_memories_missing_id
             (Example.world "" "2024-01-01T12:00:00" []) "a" "z" "caused"
             Example.two_memories).
  - vm_compute. reflexivity.
  - right. vm_compute. reflexivity.
Defined.

(** X14 on the system of the examples, with a database that cannot be
    written. *)
Lemma connect_memories_storage_failure_witness :
  exists s',
    connect_memories (Example.broken "" "2024-01-01T12:00:00" []) "a" "b"
      "caused" Example.two_memories = (s', Raise OperationalError)
    /\ MemorySystem.storage s' = MemorySystem.storage Example.two_memories
    /\ PyDict.get "a" (MemorySystem.semantic_index s')
       = Some Example.source_memory.
Proof.
  edestruct (connect_memories_storage_failure
               (Example.broken "" "2024-01-01T12:00:00" []) "a" "b" "caused"
               Example.two_memories)
    as (s' & Hrun & Hdb & Hget & _).
  - vm_compute. reflexivity.
  - vm_compute. reflexivity.
  - reflexivity.
  - exists s'. split; [exact Hrun|]. split; [exact Hdb|].
    rewrite Hget. vm_compute. reflexivity.
Defined.

(** X15 on the system of the examples. *)
Lemma record_experience_nan_importance_witness :
  exists s',
    record_experience (Example.world "n" "2024-01-03T09:00:00" [Example.f 1])
      "thought" ∅ None None Float.nan None Example.two_memories
    = (s', Raise IntegrityError)
    /\ MemorySystem.importance_index s' = ["b"; "a"; "n"].
Proof.
  destruct (record_experience_nan_importance
              (Example.world "n" "2024-01-03T09:00:00" [Example.f 1])
              "thought" ∅ None None Float.nan None Example.two_memories
              [Example.f 1] consistent_two_memories eq_refl eq_refl eq_refl)
    as (s' & Hrun & _ & _ & _ & Himp).
  exists s'. split; [exact Hrun|]. rewrite Himp. reflexivity.
Defined.

(** X16 in a process in which the hash of the text is negative. *)
Lemma record_experience_fallback_failure_witness :
  record_experience Sample.no_embedding "thought" ∅ None None Float.one None
    Example.two_memories
  = (Example.two_memories, Raise ValueError).
Proof.
  apply (record_experience_fallback_failure (fun secret _ => secret)
           (fun _ n => replicate n Float.zero) (-1) "text").
  - reflexivity.
  - reflexivity.
Defined.

(** X17 on the connection of the examples. *)
Lemma connect_memories_persisted_witness :
  exists m',
    PyDict.get "a" (MemorySystem.semantic_index Example.connected_once) = Some m'
    /\ get_memory true (memory_id m') (MemorySystem.storage Example.connected_once)
       = Ok (Some (as_stored m')).
Proof.
  destruct (connect_memories_persisted (JsonRoundTrip0 := codec_round_trip)
              (JsonRoundTrip1 := codec_round_trip)
              (JsonRoundTrip2 := codec_round_trip)
              (JsonRoundTrip3 := codec_round_trip)
              (Example.world "" "2024-01-01T12:00:00" []) "a" "b" "caused"
              Example.two_memories Example.connected_once)
    as (m' & Hget & _ & Hdb & _).
  - vm_compute. reflexivity.
  - exists m'. split; [exact Hget|exact Hdb].
Defined.

(** X18 on the first record of the examples. *)
Lemma record_experience_persisted_witness :
  exists (s' : MemorySystem Example.Payload) memory,
    PyDict.get "a" (MemorySystem.semantic_index s') = Some memory
    /\ get_memory true "a" (MemorySystem.storage s') = Ok (Some (as_stored memory)).
Proof.
  edestruct (record_experience_persisted (JsonRoundTrip0 := codec_round_trip)
               (JsonRoundTrip1 := codec_round_trip)
               (JsonRoundTrip2 := codec_round_trip)
               (JsonRoundTrip3 := codec_round_trip)
               (Example.world "a" "2024-01-01T10:00:00" [Example.f 1; Example.f 0])
               "perception" ∅ None None (Example.f 1) None Example.empty_system)
    as (memory & Hget & _ & Hdb & _).
  - apply consistent_fresh.
  - vm_compute. reflexivity.
  - eexists _, memory. split; [exact Hget|exact Hdb].
Defined.

(** ** Similarity and its ranking *)

Section FloatFacts2.
Implicit Types x y z : float.

Lemma mul_comm x y : Float.mul x y = Float.mul y x.
Proof.
  unfold Float.mul, SFmul.
  destruct x as [sx|sx| |sx mx ex], y as [sy|sy| |sy my ey];
    rewrite ?(xorb_comm sx sy); try reflexivity.
  by rewrite (Pos.mul_comm mx my), (Z.add_comm ex ey).
Qed.

Lemma leb_nan_l x : Float.leb Float.nan x = false.
Proof. done. Qed.

Lemma leb_nan_r x : Float.leb x Float.nan = false.
Proof. by destruct x as [[]|[]| |[] ? ?]. Qed.

Lemma ltb_leb x y : Float.ltb x y = true -> Float.leb x y = true.
Proof. apply (gtb_leb y x). Qed.

Lemma not_ltb_leb x y :
  Float.is_nan x = false -> Float.is_nan y = false ->
  Float.ltb x y = false -> Float.leb y x = true.
Proof. intros Hx Hy. by apply (not_gtb_leb y x). Qed.

Local Ltac order_cases :=
  unfold Float.leb, SFleb, SFcompare in *;
  repeat match goal with
  | x : float |- _ => destruct x as [[]|[]| |[] ? ?]
  end;
  simpl in *; try (discriminate || reflexivity);
  repeat match goal with
  | H : context [Z.compare ?a ?b] |- _ => destruct (Z.compare_spec a b)
  | |- context [Z.compare ?a ?b] => destruct (Z.compare_spec a b)
  | H : context [Pos.compare_cont Eq ?a ?b] |- _ =>
      change (Pos.compare_cont Eq a b) with (Pos.compare a b) in *;
      destruct (Pos.compare_spec a b)
  | |- context [Pos.compare_cont Eq ?a ?b] =>
      change (Pos.compare_cont Eq a b) with (Pos.compare a b) in *;
      destruct (Pos.compare_spec a b)
  end;
  simpl in *; try (discriminate || reflexivity || lia).

Lemma leb_trans x y z :
  Float.leb x y = true -> Float.leb y z = true -> Float.leb x z = true.
Proof. intros Hxy Hyz. order_cases. Qed.
End FloatFacts2.

Section FloatSort.
Context {A : Type}.
Implicit Types (x y : float * A) (l : list (float * A)).

Lemma insert_desc_perm_any {K} (ltb : K -> K -> bool) (x : K * A)
    (l : list (K * A)) :
  insert_desc ltb x l ≡ₚ x :: l.
Proof.
  induction l as [|y l IH]; [done|]. simpl.
  destruct (ltb x.1 y.1); [|done].
  by rewrite IH, Permutation_swap.
Qed.

Lemma sort_reverse_perm_any {K} (ltb : K -> K -> bool) (l : list (K * A)) :
  sort_reverse ltb l ≡ₚ l.
Proof.
  induction l as [|x l IH]; [done|].
  unfold sort_reverse in *. simpl. by rewrite insert_desc_perm_any, IH.
Qed.

Lemma insert_desc_float_sorted x l :
  Float.is_nan x.1 = false ->
  Forall (fun y => Float.is_nan y.1 = false) l ->
  StronglySorted (fun a b => Float.leb b.1 a.1 = true) l ->
  StronglySorted (fun a b => Float.leb b.1 a.1 = true)
    (insert_desc Float.ltb x l).
Proof.
  intros Hx Hl Hs. induction Hs as [|y l Hs IH Hy]; simpl.
  - repeat constructor.
  - apply Forall_cons in Hl as [Hny Hl].
    destruct (Float.ltb x.1 y.1) eqn:Hlt.
    + constructor; [by apply IH|].
      rewrite insert_desc_perm_any. constructor; [|done]. by apply ltb_leb.
    + constructor; [by constructor|].
      assert (Hyx : Float.leb y.1 x.1 = true) by by apply not_ltb_leb.
      constructor; [done|].
      eapply Forall_impl; [exact Hy|]. simpl.
      intros z Hz. by eapply leb_trans.
Qed.

Lemma sort_reverse_float_sorted l :
  Forall (fun y => Float.is_nan y.1 = false) l ->
  StronglySorted (fun a b => Float.leb b.1 a.1 = true)
    (sort_reverse Float.ltb l).
Proof.
  induction l as [|x l IH]; intros Hl; [constructor|].
  apply Forall_cons in Hl as [Hx Hl].
  unfold sort_reverse in *. simpl. apply insert_desc_float_sorted; [done| |by apply IH].
  fold (sort_reverse Float.ltb l). by rewrite sort_reverse_perm_any.
Qed.
End FloatSort.

Section Ranking.
Context {Payload : Type} `{Empty Payload}.
Context `{!Json Payload, !Json (list string),
          !Json (gmap string (list string)), !Json (list float)}.
Import MemorySystem.
Implicit Types (s : MemorySystem Payload) (m : Memory Payload).
Implicit Types (q v : list float).

Lemma fmap_snd_keyed {K X} (f : X -> K) (l : list X) :
  ((fun a => (f a, a)) <$> l).*2 = l.
Proof. induction l as [|a l IH]; simpl; [done|by f_equal]. Qed.

Lemma slice_to_length_any {X Y} (l1 : list X) (l2 : list Y) k :
  length l1 = length l2 -> length (slice_to l1 k) = length (slice_to l2 k).
Proof.
  intros Hlen. unfold slice_to.
  destruct (0 <=? k); by rewrite !length_take, Hlen.
Qed.

Lemma dot_comm v1 v2 : Embeddings.dot v1 v2 = Embeddings.dot v2 v1.
Proof.
  revert v2. induction v1 as [|x v1 IH]; intros [|y v2]; simpl; try done.
  by rewrite IH, mul_comm.
Qed.

Lemma dot_misaligned v1 v2 :
  length v1 <> length v2 -> Embeddings.dot v1 v2 = Raise ValueError.
Proof.
  revert v2. induction v1 as [|x v1 IH]; intros [|y v2] Hlen; simpl in *;
    try done.
  rewrite IH; [done|]. intros Heq. apply Hlen. by rewrite Heq.
Qed.

Lemma calculate_similarity_raises v1 v2 e :
  Embeddings.calculate_similarity v1 v2 = Raise e -> e = ValueError.
Proof.
  unfold Embeddings.calculate_similarity.
  destruct (decide (length v1 = length v2)) as [Heq|Hne].
  - destruct (dot_aligned v1 v2 Heq) as [d ->]. done.
  - rewrite (dot_misaligned v1 v2 Hne). by intros [= <-].
Qed.

Lemma for_each_raise_only {X Y} (f : X -> result Y) (a : X) (l : list X) e :
  (forall a' e', f a' = Raise e' -> e' = e) ->
  a ∈ l -> f a = Raise e -> for_each f l = Raise e.
Proof.
  intros Honly Hin Ha. destruct (for_each_raise f a l e Hin Ha) as [e' He'].
  rewrite He'. f_equal.
  clear a Hin Ha. induction l as [|a l IH]; [done|]. simpl in He'.
  destruct (f a) as [b|e0] eqn:Hfa.
  - destruct (for_each f l) as [bs|e1]; [done|].
    injection He' as <-. by apply IH.
  - injection He' as <-. by eapply Honly.
Qed.

(** X19. The similarity of two vectors does not depend on their order;
    this holds for the exception on vectors of two lengths as for the
    value, NaN and the infinities among them. *)
Theorem calculate_similarity_symmetric v1 v2 :
  Embeddings.calculate_similarity v1 v2 = Embeddings.calculate_similarity v2 v1.
Proof.
  unfold Embeddings.calculate_similarity.
  by rewrite dot_comm, (mul_comm (Embeddings.norm v1)).
Qed.

(** X20. One memory whose embedding has another length than the
    embedding of the query makes [recall_similar] raise [ValueError],
    whatever the other memories are; nothing is returned and no access is
    counted. *)
Theorem recall_similar_misaligned w query limit s q m :
  embedding_reply w = Ok q ->
  m ∈ PyDict.values (semantic_index s) ->
  length (Memory.embedding m) <> length q ->
  recall_similar w query limit s = (s, Raise ValueError).
Proof.
  intros Hreply Hm Hlen. unfold recall_similar.
  unfold mbind at 1, M_bind at 1, lift at 1. rewrite Hreply.
  unfold mbind at 1, M_bind at 1, get_self at 1.
  unfold mbind at 1, M_bind at 1, lift at 1.
  rewrite (for_each_raise_only _ m _ ValueError); [done| |done|].
  - intros m' e'.
    destruct (Embeddings.calculate_similarity q (Memory.embedding m'))
      as [x|e] eqn:Hc; simpl; [done|].
    intros [= <-]. by eapply calculate_similarity_raises.
  - unfold Embeddings.calculate_similarity.
    rewrite dot_misaligned; [done|]. congruence.
Qed.

(** X21. When every similarity is computed and none is NaN,
    [recall_similar] returns the memories in descending order of
    similarity, and no memory that it leaves out is more similar to the
    query than one that it returns; the returned and the left out
    together are the memories of the semantic map, and as many are
    returned as the slice by [limit] takes. Only the database changes. *)
Theorem recall_similar_ranked w query limit s q :
  embedding_reply w = Ok q ->
  (forall m, m ∈ PyDict.values (semantic_index s) ->
     exists x, Embeddings.calculate_similarity q (Memory.embedding m) = Ok x
               /\ Float.is_nan x = false) ->
  (forall k, sqlite_ok w k = true) ->
  exists db memories rest,
    recall_similar w query limit s = (set_storage db s, Ok memories)
    /\ memories ++ rest ≡ₚ PyDict.values (semantic_index s)
    /\ StronglySorted (fun m1 m2 => no_more_similar q m2 m1) memories
    /\ (forall m1 m2, m1 ∈ memories -> m2 ∈ rest -> no_more_similar q m2 m1)
    /\ length memories
       = length (slice_to (PyDict.values (semantic_index s)) limit).
Proof.
  intros Hreply Hsim Hok.
  set (sim := fun m : Memory Payload =>
                match Embeddings.calculate_similarity q (Memory.embedding m) with
                | Ok x => x
                | Raise _ => Float.nan
                end).
  set (g := fun m : Memory Payload => (sim m, m)).
  set (values := PyDict.values (semantic_index s)) in *.
  set (sorted := sort_reverse Float.ltb (g <$> values)).
  assert (Hrel : forall m1 m2,
            Float.leb (g m2).1 (g m1).1 = true -> no_more_similar q m2 m1).
  { intros m1 m2. unfold g, sim, no_more_similar. simpl.
    destruct (Embeddings.calculate_similarity q (Memory.embedding m2));
      [|by rewrite leb_nan_l].
    destruct (Embeddings.calculate_similarity q (Memory.embedding m1));
      [done|by rewrite leb_nan_r]. }
  assert (Hperm : sorted ≡ₚ g <$> values) by apply sort_reverse_perm_any.
  assert (Hg : sorted = g <$> (snd <$> sorted)).
  { rewrite <- list_fmap_compose. symmetry.
    etransitivity; [|apply list_fmap_id]. apply list_fmap_ext.
    intros i p Hp. apply list_elem_of_lookup_2 in Hp.
    rewrite Hperm in Hp. apply list_elem_of_fmap in Hp as (m & -> & _). done. }
  assert (Hsorted : StronglySorted (fun m1 m2 => no_more_similar q m2 m1)
                      (snd <$> sorted)).
  { assert (Hs : StronglySorted (fun a b => Float.leb b.1 a.1 = true) sorted).
    { apply sort_reverse_float_sorted, Forall_forall.
      intros p (m & -> & Hm)%list_elem_of_fmap.
      destruct (Hsim m Hm) as (x & Hx & Hnan). unfold g, sim. simpl.
      by rewrite Hx. }
    rewrite Hg in Hs. apply StronglySorted_fmap_inv in Hs.
    revert Hs. generalize (snd <$> sorted). intros l Hs.
    induction Hs as [|m l Hs IH Hm]; constructor; [done|].
    eapply Forall_impl; [exact Hm|]. intros m'. apply Hrel. }
  assert (exists n, slice_to sorted limit = take n sorted) as [n Hn].
  { unfold slice_to. destruct (0 <=? limit); eauto. }
  unfold recall_similar.
  unfold mbind at 1, M_bind at 1, lift at 1. rewrite Hreply.
  unfold mbind at 1, M_bind at 1, get_self at 1.
  unfold mbind at 1, M_bind at 1, lift at 1.
  rewrite (for_each_ok _ g); cycle 1.
  { intros m Hm. destruct (Hsim m Hm) as (x & Hx & _).
    unfold g, sim. rewrite Hx. done. }
  fold values. fold sorted.
  destruct (update_access_all_rows w 0 (snd <$> slice_to sorted limit) s Hok)
    as (db & Hup & _).
  unfold mbind at 1, M_bind at 1. rewrite Hup.
  exists db, (snd <$> slice_to sorted limit), (snd <$> drop n sorted).
  split_and!.
  - done.
  - rewrite Hn, <- fmap_app, take_drop, Hperm. unfold g.
    by rewrite fmap_snd_keyed.
  - rewrite Hn, fmap_take. eapply StronglySorted_sublist; [|exact Hsorted].
    apply sublist_take.
  - intros m1 m2. rewrite Hn, fmap_take, fmap_drop. intros H1 H2.
    rewrite <- (take_drop n (snd <$> sorted)) in Hsorted.
    by eapply (StronglySorted_app_1_elem_of _ _ _ _ _ Hsorted).
  - rewrite length_fmap. apply slice_to_length_any.
    by rewrite Hperm, length_fmap.
Qed.
End Ranking.

(** X20 on the system of the examples, whose embeddings have two
    coordinates, with a query of three. *)
Lemma recall_similar_misaligned_witness :
  recall_similar (Example.world "" "2024-01-02T09:00:00"
                    [Example.f 1; Example.f 0; Example.f 0])
    "anything" 5 Example.two_memories
  = (Example.two_memories, Raise ValueError).
Proof.
  apply (recall_similar_misaligned
           (Example.world "" "2024-01-02T09:00:00"
              [Example.f 1; Example.f 0; Example.f 0])
           "anything" 5 Example.two_memories
           [Example.f 1; Example.f 0; Example.f 0]
           (memory_of Example.call_a)).
  - reflexivity.
  - apply elem_of_cons. left. vm_compute. reflexivity.
  - vm_compute. discriminate.
Defined.

(** X21 on the system of the examples, with the embedding of [a] as the
    query. *)
Lemma recall_similar_ranked_witness :
  exists db memories rest,
    recall_similar (Example.world "" "2024-01-02T09:00:00"
                      [Example.f 1; Example.f 0])
      "anything" 1 Example.two_memories
    = (MemorySystem.set_storage db Example.two_memories, Ok memories)
    /\ memories ++ rest
       ≡ₚ PyDict.values (MemorySystem.semantic_index Example.two_memories)
    /\ length memories = 1%nat.
Proof.
  destruct (recall_similar_ranked
              (Example.world "" "2024-01-02T09:00:00" [Example.f 1; Example.f 0])
              "anything" 1 Example.two_memories [Example.f 1; Example.f 0])
    as (db & memories & rest & Hrun & Hperm & _ & _ & Hlen).
  - reflexivity.
  - intros m Hm. unfold Example.two_memories in Hm. simpl in Hm.
    apply elem_of_cons in Hm as [->|Hm].
    { eexists. split; [vm_compute; reflexivity|reflexivity]. }
    apply list_elem_of_singleton in Hm as ->.
    eexists. split; [vm_compute; reflexivity|reflexivity].
  - intros k. reflexivity.
  - exists db, memories, rest. split; [exact Hrun|]. split; [exact Hperm|].
    rewrite Hlen. reflexivity.
Defined.

(** ** Loading, again: what [load_memories] depends on and leaves *)

Section Reload.
Context {Payload : Type} `{Empty Payload}.
Context `{!Json Payload, !Json (list string),
          !Json (gmap string (list string)), !Json (list float)}.
Import MemorySystem.
Implicit Types (m : Memory Payload) (done l memories : list (Memory Payload)).
Implicit Types (s : MemorySystem Payload).

Lemma insert_sorted_storage mid s :
  storage (_insert_sorted_by_importance mid s).1 = storage s.
Proof.
  unfold _insert_sorted_by_importance, mbind, M_bind, get_self, lift, modify.
  destruct (PyDict.getitem mid (semantic_index s)); [|done].
  by destruct (insert_before_less _ _ _ _).
Qed.

Lemma rebuild_one_storage m s : storage (rebuild_one m s).1 = storage s.
Proof.
  unfold rebuild_one.
  unfold mbind at 1, M_bind at 1, modify at 1.
  unfold mbind at 1, M_bind at 1, modify at 1.
  unfold mbind at 1, M_bind at 1.
  match goal with
  | |- context [_insert_sorted_by_importance ?i ?s1] =>
      pose proof (insert_sorted_storage i s1) as Hins;
      destruct (_insert_sorted_by_importance i s1) as [s2 [[]|e]]
  end; simpl in Hins; [|done].
  unfold mbind, M_bind, modify, get_self, lift.
  repeat case_match; simplify_eq; simpl; try done.
  all: repeat match goal with
       | H : context [if ?b then _ else _] |- _ => destruct b
       end; by simplify_eq.
Qed.

Lemma rebuild_all_storage l s : storage (rebuild_all l s).1 = storage s.
Proof.
  revert s. induction l as [|m l IH]; intros s; [done|]. simpl.
  unfold mbind, M_bind.
  pose proof (rebuild_one_storage m s) as Hone.
  destruct (rebuild_one m s) as [s1 [[]|e]]; simpl in Hone; [|done].
  by rewrite IH.
Qed.

Lemma sort_buckets_storage types s : storage (sort_buckets types s).1 = storage s.
Proof.
  revert s. induction types as [|t types IH]; intros s; [done|]. simpl.
  unfold mbind at 1, M_bind at 1, get_self at 1.
  unfold mbind at 1, M_bind at 1, lift at 1.
  destruct (PyDict.getitem t (type_index s)); [|done].
  unfold mbind at 1, M_bind at 1, lift at 1.
  destruct (sort_by_timestamp _ _); [|done].
  unfold mbind at 1, M_bind at 1, modify at 1.
  by rewrite IH.
Qed.

(** [load_memories] once the rows are read: the rest of the method runs
    from the empty indices. *)
Lemma load_memories_reset w s memories :
  load_all_memories (sqlite_ok w 0) (storage s) = Ok memories ->
  load_memories w s = __init__ w (storage s).
Proof.
  intros Hload. unfold __init__, load_memories.
  unfold mbind at 1, M_bind at 1, get_self at 1.
  unfold mbind at 1, M_bind at 1, lift at 1. rewrite Hload.
  unfold mbind at 1, M_bind at 1, modify at 1.
  symmetry.
  unfold mbind at 1, M_bind at 1, get_self at 1.
  unfold mbind at 1, M_bind at 1, lift at 1. simpl storage. rewrite Hload.
  unfold mbind at 1, M_bind at 1, modify at 1.
  done.
Qed.

Lemma load_memories_storage w s : storage (load_memories w s).1 = storage s.
Proof.
  unfold load_memories.
  unfold mbind at 1, M_bind at 1, get_self at 1.
  unfold mbind at 1, M_bind at 1, lift at 1.
  destruct (load_all_memories _ _) as [memories|]; [|done].
  unfold mbind at 1, M_bind at 1, modify at 1.
  unfold mbind at 1, M_bind at 1.
  match goal with
  | |- context [rebuild_all memories ?s0] =>
      pose proof (rebuild_all_storage memories s0) as Hall;
      destruct (rebuild_all memories s0) as [s1 [[]|e]]
  end; simpl in Hall; [|done].
  unfold mbind at 1, M_bind at 1, get_self at 1.
  unfold mbind at 1, M_bind at 1, lift at 1.
  destruct (sort_by_timestamp _ _); [|done].
  unfold mbind at 1, M_bind at 1, modify at 1.
  unfold mbind at 1, M_bind at 1, get_self at 1.
  by rewrite sort_buckets_storage.
Qed.

Lemma load_memories_loads w s s' :
  load_memories w s = (s', Ok ()) ->
  exists memories,
    load_all_memories (Payload := Payload) (sqlite_ok w 0) (storage s)
    = Ok memories.
Proof.
  unfold load_memories.
  unfold mbind at 1, M_bind at 1, get_self at 1.
  unfold mbind at 1, M_bind at 1, lift at 1.
  destruct (load_all_memories _ _) as [memories|]; [eauto|done].
Qed.

(** X22. A [load_memories] that returns does not write to the database;
    it leaves the system that [__init__] builds over that database,
    whatever the indices held before; and loading once more changes
    nothing. *)
Theorem load_memories_idempotent w s s' :
  load_memories w s = (s', Ok ()) ->
  storage s' = storage s
  /\ __init__ w (storage s) = (s', Ok ())
  /\ load_memories w s' = (s', Ok ()).
Proof.
  intros Hrun.
  destruct (load_memories_loads w s s' Hrun) as [memories Hload].
  pose proof (load_memories_storage w s) as Hdb. rewrite Hrun in Hdb.
  simpl in Hdb.
  pose proof (load_memories_reset w s memories Hload) as Hreset.
  split_and!; [done|congruence|].
  rewrite (load_memories_reset w s' memories) by by rewrite Hdb.
  rewrite Hdb. congruence.
Qed.

(** [load_memories] in one step, over memories of distinct ids. *)
Lemma load_memories_run w s memories :
  load_all_memories (sqlite_ok w 0) (storage s) = Ok memories ->
  NoDup (memory_id <$> memories) ->
  exists s',
    load_memories w s = (s', Ok ())
    /\ semantic_index s' = (fun m => (memory_id m, m)) <$> memories
    /\ temporal_index s' = memory_id <$> by_timestamp memories
    /\ importance_index s' ≡ₚ memory_id <$> memories
    /\ (exists s1,
          rebuild_all memories (mk PyDict.empty [] [] PyDict.empty (storage s))
          = (s1, Ok ())
          /\ importance_index s' = importance_index s1)
    /\ (forall t,
          PyDict.get t (type_index s')
          = if decide (filter (fun m => memory_type m = t) memories = [])
            then None
            else Some (memory_id
                         <$> by_timestamp
                               (filter (fun m => memory_type m = t) memories))).
Proof.
  intros Hload Hnd.
  unfold load_memories.
  unfold mbind at 1, M_bind at 1, get_self at 1.
  unfold mbind at 1, M_bind at 1, lift at 1. rewrite Hload.
  unfold mbind at 1, M_bind at 1, modify at 1.
  destruct (rebuild_all_rebuilt memories []
              (mk PyDict.empty [] [] PyDict.empty (storage s))
              (rebuilt_nil (storage s)) Hnd)
    as (s1 & Hall & (Hsem & Htemp & Himp & Hkeys & Hty) & Hdb).
  simpl in Hsem, Htemp, Himp, Hty.
  unfold mbind at 1, M_bind at 1. rewrite Hall.
  unfold mbind at 1, M_bind at 1, get_self at 1.
  unfold mbind at 1, M_bind at 1, lift at 1.
  rewrite Hsem, Htemp, sort_by_timestamp_loaded by done.
  unfold mbind at 1, M_bind at 1, modify at 1.
  unfold mbind at 1, M_bind at 1, get_self at 1. simpl.
  assert (Hb0 : buckets_sorted [] memories
                  (set_temporal_index (memory_id <$> by_timestamp memories) s1)).
  { intros t. simpl. rewrite Hty. by case_decide. }
  assert (Hpresent : forall t, t ∈ PyDict.keys (type_index s1) ->
            filter (fun m => memory_type m = t) memories <> []).
  { intros t Ht%get_Some_keys. rewrite Hty in Ht. case_decide; [|done].
    by destruct Ht. }
  destruct (sort_buckets_run (PyDict.keys (type_index s1)) [] memories
              (set_temporal_index (memory_id <$> by_timestamp memories) s1)
              Hsem Hnd Hb0 Hkeys Hpresent)
    as (s' & Hrun & Hsem' & Htemp' & Himp' & _ & Hb).
  simpl in Hb, Htemp', Hsem', Himp'.
  exists s'. split_and!; [done|congruence|done|congruence|by exists s1|].
  intros t. rewrite (Hb t). case_decide as Hnil; [done|].
  rewrite decide_True; [done|]. simpl.
  apply get_Some_keys. rewrite Hty, decide_False by done. eauto.
Qed.

Lemma load_all_memories_ids ok db memories :
  load_all_memories (Payload := Payload) ok db = Ok memories ->
  memory_id <$> memories = Row.id <$> StorageManager.memories db.
Proof.
  unfold load_all_memories. destruct ok; [|done]. simpl.
  destruct db as [rows]. simpl. revert memories.
  induction rows as [|r rows IH]; intros memories Hload.
  - by injection Hload as <-.
  - apply for_each_cons_inv in Hload as (m & ms & -> & Hm & Hms).
    rewrite !fmap_cons, (IH ms Hms).
    by destruct (memory_of_row_columns r m Hm) as (-> & _).
Qed.

(** X23. After a [load_memories] that has returned over a database whose
    rows have distinct ids, the semantic map has the ids of the rows as
    its keys, in the order of the rows; the temporal index and the
    importance index each hold every id once; and every id of an index
    or of a type bucket is a key of the semantic map. *)
Theorem load_memories_indices w s s' :
  NoDup (Row.id <$> StorageManager.memories (storage s)) ->
  load_memories w s = (s', Ok ()) ->
  PyDict.keys (semantic_index s') = Row.id <$> StorageManager.memories (storage s)
  /\ temporal_index s' ≡ₚ Row.id <$> StorageManager.memories (storage s)
  /\ importance_index s' ≡ₚ Row.id <$> StorageManager.memories (storage s)
  /\ consistent s'.
Proof.
  intros Hnd Hrun.
  destruct (load_memories_loads w s s' Hrun) as [memories Hload].
  pose proof (load_all_memories_ids _ _ _ Hload) as Hids.
  rewrite <- Hids in *.
  destruct (load_memories_run w s memories Hload Hnd)
    as (s'' & Hrun' & Hsem & Htemp & Himp & _ & Hty).
  assert (s'' = s') as -> by congruence.
  assert (Hkeys : PyDict.keys (semantic_index s') = memory_id <$> memories).
  { by rewrite Hsem, keys_loaded. }
  assert (Ht : temporal_index s' ≡ₚ memory_id <$> memories).
  { by rewrite Htemp, by_timestamp_perm. }
  split_and!; [done|done|done|].
  split_and!.
  - intros mid. by rewrite Hkeys, Ht.
  - intros mid. by rewrite Hkeys, Himp.
  - intros t bucket mid. rewrite Hty, Hkeys. case_decide; [done|].
    intros [= <-]. rewrite by_timestamp_perm.
    intros (m & -> & Hm)%list_elem_of_fmap.
    apply list_elem_of_filter in Hm as [_ Hm].
    apply list_elem_of_fmap. eauto.
Qed.
End Reload.

(** X22 on the database of the examples, loaded into the system of the
    examples, which holds other memories. *)
Lemma load_memories_idempotent_witness :
  exists s',
    load_memories (Example.world "" "2024-03-02T09:00:00" [])
      (MemorySystem.set_storage Example.database_p_q Example.two_memories)
    = (s', Ok ())
    /\ __init__ (Example.world "" "2024-03-02T09:00:00" []) Example.database_p_q
       = (s', Ok ())
    /\ load_memories (Example.world "" "2024-03-02T09:00:00" []) s' = (s', Ok ()).
Proof.
  eexists. split; [vm_compute; reflexivity|].
  edestruct (load_memories_idempotent
               (Example.world "" "2024-03-02T09:00:00" [])
               (MemorySystem.set_storage Example.database_p_q Example.two_memories))
    as (_ & Hinit & Hagain).
  - vm_compute. reflexivity.
  - split; [exact Hinit|exact Hagain].
Defined.

(** X23 on the database of the examples. *)
Lemma load_memories_indices_witness :
  exists s',
    load_memories (Example.world "" "2024-03-02T09:00:00" [])
      (MemorySystem.set_storage Example.database_p_q Example.two_memories)
    = (s', Ok ())
    /\ PyDict.keys (MemorySystem.semantic_index s') = ["p"; "q"]
    /\ consistent s'.
Proof.
  eexists. split; [vm_compute; reflexivity|].
  edestruct (load_memories_indices
               (Example.world "" "2024-03-02T09:00:00" [])
               (MemorySystem.set_storage Example.database_p_q Example.two_memories))
    as (Hkeys & _ & _ & Hc).
  - apply (bool_decide_unpack _). vm_compute. exact I.
  - vm_compute. reflexivity.
  - split; [exact Hkeys|exact Hc].
Defined.

(** ** Restarting over the database that the records left *)

Section SortedInput.
Context {K A : Type} (ltb : K -> K -> bool).
Implicit Types (x : K * A) (l : list (K * A)).

Lemma insert_desc_below x l :
  Forall (fun y => ltb x.1 y.1 = true) l -> insert_desc ltb x l = l ++ [x].
Proof.
  induction 1 as [|y l Hy Hl IH]; [done|]. simpl. by rewrite Hy, IH.
Qed.

Lemma sort_reverse_ascending l :
  StronglySorted (fun a b => ltb a.1 b.1 = true) l ->
  sort_reverse ltb l = reverse l.
Proof.
  induction 1 as [|x l Hs IH Hx]; [done|].
  unfold sort_reverse in *. simpl. rewrite IH, reverse_cons.
  apply insert_desc_below. by apply Forall_reverse.
Qed.
End SortedInput.

Section Restart.
Context {Payload : Type} `{Empty Payload}.
Context `{!Json Payload, !Json (list string),
          !Json (gmap string (list string)), !Json (list float)}.
Import MemorySystem.
Implicit Types (c : Call Payload) (done order cs : list (Call Payload)).
Implicit Types (s : MemorySystem Payload) (l : list (Memory Payload)).

Lemma for_each_fmap_ok {X Y Z} (f : Y -> result Z) (h : X -> Y) (g : X -> Z)
    (xs : list X) :
  (forall a, a ∈ xs -> f (h a) = Ok (g a)) ->
  for_each f (h <$> xs) = Ok (g <$> xs).
Proof.
  induction xs as [|a xs IH]; intros Hf; [done|].
  rewrite !fmap_cons. simpl. rewrite Hf by by left.
  rewrite IH; [done|]. intros a' Ha'. apply Hf. by right.
Qed.

Lemma by_timestamp_ascending l :
  StronglySorted
    (fun m1 m2 => String.ltb (timestamp_of m1) (timestamp_of m2) = true) l ->
  by_timestamp l = reverse l.
Proof.
  intros Hs. unfold by_timestamp.
  rewrite sort_reverse_ascending.
  - by rewrite <- fmap_reverse, fmap_snd_keyed.
  - eapply StronglySorted_fmap; [|exact Hs]. done.
Qed.

Lemma record_call_storage done order s c s' e :
  recorded done order s ->
  record_call c s = (s', Ok e) ->
  StorageManager.memories (storage s')
  = insert_or_replace (row_of_memory (memory_of c))
      (StorageManager.memories (storage s)).
Proof.
  intros Hrec Hrun. unfold record_call in Hrun.
  destruct (embedding_reply (Call.world c)) as [embedding|err] eqn:Hreply;
    cycle 1.
  { by rewrite (record_experience_no_embedding _ _ _ _ _ _ _ _ err Hreply)
      in Hrun. }
  destruct (record_experience_indexes (Call.world c) (Call.type c)
              (Call.content c) (Call.metadata c) (Call.tags c)
              (Call.importance c) (Call.context c) s embedding
              (recorded_consistent _ _ _ Hrec) Hreply)
    as (s1 & Hrun1 & _).
  rewrite Hrun in Hrun1.
  destruct (store_memory _ _ _) as [db|] eqn:Hstore; [|done].
  injection Hrun1 as -> _. apply store_memory_rows in Hstore.
  simpl. rewrite Hstore. unfold memory_of, experience_of. by rewrite Hreply.
Qed.

Lemma record_calls_storage cs done order s s' exps :
  recorded done order s ->
  NoDup (call_id <$> (done ++ cs)) ->
  StorageManager.memories (storage s)
  = (fun c => row_of_memory (memory_of c)) <$> done ->
  record_calls cs s = (s', Ok exps) ->
  StorageManager.memories (storage s')
  = (fun c => row_of_memory (memory_of c)) <$> (done ++ cs).
Proof.
  revert done order s s' exps.
  induction cs as [|c cs IH]; intros done order s s' exps Hrec Hnd Hrows; simpl.
  - intros [= <- <-]. by rewrite app_nil_r.
  - unfold mbind at 1, M_bind at 1.
    destruct (record_call c s) as [s1 [e|err]] eqn:Hc; [|done].
    unfold mbind at 1, M_bind at 1.
    destruct (record_calls cs s1) as [s2 [es|err]] eqn:Hcs; [|done].
    intros [= <- <-].
    replace (done ++ c :: cs) with ((done ++ [c]) ++ cs) in *
      by (by rewrite <- app_assoc).
    assert (Hnd1 : NoDup (call_id <$> done ++ [c])).
    { rewrite fmap_app in Hnd. by apply NoDup_app in Hnd as (Hnd & _). }
    destruct (record_call_recorded _ _ _ _ _ _ Hrec Hnd1 Hc)
      as (-> & o1 & o2 & -> & Hrec1 & _).
    apply (IH (done ++ [c]) (o1 ++ c :: o2) s1 s2 es Hrec1 Hnd); [|done].
    rewrite (record_call_storage _ _ _ _ _ _ Hrec Hc), Hrows.
    unfold insert_or_replace. rewrite fmap_app. f_equal.
    apply filter_all, Forall_forall.
    intros r (c' & -> & Hc')%list_elem_of_fmap.
    change (call_id c' <> call_id c).
    rewrite fmap_app in Hnd1. apply NoDup_app in Hnd1 as (_ & Hdisj & _).
    intros Heq. apply (Hdisj (call_id c')).
    + apply list_elem_of_fmap. eauto.
    + rewrite Heq. apply list_elem_of_singleton. done.
Qed.

Lemma gtb_real_cell x y :
  Float.gtb (real_cell x) (real_cell y) = Float.gtb x y.
Proof. by destruct x as [[]|[]| |[] ? ?], y as [[]|[]| |[] ? ?]. Qed.

Lemma insert_before_less_ext (sem1 sem2 : PyDict.t (Memory Payload))
    imp1 imp2 mid index :
  (forall k, k ∈ index ->
     exists m1 m2,
       PyDict.get k sem1 = Some m1 /\ PyDict.get k sem2 = Some m2
       /\ Float.gtb imp1 (importance_of_memory m1)
          = Float.gtb imp2 (importance_of_memory m2)) ->
  insert_before_less sem1 imp1 mid index
  = insert_before_less sem2 imp2 mid index.
Proof.
  induction index as [|k index IH]; intros Hsame; [done|]. simpl.
  destruct (Hsame k) as (m1 & m2 & H1 & H2 & Hgt); [by left|].
  unfold PyDict.getitem. rewrite H1, H2. simpl.
  unfold importance_of_memory in Hgt. rewrite Hgt.
  destruct (Float.gtb imp2 _); [done|].
  rewrite IH; [done|]. intros k' Hk'. apply Hsame. by right.
Qed.

Lemma record_call_importance done order s c s' e :
  recorded done order s ->
  record_call c s = (s', Ok e) ->
  insert_before_less
    (PyDict.set (call_id c) (memory_of c) (semantic_index s))
    (Call.importance c) (call_id c) (importance_index s)
  = Ok (importance_index s').
Proof.
  intros Hrec Hrun. unfold record_call in Hrun.
  pose proof (recorded_consistent _ _ _ Hrec) as (Ht & Hi & Hb).
  destruct (embedding_reply (Call.world c)) as [embedding|err] eqn:Hreply;
    cycle 1.
  { by rewrite (record_experience_no_embedding _ _ _ _ _ _ _ _ err Hreply)
      in Hrun. }
  assert (Hmem : memory_of c
                 = new_memory (Call.world c)
                     (new_experience (Call.world c) (Call.type c)
                        (Call.content c) (Call.metadata c) (Call.tags c)
                        (Call.importance c) (Call.context c)) embedding).
  { unfold memory_of, experience_of. by rewrite Hreply. }
  destruct (insert_before_less_ok
              (PyDict.set (call_id c) (memory_of c) (semantic_index s))
              (Call.importance c) (call_id c) (importance_index s))
    as [index' Hidx].
  { intros mid Hin. by apply keys_set_mono, Hi. }
  rewrite Hidx. f_equal. rewrite Hmem in Hidx.
  rewrite (record_experience_run (Call.world c) (Call.type c) (Call.content c)
             (Call.metadata c) (Call.tags c) (Call.importance c)
             (Call.context c) s embedding index' Hreply Hidx) in Hrun.
  destruct (store_memory _ _ _) as [db|]; [|done].
  by injection Hrun as <- _.
Qed.

(** The loop "Rebuild indices" over the memories that a sequence of
    records has stored makes the importance index that the records
    made. *)
Lemma rebuild_all_same_importance cs done order s t s' exps :
  let M := fun c : Call Payload => as_stored (memory_of c) in
  recorded done order s ->
  rebuilt (M <$> done) t ->
  importance_index t = importance_index s ->
  NoDup (call_id <$> (done ++ cs)) ->
  record_calls cs s = (s', Ok exps) ->
  exists t',
    rebuild_all (M <$> cs) t = (t', Ok ())
    /\ importance_index t' = importance_index s'.
Proof.
  intros M. revert done order s t s' exps.
  induction cs as [|c cs IH]; intros done order s t s' exps Hrec Hreb Himp Hnd;
    simpl.
  - intros [= <- <-]. by exists t.
  - unfold mbind at 1, M_bind at 1.
    destruct (record_call c s) as [s1 [e|err]] eqn:Hc; [|done].
    unfold mbind at 1, M_bind at 1.
    destruct (record_calls cs s1) as [s2 [es|err]] eqn:Hcs; [|done].
    intros [= <- <-].
    replace (done ++ c :: cs) with ((done ++ [c]) ++ cs) in *
      by (by rewrite <- app_assoc).
    assert (Hnd1 : NoDup (call_id <$> done ++ [c])).
    { rewrite fmap_app in Hnd. by apply NoDup_app in Hnd as (Hnd & _). }
    assert (Hnd0 : NoDup (call_id <$> done)).
    { rewrite fmap_app in Hnd1. by apply NoDup_app in Hnd1 as (? & _). }
    assert (Hfresh : call_id c ∉ call_id <$> done).
    { rewrite fmap_app in Hnd1. apply NoDup_app in Hnd1 as (_ & Hdisj & _).
      intros Hin. apply (Hdisj _ Hin). by apply list_elem_of_singleton. }
    assert (HidM : memory_id <$> (M <$> done) = call_id <$> done).
    { by rewrite <- list_fmap_compose. }
    destruct (record_call_recorded _ _ _ _ _ _ Hrec Hnd1 Hc)
      as (-> & o1 & o2 & -> & Hrec1 & _).
    pose proof (record_call_importance _ _ _ _ _ _ Hrec Hc) as Hidx.
    destruct (rebuild_one_rebuilt (M <$> done) (M c) t Hreb) as (t1 & Hone & Hreb1 & _).
    { by rewrite HidM. }
    assert (Hidx' : insert_before_less
                      (PyDict.set (memory_id (M c)) (M c) (semantic_index t))
                      (importance_of_memory (M c)) (memory_id (M c))
                      (importance_index t)
                    = Ok (importance_index s1)).
    { rewrite <- Hidx, Himp. apply insert_before_less_ext.
      intros k Hk.
      destruct Hrec as (Hsem & _ & Hord & Hperm & _).
      destruct Hreb as (Hsem' & _).
      rewrite Hord in Hk. apply list_elem_of_fmap in Hk as (c' & -> & Hc').
      rewrite Hperm in Hc'.
      assert (Hne : call_id c <> call_id c').
      { intros Heq. apply Hfresh. rewrite Heq. apply list_elem_of_fmap. eauto. }
      exists (M c'), (memory_of c'). split_and!.
      - change (memory_id (M c)) with (call_id c).
        rewrite get_set_ne by done. rewrite Hsem'.
        change (call_id c') with (memory_id (M c')).
        apply get_loaded; [by rewrite HidM|]. apply list_elem_of_fmap. eauto.
      - rewrite get_set_ne by done. rewrite Hsem. by apply get_entry.
      - apply gtb_real_cell. }
    rewrite (rebuild_one_run _ _ _ Hidx') in Hone. injection Hone as Hone.
    unfold mbind at 1, M_bind at 1.
    rewrite (rebuild_one_run _ _ _ Hidx').
    apply (IH (done ++ [c]) (o1 ++ c :: o2) s1 _ s2 es Hrec1); [| |done|done].
    + rewrite fmap_app. by rewrite Hone.
    + done.
Qed.

Section WithRoundTrip.
Context `{!JsonRoundTrip Payload, !JsonRoundTrip (list string),
          !JsonRoundTrip (gmap string (list string)),
          !JsonRoundTrip (list float)}.

(** X24. A system that is started over the database that a sequence of
    returning [record_experience] calls with distinct ids has left holds
    the recorded memories again, as stored and in the order of the
    calls, and its importance index is the one of the system that
    recorded. When the timestamps of the calls strictly increase, its
    temporal index and its type buckets are those of that system too. *)
Theorem restart_round_trip cs s exps w :
  record_calls cs fresh = (s, Ok exps) ->
  NoDup (call_id <$> cs) ->
  sqlite_ok w 0 = true ->
  exists s',
    __init__ w (storage s) = (s', Ok ())
    /\ semantic_index s'
       = (fun c => (call_id c, as_stored (memory_of c))) <$> cs
    /\ importance_index s' = importance_index s
    /\ (StronglySorted
          (fun c1 c2 =>
             String.ltb (Experience.timestamp (experience_of c1))
               (Experience.timestamp (experience_of c2)) = true) cs ->
        temporal_index s' = temporal_index s
        /\ forall t, PyDict.get t (type_index s') = PyDict.get t (type_index s)).
Proof.
  intros Hrun Hnd Hok.
  destruct (record_calls_recorded cs [] [] fresh s exps recorded_fresh
              (fun _ => by_importance_nil) Hnd Hrun)
    as (_ & order & (_ & Htemp & _ & _ & Hty) & _).
  simpl in Htemp, Hty.
  pose proof (record_calls_storage cs [] [] fresh s exps recorded_fresh Hnd
                eq_refl Hrun) as Hrows.
  simpl in Hrows.
  set (M := fun c : Call Payload => as_stored (memory_of c)).
  assert (Hload : load_all_memories (sqlite_ok w 0) (storage s) = Ok (M <$> cs)).
  { unfold load_all_memories. rewrite Hok, Hrows. simpl negb. cbv iota.
    apply for_each_fmap_ok. intros c _. apply memory_of_row_of_memory. }
  assert (Hids : memory_id <$> (M <$> cs) = call_id <$> cs).
  { by rewrite <- list_fmap_compose. }
  destruct (load_memories_run w (mk PyDict.empty [] [] PyDict.empty (storage s))
              (M <$> cs) Hload)
    as (s' & Hinit & Hsem & Htemp' & _ & (t1 & Hall & Himp') & Hty').
  { by rewrite Hids. }
  exists s'. split_and!; [done| | |].
  - by rewrite Hsem, <- list_fmap_compose.
  - destruct (rebuild_all_same_importance cs [] [] fresh
                (mk PyDict.empty [] [] PyDict.empty (storage s)) s exps
                recorded_fresh (rebuilt_nil (storage s)) eq_refl Hnd Hrun)
      as (t1' & Hall' & <-).
    rewrite Himp'.
    pose proof (eq_trans (eq_sym Hall) Hall') as Heq. by injection Heq as ->.
  - intros Hsorted.
    assert (Hby : forall cs', cs' `sublist_of` cs ->
              memory_id <$> by_timestamp (M <$> cs') = reverse (call_id <$> cs')).
    { intros cs' Hsub. rewrite by_timestamp_ascending.
      - by rewrite fmap_reverse, <- list_fmap_compose.
      - eapply StronglySorted_fmap; [|eapply StronglySorted_sublist; eauto].
        done. }
    split.
    + by rewrite Htemp', Htemp, Hby.
    + intros t. rewrite Hty', Hty. unfold bucket_of.
      rewrite (filter_fmap M). simpl.
      change (fun x : Call Payload => memory_type (M x) = t)
        with (fun c : Call Payload => Call.type c = t).
      rewrite Hby by apply sublist_filter.
      destruct (decide (filter (fun c => Call.type c = t) cs = []))
        as [Hnil|Hne].
      * rewrite decide_True; [done|]. exact (f_equal (fmap M) Hnil).
      * rewrite decide_False; [done|]. intros Heq%fmap_nil_inv. exact (Hne Heq).
Qed.
End WithRoundTrip.
End Restart.

(** X24 on the two records of the examples. *)
Lemma restart_round_trip_witness :
  exists s' : MemorySystem Example.Payload,
    __init__ (Example.world "" "2024-03-02T09:00:00" [])
      (MemorySystem.storage Example.two_memories) = (s', Ok ())
    /\ PyDict.keys (MemorySystem.semantic_index s') = ["a"; "b"]
    /\ MemorySystem.temporal_index s' = ["b"; "a"].
Proof.
  destruct (restart_round_trip (JsonRoundTrip0 := codec_round_trip)
              (JsonRoundTrip1 := codec_round_trip)
              (JsonRoundTrip2 := codec_round_trip)
              (JsonRoundTrip3 := codec_round_trip)
              [Example.call_a; Example.call_b] Example.two_memories
              (experience_of <$> [Example.call_a; Example.call_b])
              (Example.world "" "2024-03-02T09:00:00" [])
              record_a_b NoDup_a_b eq_refl)
    as (s' & Hinit & Hsem & _ & Hsorted).
  exists s'. split; [exact Hinit|]. split.
  - rewrite Hsem. reflexivity.
  - destruct Hsorted as [Htemp _].
    + repeat constructor.
    + rewrite Htemp. reflexivity.
Defined.

(** ** The indices and the database after a sequence of records *)

Section Agreement.
Context {Payload : Type} `{Empty Payload}.
Context `{!Json Payload, !Json (list string),
          !Json (gmap string (list string)), !Json (list float)}.
Import MemorySystem.
Implicit Types (c : Call Payload) (cs : list (Call Payload)).
Implicit Types (s : MemorySystem Payload).

Lemma sublist_reverse_2 {X} (l1 l2 : list X) :
  l1 `sublist_of` l2 -> reverse l1 `sublist_of` reverse l2.
Proof.
  induction 1 as [|x l1 l2 Hsub IH|x l1 l2 Hsub IH]; [done| |].
  - rewrite !reverse_cons. by apply sublist_app.
  - rewrite reverse_cons. by apply sublist_inserts_r.
Qed.

(** X25. After a sequence of returning [record_experience] calls with
    distinct ids, from the empty system, the four indices and the
    database hold the same ids: the semantic map and the rows of the
    database in the order of the calls, the temporal index in the
    reverse order, the importance index in some order, and every id in
    the bucket of its type, each bucket in the order of the temporal
    index. *)
Theorem record_calls_indices_agree cs s exps :
  record_calls cs fresh = (s, Ok exps) ->
  NoDup (call_id <$> cs) ->
  PyDict.keys (semantic_index s) = call_id <$> cs
  /\ Row.id <$> StorageManager.memories (storage s) = call_id <$> cs
  /\ temporal_index s = reverse (call_id <$> cs)
  /\ importance_index s ≡ₚ call_id <$> cs
  /\ (forall c, c ∈ cs ->
        exists bucket,
          PyDict.get (Call.type c) (type_index s) = Some bucket
          /\ call_id c ∈ bucket)
  /\ (forall t bucket,
        PyDict.get t (type_index s) = Some bucket ->
        bucket `sublist_of` temporal_index s).
Proof.
  intros Hrun Hnd.
  destruct (record_calls_recorded cs [] [] fresh s exps recorded_fresh
              (fun _ => by_importance_nil) Hnd Hrun)
    as (_ & order & (Hsem & Htemp & Himp & Hperm & Hty) & _).
  simpl in Hsem, Htemp, Himp, Hperm, Hty.
  pose proof (record_calls_storage cs [] [] fresh s exps recorded_fresh Hnd
                eq_refl Hrun) as Hrows.
  simpl in Hrows.
  split_and!.
  - by rewrite Hsem, keys_entries.
  - by rewrite Hrows, <- list_fmap_compose.
  - done.
  - by rewrite Himp, Hperm.
  - intros c Hc. rewrite Hty.
    assert (Hin : c ∈ filter (fun c' => Call.type c' = Call.type c) cs).
    { by apply list_elem_of_filter. }
    rewrite decide_False by (intros Hnil; rewrite Hnil in Hin;
                             by apply elem_of_nil in Hin).
    eexists. split; [done|]. unfold bucket_of.
    rewrite elem_of_reverse. apply list_elem_of_fmap. eauto.
  - intros t bucket. rewrite Hty, Htemp. case_decide; [done|].
    intros [= <-]. unfold bucket_of.
    apply sublist_reverse_2, fmap_sublist, sublist_filter.
Qed.
End Agreement.

(** X25 on the two records of the examples. *)
Lemma record_calls_indices_agree_witness :
  PyDict.keys (MemorySystem.semantic_index Example.two_memories) = ["a"; "b"]
  /\ Row.id <$> StorageManager.memories (MemorySystem.storage Example.two_memories)
     = ["a"; "b"]
  /\ MemorySystem.temporal_index Example.two_memories = ["b"; "a"].
Proof.
  destruct (record_calls_indices_agree [Example.call_a; Example.call_b]
              Example.two_memories
              (experience_of <$> [Example.call_a; Example.call_b])
              record_a_b NoDup_a_b)
    as (Hsem & Hrows & Htemp & _).
  split; [exact Hsem|]. split; [exact Hrows|exact Htemp].
Defined.

(** ** Reflection: [reflect] *)

Section Reflection.
Context {Payload : Type} `{Empty Payload}.
Context `{!Json Payload, !Json (list string),
          !Json (gmap string (list string)), !Json (list float)}.
Import MemorySystem.
Implicit Types (s : MemorySystem Payload).

Lemma recall_recent_untyped_run w limit s :
  consistent s ->
  exists memories,
    Forall2 (fun mid m => PyDict.get mid (semantic_index s) = Some m)
      (slice_to (temporal_index s) limit) memories
    /\ recall_recent w limit None s
       = match update_access_all w 0 memories s with
         | (s', Ok _) => (s', Ok memories)
         | (s', Raise e) => (s', Raise e)
         end.
Proof.
  intros (Ht & _ & _). unfold recall_recent.
  unfold mbind at 1, M_bind at 1, get_self at 1. simpl truthy. cbv iota.
  destruct (recall_ids_run w (semantic_index s)
              (slice_to (temporal_index s) limit) s eq_refl)
    as (memories & HF & Hrun).
  { intros mid Hin. apply Ht. eapply elem_of_sublist; [exact Hin|].
    apply slice_to_sublist. }
  exists memories. by rewrite Hrun.
Qed.

(** X26. [reflect] recalls the ten most recent memories before its
    [try] block. So, on a system with the invariant of the indices: with
    a database that works it returns, with the reflection of the
    provider or, when the provider has failed, with the answer that
    carries the error and three empty lists, and in both cases the
    accesses of those memories are counted in the database; and with a
    database that fails at the first access it raises, the [except]
    clause notwithstanding. *)
Theorem reflect_recalls_outside_try w reply s :
  consistent s ->
  ((forall k, sqlite_ok w k = true) ->
   exists db memories,
     reflect w reply s
     = (set_storage db s,
        Ok (match reply with
            | inr reflection => inl reflection
            | inl e => inr (Analysis.mk_no_reflection e [] [] [])
            end))
     /\ Forall2 (fun mid m => PyDict.get mid (semantic_index s) = Some m)
          (take 10 (temporal_index s)) memories
     /\ Forall2 (access_recorded (memory_id <$> memories))
          (StorageManager.memories (storage s)) (StorageManager.memories db))
  /\ (sqlite_ok w 0 = false -> temporal_index s <> [] ->
      reflect w reply s = (s, Raise OperationalError)).
Proof.
  intros Hc.
  destruct (recall_recent_untyped_run w 10 s Hc) as (memories & HF & Hrun).
  change (slice_to (temporal_index s) 10) with (take 10 (temporal_index s)) in HF.
  split.
  - intros Hok.
    destruct (update_access_all_rows w 0 memories s Hok) as (db & Hup & Hrows).
    exists db, memories. split_and!; [|done|done].
    unfold reflect, mbind, M_bind. by rewrite Hrun, Hup.
  - intros Hfail Hne.
    destruct (update_access_all_fails w 0 memories s 0) as (db & Hup & Hrows).
    + intros j Hj. lia.
    + done.
    + rewrite <- (Forall2_length _ _ _ HF), length_take.
      revert Hne. destruct (temporal_index s); [done|]. simpl. lia.
    + unfold reflect, mbind, M_bind. rewrite Hrun, Hup.
      f_equal. destruct s as [sem temp imp ty [rows]], db as [rows'].
      unfold set_storage. simpl in *. do 2 f_equal.
      clear -Hrows. revert rows' Hrows.
      induction rows as [|r rows IH]; intros rows' Hrows.
      * by apply Forall2_nil_inv_l in Hrows.
      * apply Forall2_cons_inv_l in Hrows as (r' & rows'' & Hr & Hrows & ->).
        destruct Hr as (_ & _ & Hsame). rewrite (Hsame (not_elem_of_nil _)).
        f_equal. by apply IH.
Qed.
End Reflection.

(** X26 on the system of the examples, with a provider that has failed:
    with a database that works, and with one that does not. *)
Lemma reflect_recalls_outside_try_witness :
  (exists db,
     reflect (Example.world "" "2024-01-02T09:00:00" []) (inl "provider down")
       Example.two_memories
     = (MemorySystem.set_storage db Example.two_memories,
        Ok (inr (Analysis.mk_no_reflection "provider down" [] [] []))))
  /\ reflect (Example.broken "" "2024-01-02T09:00:00" []) (inl "provider down")
       Example.two_memories
     = (Example.two_memories, Raise OperationalError).
Proof.
  split.
  - destruct (proj1 (reflect_recalls_outside_try
                       (Example.world "" "2024-01-02T09:00:00" [])
                       (inl "provider down") Example.two_memories
                       consistent_two_memories))
      as (db & memories & Hrun & _).
    + intros k. reflexivity.
    + exists db. exact Hrun.
  - apply (proj2 (reflect_recalls_outside_try
                    (Example.broken "" "2024-01-02T09:00:00" [])
                    (inl "provider down") Example.two_memories
                    consistent_two_memories)).
    + reflexivity.
    + discriminate.
Defined.
